(** * A shallow embedding of the storage control plane of the CSI driver

    The development follows the Go sources:
    - [Proto]  : the initiator helpers of package [proto] ([VerifyIscsiPortals]);
    - [Nfs]    : the node mount helper of package [nfs] ([nfs_helper.go]);
    - [Volume] : the LUN lifecycle orchestrator of package [volume] ([base.go]).

    Conventions.  A Go function that returns [error] becomes a function into
    [outcome]; a failed unchecked type assertion [x.(T)] is the outcome
    [Panic].  Calls of the logger are dropped.  Stateful code runs in a small
    state-and-error monad whose state holds the world the external
    capabilities act on and the trace of the calls made so far. *)

From Stdlib Require Import ZArith Lia Ascii String List Bool.
From stdpp Require Import base option list strings gmap pretty.

Local Open Scope string_scope.
Local Open Scope list_scope.

(** ** Go values and the pieces of the Go standard library the code uses *)

Module Go.

(** Go [error] values: built by [errors.New] / [fmt.Errorf], wrapped by the
    task-flow engine with the name of the failed step, or the time-out of the
    job waiter. *)
Inductive error : Type :=
| errorsNew (msg : string)
| TaskFailed (step : string) (cause : error)
| Timeout.

(** The three ways a Go call ends. *)
Inductive outcome (A : Type) : Type :=
| Ok (a : A)
| Err (e : error)
| Panic.
Arguments Ok {A} a.
Arguments Err {A} e.
Arguments Panic {A}.

Definition isOk {A} (o : outcome A) : bool :=
  match o with Ok _ => true | _ => false end.

Definition isErr {A} (o : outcome A) : bool :=
  match o with Err _ => true | _ => false end.

(** Which array a client handle talks to. *)
Inductive Tgt : Type := Local | MetroRemote | ReplicaRemote.

#[local] Set Warnings "-register-all".

(** Values of type [interface{}] as they occur in parameter maps, task
    results and decoded array objects. *)
Inductive Value : Type :=
| VStr (s : string)
| VInt (n : Z)
| VInt64 (n : Z)
| VBool (b : bool)
| VStrs (l : list string)
| VQos (q : gmap string Z)
| VCli (t : Tgt)
| VObj (o : gmap string Value).

(** [map[string]interface{}] *)
Abbreviation Map := (gmap string Value).

(** [v, ok := m[k].(string)] *)
Definition asString (v : option Value) : option string :=
  match v with Some (VStr s) => Some s | _ => None end.

Definition asBool (v : option Value) : option bool :=
  match v with Some (VBool b) => Some b | _ => None end.

Definition asInt (v : option Value) : option Z :=
  match v with Some (VInt n) => Some n | _ => None end.

Definition asInt64 (v : option Value) : option Z :=
  match v with Some (VInt64 n) => Some n | _ => None end.

Definition asQos (v : option Value) : option (gmap string Z) :=
  match v with Some (VQos q) => Some q | _ => None end.

Definition asStrs (v : option Value) : option (list string) :=
  match v with Some (VStrs l) => Some l | _ => None end.

Definition asCli (v : option Value) : option Tgt :=
  match v with Some (VCli t) => Some t | _ => None end.

(** [m[k] == "s"] for an interface value against a string constant. *)
Definition isStr (v : option Value) (s : string) : bool :=
  match v with Some (VStr s') => bool_decide (s' = s) | _ => false end.

(** [s != ""] *)
Definition nonEmpty (s : string) : bool := negb (bool_decide (s = "")).

(** The [ok] of [v, ok := m[k]] and of [v, ok := x.(T)]. *)
Definition present {A} (o : option A) : bool :=
  match o with Some _ => true | None => false end.

(** *** int64 arithmetic *)

Definition minInt64 : Z := - 2 ^ 63.
Definition maxInt64 : Z := 2 ^ 63 - 1.

(** Two's complement wrap-around of a mathematical integer into int64. *)
Definition wrap64 (z : Z) : Z := (z + 2 ^ 63) mod 2 ^ 64 - 2 ^ 63.

Definition inInt64 (z : Z) : Prop := (minInt64 <= z <= maxInt64)%Z.

Definition mul64 (a b : Z) : Z := wrap64 (a * b).
Definition sub64 (a b : Z) : Z := wrap64 (a - b).

(** *** package strings *)

(** [strings.Contains(s, substr)] *)
Fixpoint Contains (s substr : string) : bool :=
  if String.prefix substr s then true
  else match s with
       | EmptyString => false
       | String _ s' => Contains s' substr
       end.

(** [strings.Split(s, sep)] for a non-empty separator: [skip] counts the
    bytes of a matched separator still to drop, [cur] is the field read so
    far, last byte first. *)
Fixpoint splitGo (sep : string) (skip : nat) (cur : string) (s : string)
  : list string :=
  match s with
  | EmptyString => [String.rev cur]
  | String c s' =>
      match skip with
      | S k => splitGo sep k cur s'
      | O =>
          if String.prefix sep s
          then String.rev cur :: splitGo sep (String.length sep - 1) EmptyString s'
          else splitGo sep O (String c cur) s'
      end
  end.

Fixpoint explode (s : string) : list string :=
  match s with
  | EmptyString => []
  | String c s' => String c EmptyString :: explode s'
  end.

(** With an empty separator Go splits after each UTF-8 sequence; the code
    never does that, and the model splits after each byte there. *)
Definition Split (s sep : string) : list string :=
  match sep with
  | EmptyString => explode s
  | _ => splitGo sep O EmptyString s
  end.

Definition bytes (l : list nat) : string :=
  fold_right (fun n s => String (ascii_of_nat n) s) EmptyString l.

(** The white space of [unicode.IsSpace], as UTF-8 byte sequences:
    U+0009..U+000D, U+0020, U+0085, U+00A0, U+1680, U+2000..U+200A, U+2028,
    U+2029, U+202F, U+205F, U+3000. *)
Definition spaceRunes : list string :=
  map bytes
    ([ [9]; [10]; [11]; [12]; [13]; [32]; [194; 133]; [194; 160]; [225; 154; 128] ]
     ++ map (fun k => [226; 128; 128 + k]) (seq 0 11)
     ++ [ [226; 128; 168]; [226; 128; 169]; [226; 128; 175]; [226; 129; 159];
          [227; 128; 128] ])%list.

Fixpoint dropPrefix (p s : string) : option string :=
  match p, s with
  | EmptyString, _ => Some s
  | String a p', String b s' => if Ascii.eqb a b then dropPrefix p' s' else None
  | String _ _, EmptyString => None
  end.

Fixpoint dropFirst (ps : list string) (s : string) : option string :=
  match ps with
  | [] => None
  | p :: ps' => match dropPrefix p s with
                | Some r => Some r
                | None => dropFirst ps' s
                end
  end.

Fixpoint trimLeftRunes (fuel : nat) (ps : list string) (s : string) : string :=
  match fuel with
  | O => s
  | S n => match dropFirst ps s with
           | Some r => trimLeftRunes n ps r
           | None => s
           end
  end.

(** [strings.TrimSpace(s)], for a string that is valid UTF-8. *)
Definition TrimSpace (s : string) : string :=
  let l := trimLeftRunes (String.length s) spaceRunes s in
  String.rev
    (trimLeftRunes (String.length l) (map String.rev spaceRunes) (String.rev l)).

(** *** package strconv *)

Inductive NumError : Type := ErrSyntax | ErrRange.

Definition digitOf (c : ascii) : option Z :=
  let n := Z.of_nat (nat_of_ascii c) in
  if ((48 <=? n) && (n <=? 57))%Z then Some (n - 48)%Z else None.

(** The digits of [s] read in base 10 onto [acc]; [None] for a byte that is
    no digit. *)
Fixpoint readDigits (s : string) (acc : Z) : option Z :=
  match s with
  | EmptyString => Some acc
  | String c s' => match digitOf c with
                   | Some d => readDigits s' (10 * acc + d)%Z
                   | None => None
                   end
  end.

Definition maxUint64 : Z := 2 ^ 64 - 1.

(** The loop of [strconv.ParseUint(s, 10, 64)] over the bytes of [s], with
    [n] read so far: a byte that is no digit is a syntax error; a digit that
    would take the value past [uint64] ends the loop at once with the range
    error and the largest value, whatever follows. *)
Fixpoint parseUint (s : string) (n : Z) : Z * option NumError :=
  match s with
  | EmptyString => (n, None)
  | String c s' =>
      match digitOf c with
      | None => (0%Z, Some ErrSyntax)
      | Some d =>
          if (maxUint64 / 10 + 1 <=? n)%Z then (maxUint64, Some ErrRange)
          else
            let n1 := (10 * n + d)%Z in
            if (maxUint64 <? n1)%Z then (maxUint64, Some ErrRange)
            else parseUint s' n1
      end
  end.

(** [strconv.ParseInt(s, 10, 64)]: the value and the error, if any.  A syntax
    error yields 0, a range error the nearest int64. *)
Definition ParseInt (s : string) : Z * option NumError :=
  match s with
  | EmptyString => (0%Z, Some ErrSyntax)
  | String c s' =>
      let plus := Ascii.eqb c "+"%char in
      let neg := Ascii.eqb c "-"%char in
      let ds := if plus || neg then s' else s in
      match ds with
      | EmptyString => (0%Z, Some ErrSyntax)
      | _ =>
          match parseUint ds 0 with
          | (_, Some ErrSyntax) => (0%Z, Some ErrSyntax)
          | (un, _) =>
              if neg then
                if (2 ^ 63 <? un)%Z then (minInt64, Some ErrRange) else ((- un)%Z, None)
              else
                if (2 ^ 63 <=? un)%Z then (maxInt64, Some ErrRange) else (un, None)
          end
      end
  end.

(** The text of a [*strconv.NumError]; the quoting of [strconv.Quote] is
    the plain one, for an input without special bytes. *)
Definition numError (fn s : string) (e : NumError) : error :=
  errorsNew (fn +:+ ": parsing " +:+ bytes [34] +:+ s +:+ bytes [34] +:+ ": "
             +:+ match e with
                 | ErrSyntax => "invalid syntax"
                 | ErrRange => "value out of range"
                 end).

(** [strconv.Atoi(s)] on a platform whose [int] has 64 bits. *)
Definition Atoi (s : string) : Z * option NumError := ParseInt s.

(** *** The monad of effectful code

    A computation starts in a world [W], ends as an [outcome], leaves a new
    world and emits the calls it made, oldest first. *)

Definition M (W E A : Type) : Type := W -> outcome A * W * list E.

Definition ret {W E A} (a : A) : M W E A := fun w => (Ok a, w, []).

Definition bind {W E A B} (m : M W E A) (f : A -> M W E B) : M W E B :=
  fun w =>
    match m w with
    | (Ok a, w1, t1) => let '(r, w2, t2) := f a w1 in (r, w2, t1 ++ t2)
    | (Err e, w1, t1) => (Err e, w1, t1)
    | (Panic, w1, t1) => (Panic, w1, t1)
    end.

(** [return ..., err] *)
Definition throw {W E A} (e : error) : M W E A := fun w => (Err e, w, []).

Definition panic {W E A} : M W E A := fun w => (Panic, w, []).

(** A call whose error the caller inspects itself. *)
Definition attempt {W E A} (m : M W E A) : M W E (error + A) :=
  fun w =>
    match m w with
    | (Ok a, w1, t1) => (Ok (inr a), w1, t1)
    | (Err e, w1, t1) => (Ok (inl e), w1, t1)
    | (Panic, w1, t1) => (Panic, w1, t1)
    end.

(** A call whose results are dropped: [p.cli.DeleteLun(ctx, id)] as a
    statement. *)
Definition ignore {W E A} (m : M W E A) : M W E unit :=
  fun w =>
    match m w with
    | (Ok _, w1, t1) => (Ok tt, w1, t1)
    | (Err _, w1, t1) => (Ok tt, w1, t1)
    | (Panic, w1, t1) => (Panic, w1, t1)
    end.

(** One call of an external capability [f], recorded as [ev]. *)
Definition perform {W E R} (ev : E) (f : W -> R * W) : M W E R :=
  fun w => let '(r, w1) := f w in (Ok r, w1, [ev]).

(** An unchecked type assertion [x.(T)]. *)
Definition must {W E A} (o : option A) : M W E A :=
  match o with Some a => ret a | None => panic end.

(** An external call that returns [(T, error)]. *)
Definition liftErr {W E A} (m : M W E (error + A)) : M W E A :=
  bind m (fun r => match r with inl e => throw e | inr a => ret a end).

(** An external call that returns only [error]. *)
Definition liftErr0 {W E} (m : M W E (option error)) : M W E unit :=
  bind m (fun r => match r with Some e => throw e | None => ret tt end).

Definition result {W E A} (r : outcome A * W * list E) : outcome A := r.1.1.
Definition worldOf {W E A} (r : outcome A * W * list E) : W := r.1.2.
Definition calls {W E A} (r : outcome A * W * list E) : list E := r.2.

Declare Scope go_scope.
Delimit Scope go_scope with go.
Notation "x <- m ;; k" := (bind m (fun x => k))
  (at level 100, m at next level, right associativity) : go_scope.
Notation "m ;;; k" := (bind m (fun _ => k))
  (at level 100, right associativity) : go_scope.

End Go.

Export Go.

(** ** Package proto: the initiator helpers *)

Module Proto.

Section Portals.

(** [net.ParseIP]: the address, or [None] for Go's [nil]. *)
Variable IP : Type.
Variable ParseIP : string -> option IP.

Fixpoint verifyLoop (portals : list Value) (verifiedPortals : list string)
  : outcome (list string) :=
  match portals with
  | [] => Ok verifiedPortals
  | i :: rest =>
      match i with
      | VStr portal =>
          match ParseIP portal with
          | None => Err (errorsNew (portal +:+ " of portals is invalid"))
          | Some _ => verifyLoop rest (verifiedPortals ++ [portal])
          end
      | _ => Panic
      end
  end.

Definition VerifyIscsiPortals (portals : list Value) : outcome (list string) :=
  if (length portals <? 1)%nat
  then Err (errorsNew "At least 1 portal must be provided for iscsi backend")
  else verifyLoop portals [].

End Portals.

End Proto.

(** ** Package nfs: the node mount helper *)

Module Nfs.

(** What [os.Stat] reports: no error, an error for which [os.IsNotExist]
    holds, or another error. *)
Inductive statResult : Type := StatOk | StatNotExist | StatOtherError.

(** The host: the file system calls and the shell ([utils.ExecShellCmd] runs
    the formatted command line and returns its output and error). *)
Record OS (W : Type) : Type := {
  osStat : string -> W -> statResult * W;
  osMkdirAll : string -> N -> W -> option error * W;
  ioutilReadFile : string -> W -> (error + string) * W;
  utilsExecShellCmd : string -> W -> (string * option error) * W;
  connectorResizeMountPath : string -> W -> option error * W
}.
Arguments osStat {W}.
Arguments osMkdirAll {W}.
Arguments ioutilReadFile {W}.
Arguments utilsExecShellCmd {W}.
Arguments connectorResizeMountPath {W}.

Inductive SysCall : Type :=
| Stat (path : string)
| MkdirAll (path : string) (perm : N)
| ReadFile (path : string)
| Exec (cmd : string)
| Resize (path : string).

Record connectorInfo : Type := {
  srcType : string;
  sourcePath : string;
  targetPath : string;
  fsType : string;
  mntFlags : string
}.

Definition parseNFSInfo (connectionProperties : Map) : outcome connectorInfo :=
  match asString (connectionProperties !! "srcType") with
  | Some srcType =>
      if nonEmpty srcType then
        match asString (connectionProperties !! "sourcePath") with
        | Some sourcePath =>
            if nonEmpty sourcePath then
              match asString (connectionProperties !! "targetPath") with
              | Some targetPath =>
                  if nonEmpty targetPath then
                    let fsType := default "" (asString (connectionProperties !! "fsType")) in
                    let fsType := if nonEmpty fsType then fsType else "ext4" in
                    let mntFlags := default "" (asString (connectionProperties !! "mountFlags")) in
                    Ok {| srcType := srcType; sourcePath := sourcePath;
                          targetPath := targetPath; fsType := fsType;
                          mntFlags := mntFlags |}
                  else Err (errorsNew "there are no target path in the connection info")
              | None => Err (errorsNew "there are no target path in the connection info")
              end
            else Err (errorsNew "there are no source path in the connection info")
        | None => Err (errorsNew "there are no source path in the connection info")
        end
      else Err (errorsNew "there are no srcType in the connection info")
  | None => Err (errorsNew "there are no srcType in the connection info")
  end.

(** The body of the loop of [readMountPoints] for one line. *)
Definition addMountLine (mountMap : gmap string string) (line : string)
  : gmap string string :=
  if nonEmpty (TrimSpace line) then
    let splitValue := Split line " " in
    match splitValue with
    | v0 :: v1 :: _ =>
        if negb (bool_decide (v0 = "#")) then <[v1 := v0]> mountMap else mountMap
    | _ => mountMap
    end
  else mountMap.

(** The table [readMountPoints] builds from the text of [/proc/mounts]. *)
Definition parseMounts (data : string) : gmap string string :=
  fold_left addMountLine (Split data (bytes [10])) ∅.

Section Host.

Context {W : Type}.
Variable os : OS W.

Local Open Scope go_scope.

Abbreviation Sys := (M W SysCall).

Definition ExecShellCmd (cmd : string) : Sys (string * option error) :=
  perform (Exec cmd) (utilsExecShellCmd os cmd).

Definition preMount (sourcePath targetPath : string) : Sys unit :=
  st <- perform (Stat sourcePath) (osStat os sourcePath) ;;
  match st with
  | StatNotExist => throw (errorsNew "source path does not exist")
  | _ =>
      st <- perform (Stat targetPath) (osStat os targetPath) ;;
      match st with
      | StatNotExist =>
          r <- perform (MkdirAll targetPath 488) (osMkdirAll os targetPath 488) ;;
          match r with
          | Some _ => throw (errorsNew "can not create a target path")
          | None => ret tt
          end
      | _ => ret tt
      end
  end.

Definition readMountPoints : Sys (gmap string string) :=
  data <- liftErr (perform (ReadFile "/proc/mounts") (ioutilReadFile os "/proc/mounts")) ;;
  ret (parseMounts data).

Definition mountConflictMsg (sourcePath targetPath : string) : string :=
  "The mount " +:+ targetPath +:+ " is already exist, but the source path is not "
  +:+ sourcePath.

Definition mountUnix (sourcePath targetPath flags : string) : Sys unit :=
  preMount sourcePath targetPath ;;;
  r <- attempt readMountPoints ;;
  (* the error of readMountPoints is not looked at: the table is then nil *)
  let mountMap := match r with inr m => m | inl _ => ∅ end in
  let conflict := match mountMap !! targetPath with
                  | Some value => negb (bool_decide (value = sourcePath))
                  | None => false
                  end in
  if conflict then throw (errorsNew (mountConflictMsg sourcePath targetPath))
  else
    r <- (if nonEmpty flags
          then ExecShellCmd ("mount " +:+ sourcePath +:+ " " +:+ targetPath
                             +:+ " -o " +:+ flags)
          else ExecShellCmd ("mount " +:+ sourcePath +:+ " " +:+ targetPath)) ;;
    match r.2 with Some e => throw e | None => ret tt end.

Definition mountFS (sourcePath targetPath flags : string) : Sys unit :=
  mountUnix sourcePath targetPath flags.

Definition isDevFormat (sourcePath : string) : Sys bool :=
  r <- ExecShellCmd ("blkid -o udev " +:+ sourcePath
                     +:+ " | grep ID_FS_UUID | cut -d = -f2") ;;
  match r.2 with
  | Some e => throw e
  | None => ret (nonEmpty r.1)
  end.

Definition formatDisk (sourcePath fsType : string) : Sys unit :=
  r <- ExecShellCmd ("mkfs -t " +:+ fsType +:+ " -F " +:+ sourcePath) ;;
  match r.2 with Some e => throw e | None => ret tt end.

Definition mountDisk (sourcePath targetPath fsType flags : string) : Sys unit :=
  isFormatted <- isDevFormat sourcePath ;;
  if negb isFormatted then
    formatDisk sourcePath fsType ;;;
    mountUnix sourcePath targetPath flags
  else
    mountUnix sourcePath targetPath flags ;;;
    liftErr0 (perform (Resize targetPath) (connectorResizeMountPath os targetPath)).

Definition tryConnectVolume (connMap : Map) : Sys unit :=
  match parseNFSInfo connMap with
  | Ok conn =>
      if bool_decide (srcType conn = "block") then
        mountDisk (sourcePath conn) (targetPath conn) (fsType conn) (mntFlags conn)
      else if bool_decide (srcType conn = "fs") then
        mountFS (sourcePath conn) (targetPath conn) (mntFlags conn)
      else throw (errorsNew "volume device not found")
  | Err e => throw e
  | Panic => panic
  end.

Definition unmountUnix (targetPath : string) : Sys unit :=
  r <- ExecShellCmd ("umount " +:+ targetPath) ;;
  match r.2 with
  | Some err => if negb (Contains r.1 "not mounted") then throw err else ret tt
  | None => ret tt
  end.

Definition tryDisConnectVolume (targetPath : string) : Sys unit :=
  unmountUnix targetPath.

End Host.

End Nfs.

(** ** Package volume: the LUN lifecycle orchestrator *)

Module Volume.

(** A decoded array object, [map[string]interface{}]. *)
Abbreviation Obj := (gmap string Value).

(** *** The array client contract

    The methods of [client.BaseClientInterface] that [base.go] calls, grouped
    by the shape of what they return.  The helpers of package [smartx]
    ([NewSmartX(cli).CreateQos] and the like) act on the array through the
    client they wrap and are taken as capabilities of that client. *)

(** Methods returning [(map[string]interface{}, error)]. *)
Inductive ObjReq : Type :=
| GetPoolByName (name : string)
| GetLunByName (name : string)
| GetLunByID (id : string)
| CreateLun (params : Map)
| GetLunSnapshotByName (name : string)
| CreateLunSnapshot (name lunID : string)
| SmartXCreateLunSnapshot (name srcLunID : string)
| CreateClonePair (srcLunID dstLunID : string) (cloneSpeed : Z)
| GetClonePairInfo (clonePairID : string)
| GetLunCopyByName (name : string)
| GetLunCopyByID (id : string)
| CreateLunCopy (name srcLunID dstLunID : string) (copySpeed : Z)
| GetHyperMetroPairByLocalObjID (objID : string)
| GetHyperMetroPair (pairID : string)
| CreateHyperMetroPair (data : Map)
| GetHyperMetroDomainByName (name : string)
| CreateReplicationPair (data : Map)
| GetRemoteDeviceBySN (sn : string)
| GetSystem.

(** Methods returning [error] only. *)
Inductive ErrReq : Type :=
| DeleteLun (id : string)
| ExtendLun (lunID : string) (capacity : Z)
| ActivateLunSnapshot (snapshotID : string)
| DeactivateLunSnapshot (snapshotID : string)
| DeleteLunSnapshot (snapshotID : string)
| SmartXDeleteLunSnapshot (snapshotID : string)
| SyncClonePair (clonePairID : string)
| DeleteClonePair (clonePairID : string)
| StartLunCopy (lunCopyID : string)
| StopLunCopy (lunCopyID : string)
| DeleteLunCopy (lunCopyID : string)
| SyncHyperMetroPair (pairID : string)
| StopHyperMetroPair (pairID : string)
| DeleteHyperMetroPair (pairID : string) (onlineDelete : bool)
| SyncReplicationPair (pairID : string)
| SplitReplicationPair (pairID : string)
| DeleteReplicationPair (pairID : string)
| SmartXDeleteQos (qosID objID objType vStoreID : string).

(** Methods returning [(string, error)]. *)
Inductive StrReq : Type :=
| GetApplicationTypeByName (name : string)
| SmartXCreateQos (objID objType vStoreID : string) (params : gmap string Z).

(** Methods returning [([]map[string]interface{}, error)]. *)
Inductive ListReq : Type :=
| GetReplicationPairByResID (resID : string) (resType : Z).

Record Client (W : Type) : Type := {
  askObj : ObjReq -> W -> (error + option Obj) * W;
  askErr : ErrReq -> W -> option error * W;
  askStr : StrReq -> W -> (error + string) * W;
  askList : ListReq -> W -> (error + list Obj) * W
}.
Arguments askObj {W}.
Arguments askErr {W}.
Arguments askStr {W}.
Arguments askList {W}.

(** One entry of the trace: the array addressed and the method called. *)
Inductive Call : Type :=
| OnObj (t : Tgt) (r : ObjReq)
| OnErr (t : Tgt) (r : ErrReq)
| OnStr (t : Tgt) (r : StrReq)
| OnList (t : Tgt) (r : ListReq).

(** The lookups of the contract: the [Get...] methods. *)
Definition isRead (c : Call) : bool :=
  match c with
  | OnObj _ r =>
      match r with
      | GetPoolByName _ | GetLunByName _ | GetLunByID _ | GetLunSnapshotByName _
      | GetClonePairInfo _ | GetLunCopyByName _ | GetLunCopyByID _
      | GetHyperMetroPairByLocalObjID _ | GetHyperMetroPair _
      | GetHyperMetroDomainByName _ | GetRemoteDeviceBySN _ | GetSystem => true
      | _ => false
      end
  | OnErr _ _ => false
  | OnStr _ r => match r with GetApplicationTypeByName _ => true | _ => false end
  | OnList _ _ => true
  end.

(** [type Base struct] (and [SAN], which embeds it). *)
Record SAN (W : Type) : Type := {
  cli : Client W;
  metroRemoteCli : option (Client W);
  replicaRemoteCli : option (Client W);
  product : string
}.
Arguments cli {W}.
Arguments metroRemoteCli {W}.
Arguments replicaRemoteCli {W}.
Arguments product {W}.

(** [utils.Volume] *)
Record VolumeObj : Type := { volName : string; lunWWN : option string }.

(** What [base.go] takes from the rest of the repository and from
    [encoding/json]: the status constants of package [volume], the name
    manglers of [utils], the QoS parser and validator of [smartx] (neither
    is given a client), and the two uses of [json.Unmarshal]. *)
Class Env : Type := {
  hyperMetroPairHealthStatusFault : string;
  hyperMetroPairRunningStatusNormal : string;
  hyperMetroPairRunningStatusToSync : string;
  hyperMetroPairRunningStatusSyncing : string;
  hyperMetroPairRunningStatusUnknown : string;
  hyperMetroPairRunningStatusPause : string;
  hyperMetroPairRunningStatusError : string;
  hyperMetroPairRunningStatusInvalid : string;
  hyperMetroDomainRunningStatusNormal : string;
  lunCopyHealthStatusFault : string;
  lunCopyRunningStatusQueuing : string;
  lunCopyRunningStatusCopying : string;
  lunCopyRunningStatusStop : string;
  lunCopyRunningStatusPaused : string;
  clonePairHealthStatusFault : string;
  clonePairRunningStatusUnsyncing : string;
  clonePairRunningStatusSyncing : string;
  clonePairRunningStatusNormal : string;
  clonePairRunningStatusInitializing : string;
  snapshotRunningStatusActive : string;
  snapshotRunningStatusInactive : string;
  replicationPairRunningStatusNormal : string;
  replicationPairRunningStatusSync : string;
  remoteDeviceHealthStatus : string;
  remoteDeviceRunningStatusLinkUp : string;
  GetLunName : string -> string;
  GetSnapshotName : string -> string;
  QosRaw : Type;
  ExtractQoSParameters : string -> string -> error + QosRaw;
  ValidateQoSParameters : string -> QosRaw -> error + gmap string Z;
  (** [var m map[string]string; json.Unmarshal([]byte(s), &m)] *)
  jsonStringMap : string -> gmap string string;
  (** [var l []string; json.Unmarshal([]byte(s), &l)] *)
  jsonStringList : string -> list string
}.

(** [err.Error()], as [%v] prints an error. *)
Fixpoint errorString (e : error) : string :=
  match e with
  | errorsNew msg => msg
  | TaskFailed step cause => "task " +:+ step +:+ " failed: " +:+ errorString cause
  | Timeout => "wait timeout"
  end.

(** [%v] of an [error] that may be nil. *)
Definition showErr (e : option error) : string :=
  match e with Some e => errorString e | None => "<nil>" end.

(** Indexing a map that may be nil. *)
Definition objOf (o : option Obj) : Obj := default ∅ o.

Section Orchestrator.

Context {W : Type} `{Env}.
Variable p : SAN W.

Local Open Scope go_scope.

Abbreviation Arr := (M W Call).

Definition clientOf (t : Tgt) : option (Client W) :=
  match t with
  | Local => Some (cli p)
  | MetroRemote => metroRemoteCli p
  | ReplicaRemote => replicaRemoteCli p
  end.

(** A method call on a client handle; on a nil handle it panics. *)
Definition callObj (t : Tgt) (r : ObjReq) : Arr (option Obj) :=
  match clientOf t with
  | Some c => liftErr (perform (OnObj t r) (askObj c r))
  | None => panic
  end.

Definition callErr (t : Tgt) (r : ErrReq) : Arr unit :=
  match clientOf t with
  | Some c => liftErr0 (perform (OnErr t r) (askErr c r))
  | None => panic
  end.

Definition callStr (t : Tgt) (r : StrReq) : Arr string :=
  match clientOf t with
  | Some c => liftErr (perform (OnStr t r) (askStr c r))
  | None => panic
  end.

Definition callList (t : Tgt) (r : ListReq) : Arr (list Obj) :=
  match clientOf t with
  | Some c => liftErr (perform (OnList t r) (askList c r))
  | None => panic
  end.

(** *** utils.WaitUntil *)

Fixpoint waitLoop (polls : nat) (f : Arr bool) : Arr unit :=
  match polls with
  | O => throw Timeout
  | S n => done <- f ;; if done then ret tt else waitLoop n f
  end.

(** Modelled from the spec: [utils.WaitUntil] is not among the sources.  It
    polls the predicate every [interval], succeeds when the predicate reports
    done, propagates the predicate's error at once and fails with [Timeout]
    after [budget].  Durations are in seconds and a poll takes no time, so
    the predicate is polled at 0, [interval], ..., up to [budget]. *)
Definition WaitUntil (f : Arr bool) (budget interval : Z) : Arr unit :=
  waitLoop (Z.to_nat (budget / interval) + 1) f.

Definition timeHour : Z := 3600.
Definition timeSecond : Z := 1.

(** *** The task-flow engine *)

Record Task : Type := {
  taskName : string;
  (** the forward action: the parameter map as the action leaves it (Go maps
      are shared, and some actions write to it) and the result delta *)
  taskRun : Map -> Map -> Arr (Map * Map);
  taskWith : option (Map -> Arr unit);
  finish : bool
}.

Record TaskFlow : Type := {
  flowName : string;
  tasks : list Task;
  flowResult : Map
}.

(** Modelled from the spec: package [taskflow] is not among the sources. *)
Definition NewTaskFlow (name : string) : TaskFlow :=
  {| flowName := name; tasks := []; flowResult := ∅ |}.

(** Modelled from the spec: [AddTask(name, forward, revert?)] appends a
    step. *)
Definition AddTask (flow : TaskFlow) (name : string)
  (run : Map -> Map -> Arr (Map * Map)) (revert : option (Map -> Arr unit))
  : TaskFlow :=
  {| flowName := flowName flow;
     tasks := tasks flow ++ [ {| taskName := name; taskRun := run;
                                 taskWith := revert; finish := false |} ];
     flowResult := flowResult flow |}.

Definition markFinished (t : Task) : Task :=
  {| taskName := taskName t; taskRun := taskRun t; taskWith := taskWith t;
     finish := true |}.

Fixpoint runTasks (todo : list Task) (params result : Map)
  : Arr (list Task * Map * Map * option error) :=
  match todo with
  | [] => ret ([], params, result, None)
  | task :: rest =>
      r <- attempt (taskRun task params result) ;;
      match r with
      | inl err => ret (task :: rest, params, result,
                        Some (TaskFailed (taskName task) err))
      | inr (params', delta) =>
          r' <- runTasks rest params' (delta ∪ result) ;;
          let '(rest', params'', result', e) := r' in
          ret (markFinished task :: rest', params'', result', e)
      end
  end.

(** Modelled from the spec: [Run] runs the steps in insertion order, each on
    the parameters and the accumulated result; a delta is merged into the
    accumulator, later writes overwriting earlier ones; the first forward
    error stops the flow, which fails with [TaskFailed{step, cause}].  The
    flow afterwards remembers which steps completed. *)
Definition Run (flow : TaskFlow) (params : Map)
  : Arr (TaskFlow * Map * (error + Map)) :=
  r <- runTasks (tasks flow) params (flowResult flow) ;;
  let '(ts, params', result, e) := r in
  ret ({| flowName := flowName flow; tasks := ts; flowResult := result |},
       params',
       match e with Some err => inl err | None => inr result end).

Fixpoint revertTasks (reversed : list Task) (result : Map) : Arr unit :=
  match reversed with
  | [] => ret tt
  | task :: rest =>
      (if finish task
       then match taskWith task with
            | Some revert => ignore (revert result)
            | None => ret tt
            end
       else ret tt) ;;;
      revertTasks rest result
  end.

(** Modelled from the spec: [Revert] calls the revert of every step that
    completed, in reverse insertion order, on the accumulated result; a nil
    revert is a no-op and a failing revert does not stop the others. *)
Definition Revert (flow : TaskFlow) : Arr unit :=
  revertTasks (rev (tasks flow)) (flowResult flow).

(** A forward action that leaves the parameter map alone; a nil delta is the
    empty map. *)
Definition keeping (f : Map -> Map -> Arr Map) : Map -> Map -> Arr (Map * Map) :=
  fun params taskResult => d <- f params taskResult ;; ret (params, d).

(** *** base.go: [Base] *)

Definition getAllocType (params : Map) : Arr Map :=
  if isStr (params !! "alloctype") "thick"
  then ret (<["alloctype" := VInt 0]> params)
  else ret (<["alloctype" := VInt 1]> params).

Definition getCloneSpeed (params : Map) : Arr Map :=
  let cloneExist := present (asString (params !! "clonefrom")) in
  let srcVolumeExist := present (asString (params !! "sourcevolumename")) in
  let srcSnapshotExist := present (asString (params !! "sourcesnapshotname")) in
  if negb (cloneExist || srcVolumeExist || srcSnapshotExist) then ret params
  else
    match asString (params !! "clonespeed") with
    | Some v =>
        if nonEmpty v then
          let '(speed, err) := Atoi v in
          if present err || (speed <? 1)%Z || (4 <? speed)%Z
          then throw (errorsNew ("error config " +:+ v +:+ " for clonespeed"))
          else ret (<["clonespeed" := VInt speed]> params)
        else ret (<["clonespeed" := VInt 3]> params)
    | None => ret (<["clonespeed" := VInt 3]> params)
    end.

Definition getPoolID (params : Map) : Arr Map :=
  match asString (params !! "storagepool") with
  | Some poolName =>
      if nonEmpty poolName then
        pool <- callObj Local (GetPoolByName poolName) ;;
        match pool with
        | None => throw (errorsNew ("storage pool " +:+ poolName +:+ " doesn't exist"))
        | Some pool =>
            poolID <- must (asString (pool !! "ID")) ;;
            ret (<["poolID" := VStr poolID]> params)
        end
      else throw (errorsNew "must specify storage pool to create volume")
  | None => throw (errorsNew "must specify storage pool to create volume")
  end.

Definition getQoS (params : Map) : Arr Map :=
  match asString (params !! "qos") with
  | Some v =>
      if nonEmpty v then
        match ExtractQoSParameters (product p) v with
        | inl err =>
            throw (errorsNew ("qos parameter " +:+ v +:+ " error: " +:+ errorString err))
        | inr qos =>
            match ValidateQoSParameters (product p) qos with
            | inl err =>
                throw (errorsNew ("validate qos parameters failed, error "
                                  +:+ errorString err))
            | inr validatedQos => ret (<["qos" := VQos validatedQos]> params)
            end
        end
      else ret params
  | None => ret params
  end.

Fixpoint runAnalyzers (analyzers : list (Map -> Arr Map)) (params : Map) : Arr Map :=
  match analyzers with
  | [] => ret params
  | analyzer :: rest => params' <- analyzer params ;; runAnalyzers rest params'
  end.

Definition commonPreCreate (params : Map) : Arr Map :=
  runAnalyzers [getAllocType; getCloneSpeed; getPoolID; getQoS] params.

Definition getRemotePoolID (params : Map) (remoteCli : Tgt) : Arr string :=
  match asString (params !! "remotestoragepool") with
  | Some remotePool =>
      if nonEmpty remotePool then
        pool <- callObj remoteCli (GetPoolByName remotePool) ;;
        match pool with
        | None => throw (errorsNew ("remote storage pool " +:+ remotePool
                                    +:+ " doesn't exist"))
        | Some pool => must (asString (pool !! "ID"))
        end
      else throw (errorsNew "no remote pool is specified")
  | None => throw (errorsNew "no remote pool is specified")
  end.

Definition preExpandCheckCapacity (params taskResult : Map) : Arr Map :=
  localParentName <- must (asString (params !! "localParentName")) ;;
  r <- attempt (callObj Local (GetPoolByName localParentName)) ;;
  match r with
  | inl err => throw (errorsNew ("Get storage pool " +:+ localParentName
                                 +:+ " info error: " +:+ showErr (Some err)))
  | inr None => throw (errorsNew ("Get storage pool " +:+ localParentName
                                  +:+ " info error: " +:+ showErr None))
  | inr (Some _) => ret ∅
  end.

Definition getSnapshotReturnInfo (snapshot : Obj) (snapshotSize : Z) : Arr Map :=
  timestamp <- must (asString (snapshot !! "TIMESTAMP")) ;;
  let snapshotCreated := (ParseInt timestamp).1 in
  let snapshotSizeBytes := mul64 snapshotSize 512 in
  parentID <- must (asString (snapshot !! "PARENTID")) ;;
  ret (<["CreationTime" := VInt64 snapshotCreated]>
       (<["SizeBytes" := VInt64 snapshotSizeBytes]>
        (<["ParentID" := VStr parentID]> ∅))).

Definition createReplicationPair (params taskResult : Map) : Arr Map :=
  resType <- must (asInt (taskResult !! "resType")) ;;
  remoteDeviceID <- must (asString (taskResult !! "remoteDeviceID")) ;;
  ids <- (if (resType =? 11)%Z then
            localID <- must (asString (taskResult !! "localLunID")) ;;
            remoteID <- must (asString (taskResult !! "remoteLunID")) ;;
            ret (localID, remoteID)
          else
            localID <- must (asString (taskResult !! "localFSID")) ;;
            remoteID <- must (asString (taskResult !! "remoteFSID")) ;;
            ret (localID, remoteID)) ;;
  let data : Map :=
    <["LOCALRESID" := VStr ids.1]>
    (<["LOCALRESTYPE" := VInt resType]>
     (<["REMOTEDEVICEID" := VStr remoteDeviceID]>
      (<["REMOTERESID" := VStr ids.2]>
       (<["REPLICATIONMODEL" := VInt 2]>
        (<["SYNCHRONIZETYPE" := VInt 2]>
         (<["SPEED" := VInt 4]> ∅)))))) in
  let data := match params !! "replicationSyncPeriod" with
              | Some replicationSyncPeriod => <["TIMINGVAL" := replicationSyncPeriod]> data
              | None => data
              end in
  let data := match taskResult !! "vStorePairID" with
              | Some vStorePairID => <["VSTOREPAIRID" := vStorePairID]> data
              | None => data
              end in
  pairObj <- callObj Local (CreateReplicationPair data) ;;
  pairID <- must (asString (objOf pairObj !! "ID")) ;;
  r <- attempt (callErr Local (SyncReplicationPair pairID)) ;;
  match r with
  | inl err => ignore (callErr Local (DeleteReplicationPair pairID)) ;;; throw err
  | inr _ => ret ∅
  end.

Definition getRemoteDeviceID (deviceSN : string) : Arr string :=
  remoteDevice <- callObj Local (GetRemoteDeviceBySN deviceSN) ;;
  match remoteDevice with
  | None => throw (errorsNew ("Remote device of SN " +:+ deviceSN +:+ " does not exist"))
  | Some remoteDevice =>
      if negb (isStr (remoteDevice !! "HEALTHSTATUS") remoteDeviceHealthStatus)
         || negb (isStr (remoteDevice !! "RUNNINGSTATUS") remoteDeviceRunningStatusLinkUp)
      then throw (errorsNew ("Remote device " +:+ deviceSN +:+ " status is not normal"))
      else must (asString (remoteDevice !! "ID"))
  end.

Definition getWorkLoadIDByName (cli : Tgt) (workloadTypeName : string) : Arr string :=
  workloadTypeID <- callStr cli (GetApplicationTypeByName workloadTypeName) ;;
  if nonEmpty workloadTypeID then ret workloadTypeID
  else throw (errorsNew ("The workloadType " +:+ workloadTypeName
                         +:+ " does not exist on storage")).

Definition setWorkLoadID (cli : Tgt) (params : Map) : Arr Map :=
  match asString (params !! "applicationtype") with
  | Some val =>
      workloadTypeID <- getWorkLoadIDByName cli val ;;
      ret (<["workloadTypeID" := VStr workloadTypeID]> params)
  | None => ret params
  end.

Definition prepareVolObj (params res : Map) : VolumeObj :=
  let volName := default "" (asString (params !! "name")) in
  {| volName := volName; lunWWN := asString (res !! "lunWWN") |}.

(** *** base.go: [SAN], the array jobs *)

(** The predicate [waitLunCopyFinish] hands to [WaitUntil]. *)
Definition lunCopyFinished (lunCopyName : string) : Arr bool :=
  lunCopy <- callObj Local (GetLunCopyByName lunCopyName) ;;
  match lunCopy with
  | None => ret true
  | Some lunCopy =>
      healthStatus <- must (asString (lunCopy !! "HEALTHSTATUS")) ;;
      if bool_decide (healthStatus = lunCopyHealthStatusFault)
      then throw (errorsNew ("Luncopy " +:+ lunCopyName +:+ " is at fault status"))
      else
        runningStatus <- must (asString (lunCopy !! "RUNNINGSTATUS")) ;;
        if bool_decide (runningStatus = lunCopyRunningStatusQueuing)
           || bool_decide (runningStatus = lunCopyRunningStatusCopying)
        then ret false
        else if bool_decide (runningStatus = lunCopyRunningStatusStop)
                || bool_decide (runningStatus = lunCopyRunningStatusPaused)
        then throw (errorsNew ("Luncopy " +:+ lunCopyName +:+ " is stopped"))
        else ret true
  end.

Definition waitLunCopyFinish (lunCopyName : string) : Arr unit :=
  WaitUntil (lunCopyFinished lunCopyName) (timeHour * 6) (timeSecond * 5).

(** The predicate [waitClonePairFinish] hands to [WaitUntil]. *)
Definition clonePairFinished (clonePairID : string) : Arr bool :=
  clonePair <- callObj Local (GetClonePairInfo clonePairID) ;;
  match clonePair with
  | None => ret true
  | Some clonePair =>
      healthStatus <- must (asString (clonePair !! "copyStatus")) ;;
      if bool_decide (healthStatus = clonePairHealthStatusFault)
      then throw (errorsNew ("ClonePair " +:+ clonePairID +:+ " is at fault status"))
      else
        runningStatus <- must (asString (clonePair !! "syncStatus")) ;;
        if bool_decide (runningStatus = clonePairRunningStatusNormal)
        then ret true
        else if bool_decide (runningStatus = clonePairRunningStatusSyncing)
                || bool_decide (runningStatus = clonePairRunningStatusInitializing)
                || bool_decide (runningStatus = clonePairRunningStatusUnsyncing)
        then ret false
        else throw (errorsNew ("ClonePair " +:+ clonePairID
                               +:+ " running status is abnormal"))
  end.

Definition waitClonePairFinish (clonePairID : string) : Arr unit :=
  WaitUntil (clonePairFinished clonePairID) (timeHour * 6) (timeSecond * 5) ;;;
  ignore (callErr Local (DeleteClonePair clonePairID)).

(** The predicate [waitHyperMetroSyncFinish] hands to [WaitUntil]. *)
Definition hyperMetroSyncFinished (pairID : string) : Arr bool :=
  pairObj <- callObj Local (GetHyperMetroPair pairID) ;;
  match pairObj with
  | None => throw (errorsNew ("Something wrong with hypermetro pair " +:+ pairID))
  | Some pairObj =>
      healthStatus <- must (asString (pairObj !! "HEALTHSTATUS")) ;;
      if bool_decide (healthStatus = hyperMetroPairHealthStatusFault)
      then throw (errorsNew ("Hypermetro pair " +:+ pairID +:+ " is fault"))
      else
        runningStatus <- must (asString (pairObj !! "RUNNINGSTATUS")) ;;
        if bool_decide (runningStatus = hyperMetroPairRunningStatusToSync)
           || bool_decide (runningStatus = hyperMetroPairRunningStatusSyncing)
        then ret false
        else if bool_decide (runningStatus = hyperMetroPairRunningStatusUnknown)
                || bool_decide (runningStatus = hyperMetroPairRunningStatusPause)
                || bool_decide (runningStatus = hyperMetroPairRunningStatusError)
                || bool_decide (runningStatus = hyperMetroPairRunningStatusInvalid)
        then throw (errorsNew ("Hypermetro pair " +:+ pairID
                               +:+ " is at running status " +:+ runningStatus))
        else ret true
  end.

Definition waitHyperMetroSyncFinish (pairID : string) : Arr unit :=
  r <- attempt (WaitUntil (hyperMetroSyncFinished pairID)
                  (timeHour * 6) (timeSecond * 5)) ;;
  match r with
  | inl err => ignore (callErr Local (StopHyperMetroPair pairID)) ;;; throw err
  | inr _ => ret tt
  end.

(** The predicate [waitSnapshotReady] hands to [WaitUntil]. *)
Definition snapshotReady (snapshotName : string) : Arr bool :=
  snapshot <- callObj Local (GetLunSnapshotByName snapshotName) ;;
  match snapshot with
  | None => throw (errorsNew ("Something wrong with snapshot " +:+ snapshotName))
  | Some snapshot =>
      runningStatus <- must (asString (snapshot !! "RUNNINGSTATUS")) ;;
      if bool_decide (runningStatus = snapshotRunningStatusActive)
         || bool_decide (runningStatus = snapshotRunningStatusInactive)
      then ret true
      else ret false
  end.

Definition waitSnapshotReady (snapshotName : string) : Arr unit :=
  WaitUntil (snapshotReady snapshotName) (timeHour * 6) (timeSecond * 5).

(** *** base.go: [SAN], cloning *)

Record clonePairRequest : Type := {
  srcLunID : string;
  dstLunID : string;
  cloneLunCapacity : Z;
  srcLunCapacity : Z;
  cloneSpeed : Z
}.

Definition createClonePair (clonePairReq : clonePairRequest) : Arr unit :=
  clonePair <- callObj Local (CreateClonePair (srcLunID clonePairReq)
                                (dstLunID clonePairReq) (cloneSpeed clonePairReq)) ;;
  clonePairID <- must (asString (objOf clonePair !! "ID")) ;;
  (if (srcLunCapacity clonePairReq <? cloneLunCapacity clonePairReq)%Z then
     r <- attempt (callErr Local (ExtendLun (dstLunID clonePairReq)
                                    (cloneLunCapacity clonePairReq))) ;;
     match r with
     | inl err => ignore (callErr Local (DeleteClonePair clonePairID)) ;;; throw err
     | inr _ => ret tt
     end
   else ret tt) ;;;
  r <- attempt (callErr Local (SyncClonePair clonePairID)) ;;
  match r with
  | inl err => ignore (callErr Local (DeleteClonePair clonePairID)) ;;; throw err
  | inr _ => waitClonePairFinish clonePairID
  end.

(** [strconv.ParseInt(s, 10, 64)] followed by [if err != nil { return nil, err }]. *)
Definition parseOrFail (s : string) : Arr Z :=
  match ParseInt s with
  | (n, None) => ret n
  | (_, Some e) => throw (numError "strconv.ParseInt" s e)
  end.

Definition clonePair (params : Map) : Arr (option Obj) :=
  cloneFrom <- must (asString (params !! "clonefrom")) ;;
  srcLun <- callObj Local (GetLunByName cloneFrom) ;;
  match srcLun with
  | None => throw (errorsNew ("Clone src LUN " +:+ cloneFrom +:+ " does not exist"))
  | Some srcLun =>
      capacity <- must (asString (srcLun !! "CAPACITY")) ;;
      srcLunCapacity <- parseOrFail capacity ;;
      cloneLunCapacity <- must (asInt64 (params !! "capacity")) ;;
      if (cloneLunCapacity <? srcLunCapacity)%Z
      then throw (errorsNew ("Clone LUN capacity must be >= src " +:+ cloneFrom))
      else
        name <- must (asString (params !! "name")) ;;
        dstLun <- callObj Local (GetLunByName name) ;;
        dstLun <- match dstLun with
                  | None =>
                      let copyParams := <["capacity" := VInt64 srcLunCapacity]> params in
                      callObj Local (CreateLun copyParams)
                  | Some _ => ret dstLun
                  end ;;
        srcLunID <- must (asString (srcLun !! "ID")) ;;
        dstLunID <- must (asString (objOf dstLun !! "ID")) ;;
        cloneSpeed <- must (asInt (params !! "clonespeed")) ;;
        r <- attempt (createClonePair
                        {| srcLunID := srcLunID; dstLunID := dstLunID;
                           cloneLunCapacity := cloneLunCapacity;
                           srcLunCapacity := srcLunCapacity;
                           cloneSpeed := cloneSpeed |}) ;;
        match r with
        | inl err => ignore (callErr Local (DeleteLun dstLunID)) ;;; throw err
        | inr _ => ret dstLun
        end
  end.

Definition fromSnapshotByClonePair (params : Map) : Arr (option Obj) :=
  srcSnapshotName <- must (asString (params !! "fromSnapshot")) ;;
  srcSnapshot <- callObj Local (GetLunSnapshotByName srcSnapshotName) ;;
  match srcSnapshot with
  | None => throw (errorsNew ("Clone snapshot " +:+ srcSnapshotName +:+ " does not exist"))
  | Some srcSnapshot =>
      capacity <- must (asString (srcSnapshot !! "USERCAPACITY")) ;;
      srcSnapshotCapacity <- parseOrFail capacity ;;
      cloneLunCapacity <- must (asInt64 (params !! "capacity")) ;;
      if (cloneLunCapacity <? srcSnapshotCapacity)%Z
      then throw (errorsNew ("Clone target LUN capacity must be >= src snapshot "
                             +:+ srcSnapshotName))
      else
        name <- must (asString (params !! "name")) ;;
        dstLun <- callObj Local (GetLunByName name) ;;
        dstLun <- match dstLun with
                  | None =>
                      let copyParams :=
                        <["capacity" := VInt64 srcSnapshotCapacity]> params in
                      callObj Local (CreateLun copyParams)
                  | Some _ => ret dstLun
                  end ;;
        srcSnapshotID <- must (asString (srcSnapshot !! "ID")) ;;
        dstLunID <- must (asString (objOf dstLun !! "ID")) ;;
        cloneSpeed <- must (asInt (params !! "clonespeed")) ;;
        r <- attempt (createClonePair
                        {| srcLunID := srcSnapshotID; dstLunID := dstLunID;
                           cloneLunCapacity := cloneLunCapacity;
                           srcLunCapacity := srcSnapshotCapacity;
                           cloneSpeed := cloneSpeed |}) ;;
        match r with
        | inl err => ignore (callErr Local (DeleteLun dstLunID)) ;;; throw err
        | inr _ => ret dstLun
        end
  end.

Definition createLunCopy (snapshotID dstLunID : string) (cloneSpeed : Z)
  (isDeleteSnapshot : bool) : Arr string :=
  let lunCopyName := "k8s_luncopy_" +:+ snapshotID +:+ "_to_" +:+ dstLunID in
  lunCopy <- callObj Local (GetLunCopyByName lunCopyName) ;;
  lunCopy <- match lunCopy with
             | None => callObj Local (CreateLunCopy lunCopyName snapshotID dstLunID
                                        cloneSpeed)
             | Some _ => ret lunCopy
             end ;;
  lunCopyID <- must (asString (objOf lunCopy !! "ID")) ;;
  r <- attempt (callErr Local (StartLunCopy lunCopyID)) ;;
  match r with
  | inl err => ignore (callErr Local (DeleteLunCopy lunCopyID)) ;;; throw err
  | inr _ => ret lunCopyName
  end.

Definition deleteLunCopy (lunCopyName : string) (isDeleteSnapshot : bool) : Arr unit :=
  lunCopy <- callObj Local (GetLunCopyByName lunCopyName) ;;
  match lunCopy with
  | None => ret tt
  | Some lunCopy =>
      lunCopyID <- must (asString (lunCopy !! "ID")) ;;
      runningStatus <- must (asString (lunCopy !! "RUNNINGSTATUS")) ;;
      (if bool_decide (runningStatus = lunCopyRunningStatusQueuing)
          || bool_decide (runningStatus = lunCopyRunningStatusCopying)
       then ignore (callErr Local (StopLunCopy lunCopyID))
       else ret tt) ;;;
      callErr Local (DeleteLunCopy lunCopyID) ;;;
      snapshotName <- must (asString (lunCopy !! "SOURCELUNNAME")) ;;
      r <- attempt (callObj Local (GetLunSnapshotByName snapshotName)) ;;
      match r with
      | inr (Some snapshot) =>
          if isDeleteSnapshot then
            snapshotID <- must (asString (snapshot !! "ID")) ;;
            ignore (callErr Local (SmartXDeleteLunSnapshot snapshotID))
          else ret tt
      | _ => ret tt
      end
  end.

Definition ensureLUNCopy (snapshotID dstLunID : string) (cloneSpeed : Z) : Arr string :=
  r <- attempt (createLunCopy snapshotID dstLunID cloneSpeed true) ;;
  match r with
  | inl err =>
      ignore (callErr Local (SmartXDeleteLunSnapshot snapshotID)) ;;;
      ignore (callErr Local (DeleteLun dstLunID)) ;;;
      throw err
  | inr lunCopyName =>
      waitLunCopyFinish lunCopyName ;;;
      ret lunCopyName
  end.

Definition lunCopy (params : Map) : Arr (option Obj) :=
  clonefrom <- must (asString (params !! "clonefrom")) ;;
  srcLun <- callObj Local (GetLunByName clonefrom) ;;
  match srcLun with
  | None => throw (errorsNew ("Clone src LUN " +:+ clonefrom +:+ " does not exist"))
  | Some srcLun =>
      capacity <- must (asString (srcLun !! "CAPACITY")) ;;
      srcLunCapacity <- parseOrFail capacity ;;
      cloneLunCapacity <- must (asInt64 (params !! "capacity")) ;;
      if (cloneLunCapacity <? srcLunCapacity)%Z
      then throw (errorsNew ("Clone LUN capacity must be >= src " +:+ clonefrom))
      else
        name <- must (asString (params !! "name")) ;;
        dstLun <- callObj Local (GetLunByName name) ;;
        dstLun <- match dstLun with
                  | None => callObj Local (CreateLun params)
                  | Some _ => ret dstLun
                  end ;;
        srcLunID <- must (asString (srcLun !! "ID")) ;;
        dstLunID <- must (asString (objOf dstLun !! "ID")) ;;
        let snapshotName := "k8s_lun_" +:+ srcLunID +:+ "_to_" +:+ dstLunID +:+ "_snap" in
        snapshot <- callObj Local (GetLunSnapshotByName snapshotName) ;;
        snapshot <- match snapshot with
                    | None =>
                        r <- attempt (callObj Local
                                        (SmartXCreateLunSnapshot snapshotName srcLunID)) ;;
                        match r with
                        | inl err =>
                            ignore (callErr Local (DeleteLun dstLunID)) ;;; throw err
                        | inr snapshot => ret snapshot
                        end
                    | Some _ => ret snapshot
                    end ;;
        snapshotID <- must (asString (objOf snapshot !! "ID")) ;;
        cloneSpeed <- must (asInt (params !! "clonespeed")) ;;
        lunCopyName <- ensureLUNCopy snapshotID dstLunID cloneSpeed ;;
        deleteLunCopy lunCopyName true ;;;
        ret dstLun
  end.

Definition fromSnapshotByLunCopy (params : Map) : Arr (option Obj) :=
  srcSnapshotName <- must (asString (params !! "fromSnapshot")) ;;
  srcSnapshot <- callObj Local (GetLunSnapshotByName srcSnapshotName) ;;
  match srcSnapshot with
  | None => throw (errorsNew ("Clone src snapshot " +:+ srcSnapshotName
                              +:+ " does not exist"))
  | Some srcSnapshot =>
      capacity <- must (asString (srcSnapshot !! "USERCAPACITY")) ;;
      srcSnapshotCapacity <- parseOrFail capacity ;;
      cloneLunCapacity <- must (asInt64 (params !! "capacity")) ;;
      if (cloneLunCapacity <? srcSnapshotCapacity)%Z
      then throw (errorsNew ("Clone LUN capacity must be >= src snapshot"
                             +:+ srcSnapshotName))
      else
        name <- must (asString (params !! "name")) ;;
        dstLun <- callObj Local (GetLunByName name) ;;
        dstLun <- match dstLun with
                  | None => callObj Local (CreateLun params)
                  | Some _ => ret dstLun
                  end ;;
        dstLunID <- must (asString (objOf dstLun !! "ID")) ;;
        srcSnapshotID <- must (asString (srcSnapshot !! "ID")) ;;
        cloneSpeed <- must (asInt (params !! "clonespeed")) ;;
        r <- attempt (createLunCopy srcSnapshotID dstLunID cloneSpeed false) ;;
        match r with
        | inl err => ignore (callErr Local (DeleteLun dstLunID)) ;;; throw err
        | inr lunCopyName =>
            waitLunCopyFinish lunCopyName ;;;
            deleteLunCopy lunCopyName false ;;;
            ret dstLun
        end
  end.

Definition clone (params taskResult : Map) : Arr (option Obj) :=
  if bool_decide (product p = "DoradoV6") then clonePair params else lunCopy params.

Definition createFromSnapshot (params taskResult : Map) : Arr (option Obj) :=
  if bool_decide (product p = "DoradoV6")
  then fromSnapshotByClonePair params
  else fromSnapshotByLunCopy params.

Definition getLunCopyOfLunID (lunID : string) : Arr string :=
  lun <- callObj Local (GetLunByID lunID) ;;
  match asString (objOf lun !! "LUNCOPYIDS") with
  | Some lunCopyIDStr =>
      if nonEmpty lunCopyIDStr then
        match jsonStringList lunCopyIDStr with
        | [] => ret ""
        | lunCopyID :: _ =>
            lunCopy <- callObj Local (GetLunCopyByID lunCopyID) ;;
            must (asString (objOf lunCopy !! "NAME"))
        end
      else ret ""
  | None => ret ""
  end.

Definition waitCloneFinish (lun taskResult : Map) : Arr unit :=
  lunID <- must (asString (lun !! "ID")) ;;
  if bool_decide (product p = "DoradoV6") then
    (* ID of clone pair is the same as destination LUN ID *)
    waitClonePairFinish lunID
  else
    lunCopyName <- getLunCopyOfLunID lunID ;;
    if (0 <? String.length lunCopyName)%nat
    then waitLunCopyFinish lunCopyName
    else ret tt.

(** *** base.go: [SAN], the steps of Create *)

Definition createLocalLun (params taskResult : Map) : Arr (Map * Map) :=
  lunName <- must (asString (params !! "name")) ;;
  lun <- callObj Local (GetLunByName lunName) ;;
  r <- match lun with
       | None =>
           poolID <- must (asString (params !! "poolID")) ;;
           let params := <["parentid" := VStr poolID]> params in
           lun <- (if present (params !! "clonefrom") then clone params taskResult
                   else if present (params !! "fromSnapshot")
                        then createFromSnapshot params taskResult
                        else callObj Local (CreateLun params)) ;;
           ret (params, lun)
       | Some l =>
           waitCloneFinish l taskResult ;;;
           ret (params, lun)
       end ;;
  let '(params, lun) := r in
  localLunID <- must (asString (objOf lun !! "ID")) ;;
  lunWWN <- must (asString (objOf lun !! "WWN")) ;;
  ret (params, <["localLunID" := VStr localLunID]> (<["lunWWN" := VStr lunWWN]> ∅)).

Definition revertLocalLun (taskResult : Map) : Arr unit :=
  match asString (taskResult !! "localLunID") with
  | Some lunID => if nonEmpty lunID then callErr Local (DeleteLun lunID) else ret tt
  | None => ret tt
  end.

Definition createLocalQoS (params taskResult : Map) : Arr Map :=
  match asQos (params !! "qos") with
  | None => ret ∅
  | Some qos =>
      lunID <- must (asString (taskResult !! "localLunID")) ;;
      lun <- callObj Local (GetLunByID lunID) ;;
      let qosID := default "" (asString (objOf lun !! "IOCLASSID")) in
      qosID <- (if nonEmpty qosID then ret qosID
                else callStr Local (SmartXCreateQos lunID "lun" "" qos)) ;;
      ret (<["localQosID" := VStr qosID]> ∅)
  end.

Definition revertLocalQoS (taskResult : Map) : Arr unit :=
  match asString (taskResult !! "localLunID"), asString (taskResult !! "localQosID") with
  | Some lunID, Some qosID => callErr Local (SmartXDeleteQos qosID lunID "lun" "")
  | _, _ => ret tt
  end.

Definition createRemoteLun (params taskResult : Map) : Arr (Map * Map) :=
  lunName <- must (asString (params !! "name")) ;;
  remoteCli <- must (asCli (taskResult !! "remoteCli")) ;;
  lun <- callObj remoteCli (GetLunByName lunName) ;;
  r <- match lun with
       | None =>
           params <- setWorkLoadID remoteCli params ;;
           remotePoolID <- must (asString (taskResult !! "remotePoolID")) ;;
           let params := <["parentid" := VStr remotePoolID]> params in
           lun <- callObj remoteCli (CreateLun params) ;;
           ret (params, lun)
       | Some _ => ret (params, lun)
       end ;;
  let '(params, lun) := r in
  remoteLunID <- must (asString (objOf lun !! "ID")) ;;
  ret (params, <["remoteLunID" := VStr remoteLunID]> ∅).

Definition revertRemoteLun (taskResult : Map) : Arr unit :=
  match asString (taskResult !! "remoteLunID") with
  | None => ret tt
  | Some lunID =>
      remoteCli <- must (asCli (taskResult !! "remoteCli")) ;;
      callErr remoteCli (DeleteLun lunID)
  end.

Definition createRemoteQoS (params taskResult : Map) : Arr Map :=
  match asQos (params !! "qos") with
  | None => ret ∅
  | Some qos =>
      lunID <- must (asString (taskResult !! "remoteLunID")) ;;
      remoteCli <- must (asCli (taskResult !! "remoteCli")) ;;
      lun <- callObj remoteCli (GetLunByID lunID) ;;
      let qosID := default "" (asString (objOf lun !! "IOCLASSID")) in
      qosID <- (if nonEmpty qosID then ret qosID
                else callStr remoteCli (SmartXCreateQos lunID "lun" "" qos)) ;;
      ret (<["remoteQosID" := VStr qosID]> ∅)
  end.

Definition revertRemoteQoS (taskResult : Map) : Arr unit :=
  match asString (taskResult !! "remoteLunID"), asString (taskResult !! "remoteQosID") with
  | Some lunID, Some qosID =>
      remoteCli <- must (asCli (taskResult !! "remoteCli")) ;;
      callErr remoteCli (SmartXDeleteQos qosID lunID "lun" "")
  | _, _ => ret tt
  end.

Definition createHyperMetro (params taskResult : Map) : Arr Map :=
  domainID <- must (asString (taskResult !! "metroDomainID")) ;;
  localLunID <- must (asString (taskResult !! "localLunID")) ;;
  remoteLunID <- must (asString (taskResult !! "remoteLunID")) ;;
  pairObj <- callObj Local (GetHyperMetroPairByLocalObjID localLunID) ;;
  pairID <- match pairObj with
            | None =>
                let needFirstSync1 := present (params !! "clonefrom") in
                let needFirstSync2 := present (params !! "fromSnapshot") in
                let needFirstSync := needFirstSync1 || needFirstSync2 in
                let data : Map :=
                  <["DOMAINID" := VStr domainID]>
                  (<["HCRESOURCETYPE" := VInt 1]>
                   (<["ISFIRSTSYNC" := VBool needFirstSync]>
                    (<["LOCALOBJID" := VStr localLunID]>
                     (<["REMOTEOBJID" := VStr remoteLunID]>
                      (<["SPEED" := VInt 4]> ∅))))) in
                created <- callObj Local (CreateHyperMetroPair data) ;;
                pairID <- must (asString (objOf created !! "ID")) ;;
                (if needFirstSync then
                   r <- attempt (callErr Local (SyncHyperMetroPair pairID)) ;;
                   match r with
                   | inl err =>
                       ignore (callErr Local (DeleteHyperMetroPair pairID true)) ;;;
                       throw err
                   | inr _ => ret tt
                   end
                 else ret tt) ;;;
                ret pairID
            | Some existing => must (asString (existing !! "ID"))
            end ;;
  r <- attempt (waitHyperMetroSyncFinish pairID) ;;
  match r with
  | inl err => ignore (callErr Local (DeleteHyperMetroPair pairID true)) ;;; throw err
  | inr _ => ret (<["hyperMetroPairID" := VStr pairID]> ∅)
  end.

Definition revertHyperMetro (taskResult : Map) : Arr unit :=
  match asString (taskResult !! "hyperMetroPairID") with
  | None => ret tt
  | Some hyperMetroPairID =>
      ignore (callErr Local (StopHyperMetroPair hyperMetroPairID)) ;;;
      callErr Local (DeleteHyperMetroPair hyperMetroPairID true)
  end.

Definition getHyperMetroParams (params taskResult : Map) : Arr Map :=
  match asString (params !! "metrodomain") with
  | Some metroDomain =>
      if (0 <? String.length metroDomain)%nat then
        if present (metroRemoteCli p) then
          remotePoolID <- getRemotePoolID params MetroRemote ;;
          r <- attempt (callObj MetroRemote (GetHyperMetroDomainByName metroDomain)) ;;
          match r with
          | inr (Some domain) =>
              status <- must (asString (domain !! "RUNNINGSTATUS")) ;;
              if negb (bool_decide (status = hyperMetroDomainRunningStatusNormal))
              then throw (errorsNew ("Hypermetro domain " +:+ metroDomain
                                     +:+ " status is not normal"))
              else
                domainID <- must (asString (domain !! "ID")) ;;
                ret (<["remotePoolID" := VStr remotePoolID]>
                     (<["remoteCli" := VCli MetroRemote]>
                      (<["metroDomainID" := VStr domainID]> ∅)))
          | _ => throw (errorsNew ("Cannot get hypermetro domain " +:+ metroDomain
                                   +:+ " ID"))
          end
        else throw (errorsNew "remote client for hypermetro is nil")
      else throw (errorsNew "No hypermetro domain is specified for metro volume")
  | None => throw (errorsNew "No hypermetro domain is specified for metro volume")
  end.

Definition getReplicationParams (params taskResult : Map) : Arr Map :=
  if present (replicaRemoteCli p) then
    remotePoolID <- getRemotePoolID params ReplicaRemote ;;
    remoteSystem <- callObj ReplicaRemote GetSystem ;;
    sn <- must (asString (objOf remoteSystem !! "ID")) ;;
    remoteDeviceID <- getRemoteDeviceID sn ;;
    ret (<["remotePoolID" := VStr remotePoolID]>
         (<["remoteCli" := VCli ReplicaRemote]>
          (<["remoteDeviceID" := VStr remoteDeviceID]>
           (<["resType" := VInt 11]> ∅))))
  else throw (errorsNew "remote client for replication is nil").

(** *** base.go: [SAN.Create] *)

Definition preCreate (params : Map) : Arr Map :=
  params <- commonPreCreate params ;;
  name <- must (asString (params !! "name")) ;;
  let params := <["name" := VStr (GetLunName name)]> params in
  let params :=
    match asString (params !! "sourcevolumename") with
    | Some v => <["clonefrom" := VStr (GetLunName v)]> params
    | None =>
        match asString (params !! "sourcesnapshotname") with
        | Some v => <["fromSnapshot" := VStr (GetSnapshotName v)]> params
        | None =>
            match asString (params !! "clonefrom") with
            | Some v => <["clonefrom" := VStr (GetLunName v)]> params
            | None => params
            end
        end
    end in
  setWorkLoadID Local params.

Definition mirrorConflictMsg : string :=
  "cannot create replication and hypermetro for a volume at the same time".

Definition Create (params : Map) : Arr VolumeObj :=
  params <- preCreate params ;;
  let taskflow := NewTaskFlow "Create-LUN-Volume" in
  (* [v, ok := params[k].(bool)] followed by [ok && v] *)
  let replication := default false (asBool (params !! "replication")) in
  let hyperMetro := default false (asBool (params !! "hypermetro")) in
  if replication && hyperMetro then throw (errorsNew mirrorConflictMsg)
  else
    let taskflow :=
      if replication
      then AddTask taskflow "Get-Replication-Params" (keeping getReplicationParams) None
      else if hyperMetro
           then AddTask taskflow "Get-HyperMetro-Params" (keeping getHyperMetroParams) None
           else taskflow in
    let taskflow :=
      AddTask taskflow "Create-Local-LUN" createLocalLun (Some revertLocalLun) in
    let taskflow :=
      AddTask taskflow "Create-Local-QoS" (keeping createLocalQoS) (Some revertLocalQoS) in
    let taskflow :=
      if replication then
        let taskflow :=
          AddTask taskflow "Create-Remote-LUN" createRemoteLun (Some revertRemoteLun) in
        let taskflow :=
          AddTask taskflow "Create-Remote-QoS" (keeping createRemoteQoS)
            (Some revertRemoteQoS) in
        AddTask taskflow "Create-Replication-Pair" (keeping createReplicationPair) None
      else if hyperMetro then
        let taskflow :=
          AddTask taskflow "Create-Remote-LUN" createRemoteLun (Some revertRemoteLun) in
        let taskflow :=
          AddTask taskflow "Create-Remote-QoS" (keeping createRemoteQoS)
            (Some revertRemoteQoS) in
        AddTask taskflow "Create-HyperMetro" (keeping createHyperMetro)
          (Some revertHyperMetro)
      else taskflow in
    r <- Run taskflow params ;;
    let '(taskflow, params, res) := r in
    match res with
    | inl err => Revert taskflow ;;; throw err
    | inr res => ret (prepareVolObj params res)
    end.

(** *** base.go: [SAN.Delete] and its steps *)

Definition deleteLun (name : string) (cli : Tgt) : Arr unit :=
  lun <- callObj cli (GetLunByName name) ;;
  match lun with
  | None => ret tt
  | Some lun =>
      lunID <- must (asString (lun !! "ID")) ;;
      let qosID := default "" (asString (lun !! "IOCLASSID")) in
      (if nonEmpty qosID
       then callErr cli (SmartXDeleteQos qosID lunID "lun" "")
       else ret tt) ;;;
      callErr cli (DeleteLun lunID)
  end.

Definition deleteLocalLunCopy (params taskResult : Map) : Arr Map :=
  lunID <- must (asString (params !! "lunID")) ;;
  lunCopyName <- getLunCopyOfLunID lunID ;;
  (if nonEmpty lunCopyName then deleteLunCopy lunCopyName true else ret tt) ;;;
  ret ∅.

Definition deleteLocalHyperCopy (params taskResult : Map) : Arr Map :=
  lunID <- must (asString (params !! "lunID")) ;;
  (* ID of clone pair is the same as destination LUN ID *)
  clonePair <- callObj Local (GetClonePairInfo lunID) ;;
  match clonePair with
  | None => ret ∅
  | Some clonePair =>
      clonePairID <- must (asString (clonePair !! "ID")) ;;
      callErr Local (DeleteClonePair clonePairID) ;;;
      ret ∅
  end.

Definition deleteLocalLun (params taskResult : Map) : Arr Map :=
  lunName <- must (asString (params !! "lunName")) ;;
  deleteLun lunName Local ;;;
  ret ∅.

Definition deleteHyperMetroRemoteLun (params taskResult : Map) : Arr Map :=
  if present (metroRemoteCli p) then
    lunName <- must (asString (params !! "lunName")) ;;
    deleteLun lunName MetroRemote ;;;
    ret ∅
  else ret ∅.

Definition deleteHyperMetro (params taskResult : Map) : Arr Map :=
  lunID <- must (asString (params !! "lunID")) ;;
  pairObj <- callObj Local (GetHyperMetroPairByLocalObjID lunID) ;;
  match pairObj with
  | None => ret ∅
  | Some pairObj =>
      pairID <- must (asString (pairObj !! "ID")) ;;
      status <- must (asString (pairObj !! "RUNNINGSTATUS")) ;;
      (if bool_decide (status = hyperMetroPairRunningStatusNormal)
          || bool_decide (status = hyperMetroPairRunningStatusToSync)
          || bool_decide (status = hyperMetroPairRunningStatusSyncing)
       then ignore (callErr Local (StopHyperMetroPair pairID))
       else ret tt) ;;;
      callErr Local (DeleteHyperMetroPair pairID true) ;;;
      ret ∅
  end.

Fixpoint deleteReplicationPairs (pairs : list Obj) : Arr unit :=
  match pairs with
  | [] => ret tt
  | pairObj :: rest =>
      pairID <- must (asString (pairObj !! "ID")) ;;
      runningStatus <- must (asString (pairObj !! "RUNNINGSTATUS")) ;;
      (if bool_decide (runningStatus = replicationPairRunningStatusNormal)
          || bool_decide (runningStatus = replicationPairRunningStatusSync)
       then ignore (callErr Local (SplitReplicationPair pairID))
       else ret tt) ;;;
      callErr Local (DeleteReplicationPair pairID) ;;;
      deleteReplicationPairs rest
  end.

Definition deleteReplicationPair (params taskResult : Map) : Arr Map :=
  lunID <- must (asString (params !! "lunID")) ;;
  pairs <- callList Local (GetReplicationPairByResID lunID 11) ;;
  deleteReplicationPairs pairs ;;;
  ret ∅.

Definition deleteReplicationRemoteLun (params taskResult : Map) : Arr Map :=
  if present (replicaRemoteCli p) then
    lunName <- must (asString (params !! "lunName")) ;;
    deleteLun lunName ReplicaRemote ;;;
    ret ∅
  else ret ∅.

(** [rss[k] == "TRUE"] *)
Definition rssFlag (rss : gmap string string) (k : string) : bool :=
  bool_decide (rss !! k = Some "TRUE").

Definition Delete (name : string) : Arr unit :=
  let lunName := GetLunName name in
  lun <- callObj Local (GetLunByName lunName) ;;
  match lun with
  | None => ret tt
  | Some lun =>
      rssStr <- must (asString (lun !! "HASRSSOBJECT")) ;;
      let rss := jsonStringMap rssStr in
      let taskflow := NewTaskFlow "Delete-LUN-Volume" in
      let taskflow :=
        if rssFlag rss "HyperMetro" then
          let taskflow :=
            AddTask taskflow "Delete-HyperMetro" (keeping deleteHyperMetro) None in
          AddTask taskflow "Delete-HyperMetro-Remote-LUN"
            (keeping deleteHyperMetroRemoteLun) None
        else taskflow in
      let taskflow :=
        if rssFlag rss "RemoteReplication" then
          let taskflow :=
            AddTask taskflow "Delete-Replication-Pair" (keeping deleteReplicationPair)
              None in
          AddTask taskflow "Delete-Replication-Remote-LUN"
            (keeping deleteReplicationRemoteLun) None
        else taskflow in
      let taskflow :=
        if rssFlag rss "LunCopy"
        then AddTask taskflow "Delete-Local-LunCopy" (keeping deleteLocalLunCopy) None
        else taskflow in
      let taskflow :=
        if rssFlag rss "HyperCopy"
        then AddTask taskflow "Delete-Local-HyperCopy" (keeping deleteLocalHyperCopy) None
        else taskflow in
      let taskflow :=
        AddTask taskflow "Delete-Local-LUN" (keeping deleteLocalLun) None in
      lunID <- must (asString (lun !! "ID")) ;;
      let params : Map :=
        <["lun" := VObj lun]> (<["lunID" := VStr lunID]>
                               (<["lunName" := VStr lunName]> ∅)) in
      r <- Run taskflow params ;;
      match r.2 with
      | inl err => throw err
      | inr _ => ret tt
      end
  end.

(** *** base.go: [SAN.Expand] and its steps *)

Definition preExpandCheckRemoteCapacity (params : Map) (cli : Tgt) : Arr string :=
  (* check the remote pool *)
  name <- must (asString (params !! "name")) ;;
  let remoteLunName := GetLunName name in
  remoteLun <- callObj cli (GetLunByName remoteLunName) ;;
  match remoteLun with
  | None => throw (errorsNew ("remote lun " +:+ remoteLunName
                              +:+ " to extend does not exist"))
  | Some remoteLun =>
      newSize <- must (asInt64 (params !! "size")) ;;
      capacity <- must (asString (remoteLun !! "CAPACITY")) ;;
      curSize <- parseOrFail capacity ;;
      if (newSize <? curSize)%Z
      then throw (errorsNew ("Remote Lun " +:+ remoteLunName +:+ " newSize "
                             +:+ pretty newSize +:+ " must be greater than curSize "
                             +:+ pretty curSize))
      else must (asString (remoteLun !! "ID"))
  end.

Definition preExpandHyperMetroCheckRemoteCapacity (params taskResult : Map) : Arr Map :=
  remoteLunID <- preExpandCheckRemoteCapacity params MetroRemote ;;
  ret (<["remoteLunID" := VStr remoteLunID]> ∅).

Definition preExpandReplicationCheckRemoteCapacity (params taskResult : Map)
  : Arr Map :=
  remoteLunID <- preExpandCheckRemoteCapacity params ReplicaRemote ;;
  ret (<["remoteLunID" := VStr remoteLunID]> ∅).

Definition suspendHyperMetro (params taskResult : Map) : Arr Map :=
  lunID <- must (asString (params !! "lunID")) ;;
  pairObj <- callObj Local (GetHyperMetroPairByLocalObjID lunID) ;;
  match pairObj with
  | None => ret ∅
  | Some pairObj =>
      pairID <- must (asString (pairObj !! "ID")) ;;
      status <- must (asString (pairObj !! "RUNNINGSTATUS")) ;;
      (if bool_decide (status = hyperMetroPairRunningStatusNormal)
          || bool_decide (status = hyperMetroPairRunningStatusToSync)
          || bool_decide (status = hyperMetroPairRunningStatusSyncing)
       then callErr Local (StopHyperMetroPair pairID)
       else ret tt) ;;;
      ret (<["hyperMetroPairID" := VStr pairID]> ∅)
  end.

Definition expandHyperMetroRemoteLun (params taskResult : Map) : Arr Map :=
  remoteLunID <- must (asString (taskResult !! "remoteLunID")) ;;
  newSize <- must (asInt64 (params !! "size")) ;;
  callErr MetroRemote (ExtendLun remoteLunID newSize) ;;;
  ret ∅.

Definition syncHyperMetro (params taskResult : Map) : Arr Map :=
  pairID <- must (asString (taskResult !! "hyperMetroPairID")) ;;
  if nonEmpty pairID then
    callErr Local (SyncHyperMetroPair pairID) ;;;
    ret ∅
  else ret ∅.

Definition expandLocalLun (params taskResult : Map) : Arr Map :=
  lunID <- must (asString (params !! "lunID")) ;;
  newSize <- must (asInt64 (params !! "size")) ;;
  callErr Local (ExtendLun lunID newSize) ;;;
  ret ∅.

Fixpoint splitReplicationPairs (pairs : list Obj) (replicationPairIDs : list string)
  : Arr (list string) :=
  match pairs with
  | [] => ret replicationPairIDs
  | pairObj :: rest =>
      pairID <- must (asString (pairObj !! "ID")) ;;
      runningStatus <- must (asString (pairObj !! "RUNNINGSTATUS")) ;;
      if negb (bool_decide (runningStatus = replicationPairRunningStatusNormal))
         && negb (bool_decide (runningStatus = replicationPairRunningStatusSync))
      then splitReplicationPairs rest replicationPairIDs
      else
        callErr Local (SplitReplicationPair pairID) ;;;
        splitReplicationPairs rest (replicationPairIDs ++ [pairID])
  end.

Definition splitReplication (params taskResult : Map) : Arr Map :=
  lunID <- must (asString (params !! "lunID")) ;;
  pairs <- callList Local (GetReplicationPairByResID lunID 11) ;;
  match pairs with
  | [] => ret ∅
  | _ =>
      replicationPairIDs <- splitReplicationPairs pairs [] ;;
      ret (<["replicationPairIDs" := VStrs replicationPairIDs]> ∅)
  end.

Definition expandReplicationRemoteLun (params taskResult : Map) : Arr Map :=
  remoteLunID <- must (asString (taskResult !! "remoteLunID")) ;;
  newSize <- must (asInt64 (params !! "size")) ;;
  callErr ReplicaRemote (ExtendLun remoteLunID newSize) ;;;
  ret ∅.

Fixpoint syncReplicationPairs (replicationPairIDs : list string) : Arr unit :=
  match replicationPairIDs with
  | [] => ret tt
  | pairID :: rest =>
      callErr Local (SyncReplicationPair pairID) ;;;
      syncReplicationPairs rest
  end.

Definition syncReplication (params taskResult : Map) : Arr Map :=
  replicationPairIDs <- must (asStrs (taskResult !! "replicationPairIDs")) ;;
  syncReplicationPairs replicationPairIDs ;;;
  ret ∅.

Definition expandTooSmallMsg (lunName : string) (newSize curSize : Z) : string :=
  "Lun " +:+ lunName +:+ " newSize " +:+ pretty newSize
  +:+ " must be greater than curSize " +:+ pretty curSize.

(** [Expand] returns [(bool, error)], and on its last line both at once. *)
Definition Expand (name : string) (newSize : Z) : Arr (bool * option error) :=
  let lunName := GetLunName name in
  r <- attempt (callObj Local (GetLunByName lunName)) ;;
  match r with
  | inl err => ret (false, Some err)
  | inr None =>
      ret (false, Some (errorsNew ("Lun " +:+ lunName +:+ " to expand does not exist")))
  | inr (Some lun) =>
      let isAttached := isStr (lun !! "EXPOSEDTOINITIATOR") "true" in
      capacity <- must (asString (lun !! "CAPACITY")) ;;
      let curSize := (ParseInt capacity).1 in
      if (newSize <=? curSize)%Z
      then ret (false, Some (errorsNew (expandTooSmallMsg lunName newSize curSize)))
      else
        rssStr <- must (asString (lun !! "HASRSSOBJECT")) ;;
        let rss := jsonStringMap rssStr in
        let expandTask := NewTaskFlow "Expand-LUN-Volume" in
        let expandTask :=
          AddTask expandTask "Expand-PreCheck-Capacity" (keeping preExpandCheckCapacity)
            None in
        let expandTask :=
          if rssFlag rss "HyperMetro" then
            let expandTask :=
              AddTask expandTask "Expand-HyperMetro-Remote-PreCheck-Capacity"
                (keeping preExpandHyperMetroCheckRemoteCapacity) None in
            let expandTask :=
              AddTask expandTask "Suspend-HyperMetro" (keeping suspendHyperMetro) None in
            AddTask expandTask "Expand-HyperMetro-Remote-LUN"
              (keeping expandHyperMetroRemoteLun) None
          else expandTask in
        let expandTask :=
          if rssFlag rss "RemoteReplication" then
            let expandTask :=
              AddTask expandTask "Expand-Replication-Remote-PreCheck-Capacity"
                (keeping preExpandReplicationCheckRemoteCapacity) None in
            let expandTask :=
              AddTask expandTask "Split-Replication" (keeping splitReplication) None in
            AddTask expandTask "Expand-Replication-Remote-LUN"
              (keeping expandReplicationRemoteLun) None
          else expandTask in
        let expandTask :=
          AddTask expandTask "Expand-Local-Lun" (keeping expandLocalLun) None in
        let expandTask :=
          if rssFlag rss "HyperMetro"
          then AddTask expandTask "Sync-HyperMetro" (keeping syncHyperMetro) None
          else expandTask in
        let expandTask :=
          if rssFlag rss "RemoteReplication"
          then AddTask expandTask "Sync-Replication" (keeping syncReplication) None
          else expandTask in
        lunID <- must (asString (lun !! "ID")) ;;
        localParentName <- must (asString (lun !! "PARENTNAME")) ;;
        let params : Map :=
          <["name" := VStr name]>
          (<["size" := VInt64 newSize]>
           (<["expandSize" := VInt64 (sub64 newSize curSize)]>
            (<["lunID" := VStr lunID]>
             (<["localParentName" := VStr localParentName]> ∅)))) in
        r <- Run expandTask params ;;
        ret (isAttached, match r.2 with inl err => Some err | inr _ => None end)
  end.

(** *** base.go: snapshots *)

Definition createSnapshot (params taskResult : Map) : Arr Map :=
  lunID <- must (asString (params !! "lunID")) ;;
  snapshotName <- must (asString (params !! "snapshotName")) ;;
  snapshot <- callObj Local (CreateLunSnapshot snapshotName lunID) ;;
  waitSnapshotReady snapshotName ;;;
  snapshotId <- must (asString (objOf snapshot !! "ID")) ;;
  snapshotSize <- must (asString (objOf snapshot !! "USERCAPACITY")) ;;
  ret (<["snapshotId" := VStr snapshotId]> (<["snapshotSize" := VStr snapshotSize]> ∅)).

Definition revertSnapshot (taskResult : Map) : Arr unit :=
  snapshotID <- must (asString (taskResult !! "snapshotId")) ;;
  callErr Local (DeleteLunSnapshot snapshotID).

Definition activateSnapshot (params taskResult : Map) : Arr Map :=
  snapshotID <- must (asString (taskResult !! "snapshotId")) ;;
  callErr Local (ActivateLunSnapshot snapshotID) ;;;
  ret ∅.

Definition deleteSnapshot (params taskResult : Map) : Arr Map :=
  snapshotID <- must (asString (params !! "snapshotId")) ;;
  callErr Local (DeleteLunSnapshot snapshotID) ;;;
  ret ∅.

Definition deactivateSnapshot (params taskResult : Map) : Arr Map :=
  snapshotID <- must (asString (params !! "snapshotId")) ;;
  callErr Local (DeactivateLunSnapshot snapshotID) ;;;
  ret ∅.

Definition snapshotConflictMsg (lunName snapshotName : string) : string :=
  "Snapshot " +:+ snapshotName +:+ " is already exist, but the parent LUN "
  +:+ lunName +:+ " is incompatible".

Definition CreateSnapshot (lunName snapshotName : string) : Arr Map :=
  lun <- callObj Local (GetLunByName lunName) ;;
  match lun with
  | None => throw (errorsNew ("Lun " +:+ lunName
                              +:+ " to create snapshot does not exist"))
  | Some lun =>
      lunId <- must (asString (lun !! "ID")) ;;
      snapshot <- callObj Local (GetLunSnapshotByName snapshotName) ;;
      match snapshot with
      | Some snapshot =>
          snapshotParentId <- must (asString (snapshot !! "PARENTID")) ;;
          if negb (bool_decide (snapshotParentId = lunId))
          then throw (errorsNew (snapshotConflictMsg lunName snapshotName))
          else
            capacity <- must (asString (snapshot !! "USERCAPACITY")) ;;
            let snapshotSize := (ParseInt capacity).1 in
            getSnapshotReturnInfo snapshot snapshotSize
      | None =>
          let taskflow := NewTaskFlow "Create-LUN-Snapshot" in
          let taskflow :=
            AddTask taskflow "Create-Snapshot" (keeping createSnapshot)
              (Some revertSnapshot) in
          let taskflow :=
            AddTask taskflow "Active-Snapshot" (keeping activateSnapshot) None in
          let params : Map :=
            <["lunID" := VStr lunId]> (<["snapshotName" := VStr snapshotName]> ∅) in
          r <- Run taskflow params ;;
          let '(taskflow, _, res) := r in
          match res with
          | inl err => Revert taskflow ;;; throw err
          | inr result =>
              snapshot <- callObj Local (GetLunSnapshotByName snapshotName) ;;
              capacity <- must (asString (result !! "snapshotSize")) ;;
              let snapshotSize := (ParseInt capacity).1 in
              getSnapshotReturnInfo (objOf snapshot) snapshotSize
          end
      end
  end.

Definition DeleteSnapshot (snapshotName : string) : Arr unit :=
  snapshot <- callObj Local (GetLunSnapshotByName snapshotName) ;;
  match snapshot with
  | None => ret tt
  | Some snapshot =>
      let taskflow := NewTaskFlow "Delete-LUN-Snapshot" in
      let taskflow :=
        AddTask taskflow "Deactivate-Snapshot" (keeping deactivateSnapshot) None in
      let taskflow :=
        AddTask taskflow "Delete-Snapshot" (keeping deleteSnapshot) None in
      snapshotId <- must (asString (snapshot !! "ID")) ;;
      let params : Map := <["snapshotId" := VStr snapshotId]> ∅ in
      r <- Run taskflow params ;;
      match r.2 with
      | inl err => throw err
      | inr _ => ret tt
      end
  end.

End Orchestrator.

End Volume.

(** ** Sample instances, for the examples *)

Module Sample.

(** A stand-in for [net.ParseIP] that knows dotted quads only. *)
Definition octet (s : string) : option Z :=
  match s with
  | EmptyString => None
  | _ => match readDigits s 0 with
         | Some n => if (n <=? 255)%Z then Some n else None
         | None => None
         end
  end.

Definition parseDottedQuad (s : string) : option (list Z) :=
  match Split s "." with
  | [a; b; c; d] =>
      match octet a, octet b, octet c, octet d with
      | Some x, Some y, Some z, Some u => Some [x; y; z; u]
      | _, _, _, _ => None
      end
  | _ => None
  end.

(** A host with a fixed mount table: the paths in [missing] do not exist,
    every command in [failing] fails with the output given there, and every
    other call succeeds.  The world is the list of commands run so far. *)
Record host : Type := {
  missing : list string;
  procMounts : string;
  failing : list (string * string)
}.

Definition hostOS (h : host) : Nfs.OS (list string) := {|
  Nfs.osStat path w :=
    (if bool_decide (path ∈ missing h) then Nfs.StatNotExist else Nfs.StatOk, w);
  Nfs.osMkdirAll path perm w := (None, w);
  Nfs.ioutilReadFile path w :=
    (if bool_decide (path = "/proc/mounts") then inr (procMounts h)
     else inl (errorsNew ("open " +:+ path +:+ ": no such file or directory")), w);
  Nfs.utilsExecShellCmd cmd w :=
    (match list_find (fun x => bool_decide (x.1 = cmd)) (failing h) with
     | Some (_, (_, out)) => (out, Some (errorsNew "exit status 32"))
     | None => ("", None)
     end, w ++ [cmd]);
  Nfs.connectorResizeMountPath path w := (None, w)
|}.

End Sample.

(** ** Facts about the Go library models *)

Module GoFacts.

Lemma prefix_spec (p s : string) :
  String.prefix p s = true <-> exists post, s = p +:+ post.
Proof.
  revert s. induction p as [|a p IH]; intros s.
  - split; [intros _; exists s; reflexivity | intros _; destruct s; reflexivity].
  - destruct s as [|b s]; simpl.
    + split; [discriminate | intros [post Hpost]; discriminate].
    + destruct (Ascii.ascii_dec a b) as [->|Hab].
      * rewrite IH. split; intros [post Hpost]; exists post.
        -- rewrite Hpost. reflexivity.
        -- simpl in Hpost. injection Hpost as ->. reflexivity.
      * split; [discriminate | intros [post Hpost]].
        simpl in Hpost. injection Hpost as -> _. contradiction.
Qed.

Lemma Contains_unfold (s sub : string) :
  Contains s sub =
  String.prefix sub s
  || match s with EmptyString => false | String _ s' => Contains s' sub end.
Proof.
  destruct s as [|c s]; simpl.
  - destruct sub; reflexivity.
  - destruct (String.prefix sub (String c s)); reflexivity.
Qed.

(** [Contains] decides the substring relation. *)
Lemma Contains_spec (s sub : string) :
  Contains s sub = true <-> exists pre post, s = pre +:+ sub +:+ post.
Proof.
  induction s as [|c s IH]; rewrite Contains_unfold, orb_true_iff, prefix_spec.
  - split.
    + intros [[post Hpost]|Hf]; [exists "", post; exact Hpost | discriminate].
    + intros (pre & post & Heq). left. destruct pre; [|discriminate]. eauto.
  - rewrite IH. split.
    + intros [[post Hpost]|(pre & post & ->)].
      * exists "", post. exact Hpost.
      * exists (String c pre), post. reflexivity.
    + intros (pre & post & Heq). destruct pre as [|c' pre].
      * left. eauto.
      * right. simpl in Heq. injection Heq as -> ->. eauto.
Qed.

Lemma isOk_true {A} (o : outcome A) : isOk o = true -> exists a, o = Ok a.
Proof. destruct o; try discriminate. eauto. Qed.

Lemma wrap64_inrange (z : Z) : inInt64 z -> wrap64 z = z.
Proof.
  unfold inInt64, minInt64, maxInt64, wrap64. intros Hz.
  rewrite Z.mod_small by lia. lia.
Qed.

End GoFacts.

(** ** Package proto: what [VerifyIscsiPortals] returns *)

Module ProtoSpec.

Import Proto.

Section Portals.

Variable IP : Type.
Variable ParseIP : string -> option IP.

(** On portals that are all strings the loop either stops at the first one
    that [net.ParseIP] rejects or appends them all. *)
Lemma verifyLoop_strings (ps acc : list string) :
  verifyLoop IP ParseIP (map VStr ps) acc =
  match List.find (fun s => negb (present (ParseIP s))) ps with
  | Some bad => Err (errorsNew (bad +:+ " of portals is invalid"))
  | None => Ok (acc ++ ps)
  end.
Proof.
  revert acc. induction ps as [|s ps IH]; intros acc; simpl.
  - rewrite app_nil_r. reflexivity.
  - destruct (ParseIP s); simpl; [|reflexivity].
    rewrite IH. destruct (List.find _ ps); [reflexivity|].
    rewrite <- app_assoc. reflexivity.
Qed.

(** An element that is not a string makes the unchecked assertion
    [i.(string)] panic, unless an earlier element already failed. *)
Lemma verifyLoop_not_string (v : Value) (rest : list Value) (acc : list string) :
  (forall s, v <> VStr s) -> verifyLoop IP ParseIP (v :: rest) acc = Panic.
Proof. intros Hv. destruct v; try reflexivity. destruct (Hv s). reflexivity. Qed.

(** The loop on portals that parse, followed by anything. *)
Lemma verifyLoop_good (good : list string) (rest : list Value) (acc : list string) :
  (forall s, In s good -> ParseIP s <> None) ->
  verifyLoop IP ParseIP (map VStr good ++ rest) acc
  = verifyLoop IP ParseIP rest (acc ++ good).
Proof.
  revert acc. induction good as [|s good IH]; intros acc Hgood; cbn [map app verifyLoop].
  - rewrite app_nil_r. reflexivity.
  - destruct (ParseIP s) eqn:Hs; [|destruct (Hgood s (or_introl eq_refl) Hs)].
    rewrite IH by (intros s' Hin; apply Hgood; right; exact Hin).
    rewrite <- app_assoc. reflexivity.
Qed.

(** What a loop that ends well has seen: strings that parse, and nothing
    else. *)
Lemma verifyLoop_ok (portals : list Value) (acc out : list string) :
  verifyLoop IP ParseIP portals acc = Ok out ->
  exists ps, portals = map VStr ps /\ out = acc ++ ps /\
             forall s, In s ps -> ParseIP s <> None.
Proof.
  revert acc. induction portals as [|v rest IH]; intros acc; cbn [verifyLoop].
  - intros [= <-]. exists []. rewrite app_nil_r. repeat split. intros s [].
  - destruct v as [s| | | | | | |]; try discriminate.
    destruct (ParseIP s) eqn:Hs; [|discriminate].
    intros Hrun. apply IH in Hrun as (ps & -> & -> & Hps).
    exists (s :: ps). rewrite <- app_assoc. repeat split.
    intros s' [<-|Hin]; [congruence|exact (Hps s' Hin)].
Qed.

(** C10, as the code has it.  [VerifyIscsiPortals] returns an error for the
    empty portal list.  On a non-empty list whose elements are all strings
    it returns an error when some element does not parse as an IP address,
    and otherwise exactly the input portals, in order.  On any list, the
    first element that is not a string that parses decides: a string that
    does not parse gives the error naming it, and an element that is not a
    string makes the unchecked assertion [i.(string)] panic, which is neither
    an error nor the portals.  The function returns portals only for a
    non-empty list of strings that all parse. *)
Theorem VerifyIscsiPortals_spec :
  VerifyIscsiPortals IP ParseIP []
  = Err (errorsNew "At least 1 portal must be provided for iscsi backend") /\
  (forall ps : list string, ps <> [] ->
     ((exists s, In s ps /\ ParseIP s = None) ->
      exists e, VerifyIscsiPortals IP ParseIP (map VStr ps) = Err e) /\
     ((forall s, In s ps -> ParseIP s <> None) ->
      VerifyIscsiPortals IP ParseIP (map VStr ps) = Ok ps)) /\
  (forall (good : list string) (v : Value) (rest : list Value),
     (forall s, In s good -> ParseIP s <> None) ->
     (forall bad, v = VStr bad -> ParseIP bad = None ->
        VerifyIscsiPortals IP ParseIP (map VStr good ++ v :: rest)
        = Err (errorsNew (bad +:+ " of portals is invalid"))) /\
     ((forall s, v <> VStr s) ->
        VerifyIscsiPortals IP ParseIP (map VStr good ++ v :: rest) = Panic)) /\
  (forall (portals : list Value) (out : list string),
     VerifyIscsiPortals IP ParseIP portals = Ok out ->
     portals = map VStr out /\ out <> [] /\ forall s, In s out -> ParseIP s <> None).
Proof.
  split; [reflexivity|]. split; [|split].
  - intros ps Hne.
    assert (Hrun : VerifyIscsiPortals IP ParseIP (map VStr ps)
                   = verifyLoop IP ParseIP (map VStr ps) []).
    { destruct ps; [contradiction|reflexivity]. }
    rewrite Hrun, verifyLoop_strings. split.
    + intros (s & Hin & Hs).
      destruct (List.find _ ps) as [bad|] eqn:Hfind; [eexists; reflexivity|].
      pose proof (find_none _ _ Hfind s Hin) as Hok. simpl in Hok.
      rewrite Hs in Hok. discriminate.
    + intros Hall.
      destruct (List.find _ ps) as [bad|] eqn:Hfind; [|reflexivity].
      apply find_some in Hfind as [Hin Hbad].
      specialize (Hall bad Hin). destruct (ParseIP bad); [discriminate|congruence].
  - intros good v rest Hgood.
    assert (Hrun : VerifyIscsiPortals IP ParseIP (map VStr good ++ v :: rest)
                   = verifyLoop IP ParseIP (v :: rest) ([] ++ good)).
    { rewrite <- (verifyLoop_good good (v :: rest) [] Hgood).
      unfold VerifyIscsiPortals. destruct good; reflexivity. }
    rewrite Hrun. split.
    + intros bad -> Hbad. cbn [verifyLoop]. rewrite Hbad. reflexivity.
    + intros Hv. apply verifyLoop_not_string. exact Hv.
  - intros portals out. unfold VerifyIscsiPortals.
    destruct portals as [|v rest]; [discriminate|]. cbn [length Nat.ltb Nat.leb].
    intros Hrun. apply verifyLoop_ok in Hrun as (ps & Hps & -> & Hall).
    cbn [app]. split; [exact Hps|]. split; [|exact Hall].
    intros ->. discriminate.
Qed.

End Portals.

(** Two portals that parse are returned as they came; a portal that does
    not parse is named in the error; a port number makes the call panic. *)
Lemma VerifyIscsiPortals_spec_witness :
  VerifyIscsiPortals _ Sample.parseDottedQuad
    (map VStr ["192.168.1.10"; "10.0.0.2"])
  = Ok ["192.168.1.10"; "10.0.0.2"] /\
  VerifyIscsiPortals _ Sample.parseDottedQuad
    [VStr "192.168.1.10"; VStr "300.0.0.2"; VStr "10.0.0.3"]
  = Err (errorsNew "300.0.0.2 of portals is invalid") /\
  VerifyIscsiPortals _ Sample.parseDottedQuad
    [VStr "192.168.1.10"; VInt 3260; VStr "10.0.0.3"]
  = Panic.
Proof.
  assert (Hgood : forall s, In s ["192.168.1.10"] -> Sample.parseDottedQuad s <> None).
  { intros s [<-|[]]. vm_compute. discriminate. }
  assert (Hbad : Sample.parseDottedQuad "300.0.0.2" = None) by (vm_compute; reflexivity).
  split; [|split].
  - apply (proj1 (proj2 (VerifyIscsiPortals_spec _ Sample.parseDottedQuad))).
    + discriminate.
    + intros s [<-|[<-|[]]]; vm_compute; discriminate.
  - exact (proj1 (proj1 (proj2 (proj2 (VerifyIscsiPortals_spec _ Sample.parseDottedQuad)))
                    ["192.168.1.10"] (VStr "300.0.0.2") [VStr "10.0.0.3"] Hgood)
             "300.0.0.2" eq_refl Hbad).
  - apply (proj2 (proj1 (proj2 (proj2 (VerifyIscsiPortals_spec _ Sample.parseDottedQuad)))
                    ["192.168.1.10"] (VInt 3260) [VStr "10.0.0.3"] Hgood)).
    intros s. discriminate.
Defined.

Example VerifyIscsiPortals_bad_portal :
  VerifyIscsiPortals _ Sample.parseDottedQuad
    (map VStr ["192.168.1.10"; "300.0.0.2"; "10.0.0.3"])
  = Err (errorsNew "300.0.0.2 of portals is invalid").
Proof. vm_compute. reflexivity. Qed.

(** A port number among the portals, as a JSON configuration can hold one:
    the list is not empty and its first element parses, yet the call neither
    returns an error nor the portals. *)
Lemma VerifyIscsiPortals_number :
  [VStr "192.168.1.10"; VInt 3260] <> [] /\
  VerifyIscsiPortals _ Sample.parseDottedQuad [VStr "192.168.1.10"; VInt 3260]
  = Panic /\
  (forall e, VerifyIscsiPortals _ Sample.parseDottedQuad [VStr "192.168.1.10"; VInt 3260]
             <> Err e) /\
  (forall out, VerifyIscsiPortals _ Sample.parseDottedQuad
                 [VStr "192.168.1.10"; VInt 3260] <> Ok out).
Proof.
  split; [discriminate|].
  assert (Hrun : VerifyIscsiPortals _ Sample.parseDottedQuad
                   [VStr "192.168.1.10"; VInt 3260] = Panic) by (vm_compute; reflexivity).
  rewrite Hrun. repeat split; discriminate.
Qed.

End ProtoSpec.

(** ** Laws of the monad *)

Module MonadFacts.

Section Laws.

Context {W E : Type}.

(** The calls [t] made before those of the run [x]. *)
Definition prepend {A} (t : list E) (x : outcome A * W * list E)
  : outcome A * W * list E :=
  let '(r, w, t') := x in (r, w, t ++ t').

Lemma bind_ok {A B} (m : M W E A) (f : A -> M W E B) w a w1 t1 :
  m w = (Ok a, w1, t1) -> bind m f w = prepend t1 (f a w1).
Proof. intros Hm. unfold bind, prepend. rewrite Hm. reflexivity. Qed.

Lemma bind_ret {A B} (a : A) (f : A -> M W E B) w : bind (ret a) f w = f a w.
Proof. unfold bind, ret. destruct (f a w) as [[r w2] t2]. reflexivity. Qed.

Lemma bind_throw {A B} (e : error) (f : A -> M W E B) w :
  bind (throw e) f w = (Err e, w, []).
Proof. reflexivity. Qed.

Lemma bind_panic0 {A B} (f : A -> M W E B) w : bind panic f w = (Panic, w, []).
Proof. reflexivity. Qed.

Lemma bind_assoc {A B C} (m : M W E A) (f : A -> M W E B) (g : B -> M W E C) w :
  bind (bind m f) g w = bind m (fun a => bind (f a) g) w.
Proof.
  unfold bind. destruct (m w) as [[[a|e|] w1] t1]; try reflexivity.
  destruct (f a w1) as [[[b|e|] w2] t2]; try reflexivity.
  destruct (g b w2) as [[r w3] t3]. rewrite app_assoc. reflexivity.
Qed.

Lemma bind_err {A B} (m : M W E A) (f : A -> M W E B) w e w1 t1 :
  m w = (Err e, w1, t1) -> bind m f w = (Err e, w1, t1).
Proof. intros Hm. unfold bind. rewrite Hm. reflexivity. Qed.

Lemma bind_panic {A B} (m : M W E A) (f : A -> M W E B) w w1 t1 :
  m w = (Panic, w1, t1) -> bind m f w = (Panic, w1, t1).
Proof. intros Hm. unfold bind. rewrite Hm. reflexivity. Qed.

(** A sequence that ends well ran both halves. *)
Lemma bind_inv_ok {A B} (m : M W E A) (f : A -> M W E B) w b w2 t :
  bind m f w = (Ok b, w2, t) ->
  exists a w1 t1 t2,
    m w = (Ok a, w1, t1) /\ f a w1 = (Ok b, w2, t2) /\ t = t1 ++ t2.
Proof.
  unfold bind. destruct (m w) as [[[a|e|] w1] t1]; try discriminate.
  destruct (f a w1) as [[r w2'] t2] eqn:Hf. intros [= -> -> <-].
  exists a, w1, t1, t2. auto.
Qed.

Lemma ret_inv {A} (a b : A) (w w' : W) (t : list E) :
  ret a w = (Ok b, w', t) -> b = a /\ w' = w /\ t = [].
Proof. unfold ret. intros [= -> -> <-]. auto. Qed.

Lemma must_inv_ok {A} (o : option A) a (w w' : W) (t : list E) :
  must o w = (Ok a, w', t) -> o = Some a /\ w' = w /\ t = [].
Proof. destruct o; simpl; [intros [= -> -> <-]; auto | discriminate]. Qed.

Lemma attempt_inv {A} (m : M W E A) r (w w' : W) (t : list E) :
  attempt m w = (Ok r, w', t) ->
  match r with
  | inr a => m w = (Ok a, w', t)
  | inl e => m w = (Err e, w', t)
  end.
Proof.
  unfold attempt. destruct (m w) as [[[a|e|] w1] t1]; intros [= <- <- <-]; reflexivity.
Qed.

Lemma attempt_ok {A} (m : M W E A) a (w w' : W) (t : list E) :
  m w = (Ok a, w', t) -> attempt m w = (Ok (inr a), w', t).
Proof. intros Hm. unfold attempt. rewrite Hm. reflexivity. Qed.

Lemma attempt_err {A} (m : M W E A) e (w w' : W) (t : list E) :
  m w = (Err e, w', t) -> attempt m w = (Ok (inl e), w', t).
Proof. intros Hm. unfold attempt. rewrite Hm. reflexivity. Qed.

Lemma attempt_not_err {A} (m : M W E A) e (w w' : W) (t : list E) :
  attempt m w <> (Err e, w', t).
Proof. unfold attempt. destruct (m w) as [[[a|e'|] w1] t1]; discriminate. Qed.

Lemma ignore_inv {A} (m : M W E A) u (w w' : W) (t : list E) :
  ignore m w = (Ok u, w', t) -> worldOf (m w) = w' /\ calls (m w) = t.
Proof.
  unfold ignore, worldOf, calls.
  destruct (m w) as [[[a|e|] w1] t1]; simpl; try discriminate; intros [= _ <- <-]; auto.
Qed.

Lemma calls_ignore {A} (m : M W E A) (w : W) : calls (ignore m w) = calls (m w).
Proof. unfold ignore, calls. destruct (m w) as [[[a|e|] w1] t1]; reflexivity. Qed.

Lemma calls_attempt {A} (m : M W E A) (w : W) : calls (attempt m w) = calls (m w).
Proof. unfold attempt, calls. destruct (m w) as [[[a|e|] w1] t1]; reflexivity. Qed.

(** The calls of a sequence: those of the first half, then those of the
    second if the first half ended well. *)
Lemma calls_bind {A B} (m : M W E A) (f : A -> M W E B) (w : W) :
  calls (bind m f w) =
  calls (m w) ++ match result (m w) with
                 | Ok a => calls (f a (worldOf (m w)))
                 | _ => []
                 end.
Proof.
  unfold bind, calls, result, worldOf.
  destruct (m w) as [[[a|e|] w1] t1]; simpl; rewrite ?app_nil_r; try reflexivity.
  destruct (f a w1) as [[r w2] t2]. reflexivity.
Qed.

Lemma calls_prepend {A} (t : list E) (x : outcome A * W * list E) :
  calls (prepend t x) = t ++ calls x.
Proof. destruct x as [[r w] t']. reflexivity. Qed.

Lemma result_prepend {A} (t : list E) (x : outcome A * W * list E) :
  result (prepend t x) = result x.
Proof. destruct x as [[r w] t']. reflexivity. Qed.

Lemma worldOf_prepend {A} (t : list E) (x : outcome A * W * list E) :
  worldOf (prepend t x) = worldOf x.
Proof. destruct x as [[r w] t']. reflexivity. Qed.

Lemma result_bind {A B} (m : M W E A) (f : A -> M W E B) (w : W) :
  result (bind m f w) =
  match result (m w) with
  | Ok a => result (f a (worldOf (m w)))
  | Err e => Err e
  | Panic => Panic
  end.
Proof.
  unfold bind, result, worldOf.
  destruct (m w) as [[[a|e|] w1] t1]; simpl; try reflexivity.
  destruct (f a w1) as [[r w2] t2]. reflexivity.
Qed.

Lemma worldOf_bind {A B} (m : M W E A) (f : A -> M W E B) (w : W) :
  worldOf (bind m f w) =
  match result (m w) with
  | Ok a => worldOf (f a (worldOf (m w)))
  | _ => worldOf (m w)
  end.
Proof.
  unfold bind, result, worldOf.
  destruct (m w) as [[[a|e|] w1] t1]; simpl; try reflexivity.
  destruct (f a w1) as [[r w2] t2]. reflexivity.
Qed.

End Laws.

(** One step of a run: case on how the first computation of a sequence
    ends, and continue with the rest. *)
Ltac run_step m :=
  let a := fresh "a" in
  let e := fresh "e" in
  let w := fresh "w" in
  let t := fresh "t" in
  let E := fresh "Hrun" in
  destruct m as [[[a|e|] w] t] eqn:E;
  [ rewrite (bind_ok _ _ _ _ _ _ E)
  | rewrite (bind_err _ _ _ _ _ _ E)
  | rewrite (bind_panic _ _ _ _ _ E) ];
  cbn beta; rewrite ?calls_prepend, ?result_prepend, ?worldOf_prepend.

End MonadFacts.

(** ** Package nfs: mount conflicts and unmounting *)

Module NfsSpec.

Import Nfs MonadFacts.

(** No call of the trace runs [mount]. *)
Definition noMount (t : list SysCall) : Prop :=
  forall cmd, In (Exec cmd) t -> String.prefix "mount " cmd = false.

(** No call of the trace runs a command at all. *)
Definition noExec (t : list SysCall) : Prop := forall cmd, ~ In (Exec cmd) t.

Section Host.

Context {W : Type}.
Variable os : OS W.

Lemma preMount_noExec (sourcePath targetPath : string) (w : W) :
  noExec (calls (preMount os sourcePath targetPath w)).
Proof.
  unfold preMount, bind, perform, throw, ret, calls, noExec.
  destruct (osStat os sourcePath w) as [[| |] w1]; simpl;
    try (intros cmd [H|[]]; discriminate);
    destruct (osStat os targetPath w1) as [[| |] w2]; simpl;
    try (intros cmd [H|[H|[]]]; discriminate);
    destruct (osMkdirAll os targetPath 488 w2) as [[e|] w3]; simpl;
    intros cmd [H|[H|[H|[]]]]; discriminate.
Qed.

(** What [mountUnix] does once [preMount] has passed and the table read
    from [/proc/mounts] maps the target to another source. *)
Lemma readMountPoints_run (data : string) (w1 w2 : W) :
  ioutilReadFile os "/proc/mounts" w1 = (inr data, w2) ->
  readMountPoints os w1 = (Ok (parseMounts data), w2, [ReadFile "/proc/mounts"]).
Proof.
  intros Hread. unfold readMountPoints, liftErr, perform, bind, ret.
  rewrite Hread. reflexivity.
Qed.

(** What [mountUnix] does once [preMount] has passed and the table read
    from [/proc/mounts] maps the target to another source. *)
Lemma mountUnix_conflict (sourcePath targetPath flags data value : string)
  (w w1 w2 : W) (t1 : list SysCall) :
  preMount os sourcePath targetPath w = (Ok tt, w1, t1) ->
  ioutilReadFile os "/proc/mounts" w1 = (inr data, w2) ->
  parseMounts data !! targetPath = Some value ->
  value <> sourcePath ->
  mountUnix os sourcePath targetPath flags w
  = (Err (errorsNew (mountConflictMsg sourcePath targetPath)), w2,
     t1 ++ [ReadFile "/proc/mounts"]).
Proof.
  intros Hpre Hread Hlook Hne.
  unfold mountUnix. rewrite (bind_ok _ _ _ _ _ _ Hpre).
  rewrite (bind_ok _ _ _ _ _ _ (attempt_ok _ _ _ _ _ (readMountPoints_run _ _ _ Hread))).
  rewrite Hlook, bool_decide_eq_false_2 by exact Hne. reflexivity.
Qed.

Lemma ExecShellCmd_run (cmd : string) (w : W) :
  ExecShellCmd os cmd w
  = (Ok (utilsExecShellCmd os cmd w).1, (utilsExecShellCmd os cmd w).2, [Exec cmd]).
Proof.
  unfold ExecShellCmd, perform. destruct (utilsExecShellCmd os cmd w). reflexivity.
Qed.

Lemma noExec_noMount (t : list SysCall) : noExec t -> noMount t.
Proof. intros Ht cmd Hin. destruct (Ht cmd Hin). Qed.

(** C9.  Detach runs [umount] once.  When the command fails and its output
    contains [not mounted], Detach returns no error; any other failure of
    the command is returned; and a command that succeeds is a success. *)
Theorem Detach_unmount_idempotent (targetPath output : string) (err : option error)
  (w w1 : W) :
  utilsExecShellCmd os ("umount " +:+ targetPath) w = ((output, err), w1) ->
  calls (tryDisConnectVolume os targetPath w) = [Exec ("umount " +:+ targetPath)] /\
  (forall e, err = Some e ->
     (exists pre post, output = pre +:+ "not mounted" +:+ post) ->
     result (tryDisConnectVolume os targetPath w) = Ok tt) /\
  (forall e, err = Some e ->
     ~ (exists pre post, output = pre +:+ "not mounted" +:+ post) ->
     result (tryDisConnectVolume os targetPath w) = Err e) /\
  (err = None -> result (tryDisConnectVolume os targetPath w) = Ok tt).
Proof.
  intros Hrun.
  unfold tryDisConnectVolume, unmountUnix, bind. rewrite ExecShellCmd_run, Hrun. simpl.
  pose proof (GoFacts.Contains_spec output "not mounted") as Hc.
  destruct err as [e|]; simpl.
  - destruct (Contains output "not mounted") eqn:Hcont; simpl.
    + repeat split; try discriminate.
      intros e' _ Hnot. destruct Hnot. apply Hc. reflexivity.
    + repeat split; try discriminate.
      * intros e' _ Hsub. apply Hc in Hsub. discriminate.
      * intros e' [= ->] _. reflexivity.
  - repeat split; discriminate.
Qed.

End Host.

(** The sixth scenario of the specification: [/proc/mounts] already holds
    [/dev/sdb /data]. *)
Definition sdbOnData : string := "/dev/sdb /data ext4 rw,relatime 0 0" +:+ bytes [10].

Example parseMounts_sdbOnData : parseMounts sdbOnData = {[ "/data" := "/dev/sdb" ]}.
Proof. vm_compute. reflexivity. Qed.

Definition conflictHost : Sample.host :=
  {| Sample.missing := []; Sample.procMounts := sdbOnData; Sample.failing := [] |}.

Definition notMountedHost : Sample.host :=
  {| Sample.missing := []; Sample.procMounts := "";
     Sample.failing := [("umount /data", "umount: /data: not mounted.")] |}.

Lemma Detach_unmount_idempotent_witness :
  result (tryDisConnectVolume (Sample.hostOS notMountedHost) "/data" []) = Ok tt.
Proof.
  refine (proj1 (proj2 (Detach_unmount_idempotent (Sample.hostOS notMountedHost)
                          "/data" "umount: /data: not mounted."
                          (Some (errorsNew "exit status 32")) [] ["umount /data"]
                          eq_refl)) _ eq_refl _).
  exists "umount: /data: ", ".". reflexivity.
Defined.

End NfsSpec.

(** ** A sample array, for the examples *)

Module SampleArray.

Import Volume.

(** The status codes are those of the array's REST interface; the name
    manglers are the identity, no QoS string is accepted and no flag is read
    from [HASRSSOBJECT]. *)
#[export] Instance sampleEnv : Env := {|
  hyperMetroPairHealthStatusFault := "2";
  hyperMetroPairRunningStatusNormal := "1";
  hyperMetroPairRunningStatusToSync := "100";
  hyperMetroPairRunningStatusSyncing := "23";
  hyperMetroPairRunningStatusUnknown := "0";
  hyperMetroPairRunningStatusPause := "41";
  hyperMetroPairRunningStatusError := "94";
  hyperMetroPairRunningStatusInvalid := "35";
  hyperMetroDomainRunningStatusNormal := "1";
  lunCopyHealthStatusFault := "2";
  lunCopyRunningStatusQueuing := "37";
  lunCopyRunningStatusCopying := "39";
  lunCopyRunningStatusStop := "38";
  lunCopyRunningStatusPaused := "41";
  clonePairHealthStatusFault := "1";
  clonePairRunningStatusUnsyncing := "0";
  clonePairRunningStatusSyncing := "1";
  clonePairRunningStatusNormal := "2";
  clonePairRunningStatusInitializing := "3";
  snapshotRunningStatusActive := "43";
  snapshotRunningStatusInactive := "45";
  replicationPairRunningStatusNormal := "1";
  replicationPairRunningStatusSync := "23";
  remoteDeviceHealthStatus := "1";
  remoteDeviceRunningStatusLinkUp := "10";
  GetLunName name := name;
  GetSnapshotName name := name;
  QosRaw := unit;
  ExtractQoSParameters product v := inl (errorsNew "unsupported qos");
  ValidateQoSParameters product qos := inl (errorsNew "unsupported qos");
  jsonStringMap s := ∅;
  jsonStringList s := []
|}.

(** The state of the sample array: its LUNs and snapshots, by name.  The ID
    of an object is its name. *)
Record array : Type := {
  luns : gmap string Obj;
  snapshots : gmap string Obj
}.

Definition newLun (name : string) (capacity : Z) : Obj :=
  <["ID" := VStr name]>
  (<["NAME" := VStr name]>
   (<["WWN" := VStr ("wwn-" +:+ name)]>
    (<["CAPACITY" := VStr (pretty capacity)]>
     (<["HASRSSOBJECT" := VStr "{}"]>
      (<["PARENTNAME" := VStr "P1"]>
       (<["EXPOSEDTOINITIATOR" := VStr "false"]> ∅)))))).

Definition newSnapshot (name lunID : string) : Obj :=
  <["ID" := VStr name]>
  (<["NAME" := VStr name]>
   (<["PARENTID" := VStr lunID]>
    (<["USERCAPACITY" := VStr "2097152"]>
     (<["TIMESTAMP" := VStr "1700000000"]>
      (<["RUNNINGSTATUS" := VStr "45"]> ∅))))).

Definition sampleObj (r : ObjReq) (a : array) : (error + option Obj) * array :=
  match r with
  | GetPoolByName name =>
      (inr (if bool_decide (name = "P1")
            then Some (<["ID" := VStr "0"]> (<["NAME" := VStr name]> ∅))
            else None), a)
  | GetLunByName name => (inr (luns a !! name), a)
  | GetLunByID id => (inr (luns a !! id), a)
  | CreateLun params =>
      match asString (params !! "name"), asInt64 (params !! "capacity") with
      | Some name, Some capacity =>
          let lun := newLun name capacity in
          (inr (Some lun), {| luns := <[name := lun]> (luns a); snapshots := snapshots a |})
      | _, _ => (inl (errorsNew "invalid LUN parameters"), a)
      end
  | GetLunSnapshotByName name => (inr (snapshots a !! name), a)
  | CreateLunSnapshot name lunID | SmartXCreateLunSnapshot name lunID =>
      let snapshot := newSnapshot name lunID in
      (inr (Some snapshot),
       {| luns := luns a; snapshots := <[name := snapshot]> (snapshots a) |})
  | CreateClonePair src dst speed => (inr (Some (<["ID" := VStr dst]> ∅)), a)
  | GetClonePairInfo id =>
      (inr (Some (<["ID" := VStr id]>
                  (<["copyStatus" := VStr "0"]> (<["syncStatus" := VStr "2"]> ∅)))), a)
  | _ => (inr None, a)
  end.

Definition sampleErr (r : ErrReq) (a : array) : option error * array :=
  match r with
  | DeleteLun id => (None, {| luns := delete id (luns a); snapshots := snapshots a |})
  | ExtendLun id capacity =>
      (None, {| luns := alter (insert "CAPACITY" (VStr (pretty capacity))) id (luns a);
                snapshots := snapshots a |})
  | DeleteLunSnapshot id | SmartXDeleteLunSnapshot id =>
      (None, {| luns := luns a; snapshots := delete id (snapshots a) |})
  | _ => (None, a)
  end.

Definition sampleStr (r : StrReq) (a : array) : (error + string) * array :=
  match r with
  | GetApplicationTypeByName name => (inr "1", a)
  | SmartXCreateQos objID objType vStoreID params => (inr "qos-1", a)
  end.

Definition sampleClient : Client array := {|
  askObj := sampleObj;
  askErr := sampleErr;
  askStr := sampleStr;
  askList r a := (inr [], a)
|}.

(** A single array of the newer family, without remote arrays. *)
Definition dorado : SAN array := {|
  cli := sampleClient;
  metroRemoteCli := None;
  replicaRemoteCli := None;
  product := "DoradoV6"
|}.

Definition emptyArray : array := {| luns := ∅; snapshots := ∅ |}.

Definition GiB : Z := 1073741824.

(** An array that holds the LUN [s0] of 1 GiB. *)
Definition arrayWithS0 : array :=
  {| luns := {[ "s0" := newLun "s0" GiB ]}; snapshots := ∅ |}.

End SampleArray.

(** ** Package volume: the orchestrator against the array *)

Module VolumeSpec.

Import Volume MonadFacts.

Section Calls.

Context {W : Type} `{Env}.
Variable p : SAN W.

(** *** One call of the local client *)

Lemma callObj_run (r : ObjReq) (o : option Obj) (w w1 : W) :
  askObj (cli p) r w = (inr o, w1) ->
  callObj p Local r w = (Ok o, w1, [OnObj Local r]).
Proof.
  intros Hr. unfold callObj, liftErr, perform, bind, ret. simpl. rewrite Hr. reflexivity.
Qed.

Lemma callObj_fail (r : ObjReq) (e : error) (w w1 : W) :
  askObj (cli p) r w = (inl e, w1) ->
  callObj p Local r w = (Err e, w1, [OnObj Local r]).
Proof.
  intros Hr. unfold callObj, liftErr, perform, bind, throw. simpl. rewrite Hr. reflexivity.
Qed.

Lemma callObj_inv (r : ObjReq) (o : option Obj) (w w1 : W) (t : list Call) :
  callObj p Local r w = (Ok o, w1, t) ->
  askObj (cli p) r w = (inr o, w1) /\ t = [OnObj Local r].
Proof.
  unfold callObj, liftErr, perform, bind, ret, throw. simpl.
  destruct (askObj (cli p) r w) as [[e|o'] w']; simpl; [discriminate|].
  intros [= -> -> <-]. auto.
Qed.

Lemma callObj_calls (r : ObjReq) (w : W) :
  calls (callObj p Local r w) = [OnObj Local r].
Proof.
  unfold callObj, liftErr, perform, bind, ret, throw, calls. simpl.
  destruct (askObj (cli p) r w) as [[e|o'] w']; reflexivity.
Qed.

Lemma callObj_no_panic (r : ObjReq) (w : W) :
  result (callObj p Local r w) <> Panic.
Proof.
  unfold callObj, liftErr, perform, bind, ret, throw, result. simpl.
  destruct (askObj (cli p) r w) as [[e|o'] w']; discriminate.
Qed.

Lemma callErr_run (r : ErrReq) (w w1 : W) :
  askErr (cli p) r w = (None, w1) ->
  callErr p Local r w = (Ok tt, w1, [OnErr Local r]).
Proof.
  intros Hr. unfold callErr, liftErr0, perform, bind, ret. simpl. rewrite Hr. reflexivity.
Qed.

Lemma callErr_inv (r : ErrReq) (u : unit) (w w1 : W) (t : list Call) :
  callErr p Local r w = (Ok u, w1, t) ->
  askErr (cli p) r w = (None, w1) /\ t = [OnErr Local r].
Proof.
  unfold callErr, liftErr0, perform, bind, ret, throw. simpl.
  destruct u. destruct (askErr (cli p) r w) as [[e|] w']; simpl; [discriminate|].
  intros [= -> <-]. auto.
Qed.

Lemma callErr_calls (r : ErrReq) (w : W) :
  calls (callErr p Local r w) = [OnErr Local r].
Proof.
  unfold callErr, liftErr0, perform, bind, ret, throw, calls. simpl.
  destruct (askErr (cli p) r w) as [[e|] w']; reflexivity.
Qed.

Lemma callStr_calls (r : StrReq) (w : W) :
  calls (callStr p Local r w) = [OnStr Local r].
Proof.
  unfold callStr, liftErr, perform, bind, ret, throw, calls. simpl.
  destruct (askStr (cli p) r w) as [[e|o'] w']; reflexivity.
Qed.

(** *** C3: the wait predicates when the fetch returns nil *)

(** C3, as the code has it.  When the object fetch returns nil, the
    predicates of the clone-pair wait and of the luncopy wait report terminal
    success (done, no error); the predicates of the hypermetro-pair sync wait
    and of the snapshot-ready wait report an error instead. *)
Theorem wait_predicates_on_nil (id : string) (w w1 : W) :
  (askObj (cli p) (GetClonePairInfo id) w = (inr None, w1) ->
   clonePairFinished p id w = (Ok true, w1, [OnObj Local (GetClonePairInfo id)])) /\
  (askObj (cli p) (GetLunCopyByName id) w = (inr None, w1) ->
   lunCopyFinished p id w = (Ok true, w1, [OnObj Local (GetLunCopyByName id)])) /\
  (askObj (cli p) (GetHyperMetroPair id) w = (inr None, w1) ->
   hyperMetroSyncFinished p id w
   = (Err (errorsNew ("Something wrong with hypermetro pair " +:+ id)), w1,
      [OnObj Local (GetHyperMetroPair id)])) /\
  (askObj (cli p) (GetLunSnapshotByName id) w = (inr None, w1) ->
   snapshotReady p id w
   = (Err (errorsNew ("Something wrong with snapshot " +:+ id)), w1,
      [OnObj Local (GetLunSnapshotByName id)])).
Proof.
  repeat split; intros Hget.
  - unfold clonePairFinished. rewrite (bind_ok _ _ _ _ _ _ (callObj_run _ _ _ _ Hget)).
    reflexivity.
  - unfold lunCopyFinished. rewrite (bind_ok _ _ _ _ _ _ (callObj_run _ _ _ _ Hget)).
    reflexivity.
  - unfold hyperMetroSyncFinished.
    rewrite (bind_ok _ _ _ _ _ _ (callObj_run _ _ _ _ Hget)). reflexivity.
  - unfold snapshotReady. rewrite (bind_ok _ _ _ _ _ _ (callObj_run _ _ _ _ Hget)).
    reflexivity.
Qed.

(** *** C4: Expand to a size that is not larger *)

(** C4.  For every LUN the array reports and every new size that is at most
    its current capacity, [Expand] returns an error, and the lookup of the
    LUN is its only call of the array: nothing is changed there. *)
Theorem Expand_rejects_not_larger (name capacity : string) (newSize : Z) (lun : Obj)
  (w w1 : W) :
  askObj (cli p) (GetLunByName (GetLunName name)) w = (inr (Some lun), w1) ->
  asString (lun !! "CAPACITY") = Some capacity ->
  (newSize <= (ParseInt capacity).1)%Z ->
  Expand p name newSize w
  = (Ok (false, Some (errorsNew (expandTooSmallMsg (GetLunName name) newSize
                                   (ParseInt capacity).1))),
     w1, [OnObj Local (GetLunByName (GetLunName name))]).
Proof.
  intros Hget Hcap Hle. unfold Expand.
  rewrite (bind_ok _ _ _ _ _ _ (attempt_ok _ _ _ _ _ (callObj_run _ _ _ _ Hget))).
  cbn beta iota. rewrite Hcap. cbn [must]. rewrite bind_ret.
  destruct (Z.leb_spec newSize (ParseInt capacity).1) as [_|Hgt]; [|lia].
  reflexivity.
Qed.

(** *** C7: the clone speed *)

(** Whether one of [clonefrom], [sourcevolumename], [sourcesnapshotname] is
    present (as a string) in the parameters. *)
Definition hasCloneSource (params : Map) : bool :=
  present (asString (params !! "clonefrom"))
  || present (asString (params !! "sourcevolumename"))
  || present (asString (params !! "sourcesnapshotname")).

Lemma getAllocType_run (params : Map) (w : W) :
  exists a, getAllocType params w = (Ok (<["alloctype" := VInt a]> params), w, []).
Proof. unfold getAllocType. destruct (isStr _ _); eexists; reflexivity. Qed.

Lemma hasCloneSource_alloctype (params : Map) (v : Value) :
  hasCloneSource (<["alloctype" := v]> params) = hasCloneSource params.
Proof. unfold hasCloneSource. rewrite !lookup_insert_ne by discriminate. reflexivity. Qed.

Lemma getCloneSpeed_rejects (params : Map) (v : string) (w : W) :
  hasCloneSource params = true ->
  asString (params !! "clonespeed") = Some v ->
  v <> "" ->
  (forall n, Atoi v = (n, None) -> ~ (1 <= n <= 4)%Z) ->
  getCloneSpeed params w
  = (Err (errorsNew ("error config " +:+ v +:+ " for clonespeed")), w, []).
Proof.
  intros Hsrc Hv Hne Hbad. unfold getCloneSpeed. fold (hasCloneSource params).
  rewrite Hsrc, Hv. cbn [negb]. unfold nonEmpty.
  rewrite bool_decide_eq_false_2 by exact Hne. cbn [negb].
  destruct (Atoi v) as [n [e|]] eqn:Hatoi; [reflexivity|].
  specialize (Hbad n eq_refl). cbn [present orb].
  destruct (Z.ltb_spec n 1); [reflexivity|].
  destruct (Z.ltb_spec 4 n); [reflexivity|]. lia.
Qed.

(** C7.  The clone speed is applied only when one of [clonefrom],
    [sourcevolumename], [sourcesnapshotname] is present: otherwise the
    parameters are left as they are.  When one is present, a supplied
    non-empty [clonespeed] string that parses to an integer in 1..4 is stored
    as that integer; one that does not makes the normalization fail, and
    [Create] with it, before any call of the array; an absent or empty
    [clonespeed] becomes 3. *)
Theorem getCloneSpeed_spec (params : Map) (w : W) :
  (hasCloneSource params = false -> getCloneSpeed params w = (Ok params, w, [])) /\
  (hasCloneSource params = true ->
   (forall v, asString (params !! "clonespeed") = Some v -> v <> "" ->
      (forall n, Atoi v = (n, None) -> (1 <= n <= 4)%Z ->
         getCloneSpeed params w = (Ok (<["clonespeed" := VInt n]> params), w, [])) /\
      ((forall n, Atoi v = (n, None) -> ~ (1 <= n <= 4)%Z) ->
         getCloneSpeed params w
         = (Err (errorsNew ("error config " +:+ v +:+ " for clonespeed")), w, []) /\
         Create p params w
         = (Err (errorsNew ("error config " +:+ v +:+ " for clonespeed")), w, []))) /\
   (asString (params !! "clonespeed") = None \/
    asString (params !! "clonespeed") = Some "" ->
    getCloneSpeed params w = (Ok (<["clonespeed" := VInt 3]> params), w, []))).
Proof.
  split; [|intros Hsrc; split].
  - intros Hsrc. unfold getCloneSpeed. fold (hasCloneSource params).
    rewrite Hsrc. reflexivity.
  - intros v Hv Hne. split.
    + intros n Hatoi Hrange. unfold getCloneSpeed. fold (hasCloneSource params).
      rewrite Hsrc, Hv. cbn [negb]. unfold nonEmpty.
      rewrite bool_decide_eq_false_2 by exact Hne. cbn [negb]. rewrite Hatoi.
      cbn [present orb].
      destruct (Z.ltb_spec n 1); [lia|]. destruct (Z.ltb_spec 4 n); [lia|].
      reflexivity.
    + intros Hbad. split; [apply getCloneSpeed_rejects; assumption|].
      unfold Create, preCreate, commonPreCreate. cbn [runAnalyzers].
      rewrite !bind_assoc.
      destruct (getAllocType_run params w) as [a Ha].
      rewrite (bind_ok _ _ _ _ _ _ Ha). rewrite !bind_assoc.
      rewrite (bind_err _ _ _ _ _ _
                 (getCloneSpeed_rejects (<["alloctype" := VInt a]> params) v w
                    ltac:(rewrite hasCloneSource_alloctype; exact Hsrc)
                    ltac:(rewrite lookup_insert_ne by discriminate; exact Hv)
                    Hne Hbad)).
      reflexivity.
  - intros Hv. unfold getCloneSpeed. fold (hasCloneSource params).
    rewrite Hsrc. cbn [negb]. destruct Hv as [-> | ->]; reflexivity.
Qed.

(** *** C1: replication and hypermetro at once *)

(** The parameters the normalization reads but never writes. *)
Definition sameInputs (params params' : Map) : Prop :=
  params' !! "replication" = params !! "replication" /\
  params' !! "hypermetro" = params !! "hypermetro" /\
  params' !! "storagepool" = params !! "storagepool" /\
  params' !! "applicationtype" = params !! "applicationtype".

Lemma sameInputs_refl (params : Map) : sameInputs params params.
Proof. repeat split. Qed.

Lemma sameInputs_trans (a b c : Map) :
  sameInputs a b -> sameInputs b c -> sameInputs a c.
Proof.
  intros (H1 & H2 & H3 & H4) (G1 & G2 & G3 & G4).
  repeat split; congruence.
Qed.

Lemma sameInputs_insert (params : Map) (k : string) (v : Value) :
  k <> "replication" -> k <> "hypermetro" -> k <> "storagepool" ->
  k <> "applicationtype" ->
  sameInputs params (<[k := v]> params).
Proof. intros. repeat split; apply lookup_insert_ne; assumption. Qed.

Ltac same_insert := apply sameInputs_insert; discriminate.

Lemma getCloneSpeed_pure (params : Map) (w : W) :
  calls (getCloneSpeed params w) = [] /\
  forall params', result (getCloneSpeed params w) = Ok params' ->
                  sameInputs params params'.
Proof.
  unfold getCloneSpeed.
  destruct (negb _); [split; [reflexivity|intros ? [= <-]; apply sameInputs_refl]|].
  destruct (asString (params !! "clonespeed")) as [v|];
    [|split; [reflexivity|intros ? [= <-]; same_insert]].
  destruct (nonEmpty v); [|split; [reflexivity|intros ? [= <-]; same_insert]].
  destruct (Atoi v) as [speed err].
  destruct (_ || _); split; try reflexivity; [discriminate|].
  intros ? [= <-]. same_insert.
Qed.

Lemma getPoolID_spec (params : Map) (w : W) :
  (calls (getPoolID p params w) = [] /\ isErr (result (getPoolID p params w)) = true) \/
  (exists poolName,
      asString (params !! "storagepool") = Some poolName /\
      calls (getPoolID p params w) = [OnObj Local (GetPoolByName poolName)] /\
      forall params', result (getPoolID p params w) = Ok params' ->
                      sameInputs params params').
Proof.
  unfold getPoolID.
  destruct (asString (params !! "storagepool")) as [poolName|]; [|left; split; reflexivity].
  destruct (nonEmpty poolName); [|left; split; reflexivity].
  right. exists poolName. split; [reflexivity|].
  rewrite calls_bind, result_bind, callObj_calls.
  destruct (callObj p Local (GetPoolByName poolName) w) as [[[[pool|]|e|] w1] t1];
    unfold result, worldOf; simpl; try (split; [reflexivity|discriminate]).
  destruct (asString (pool !! "ID")) as [id|]; simpl.
  - split; [reflexivity|]. intros ? [= <-]. same_insert.
  - split; [reflexivity|discriminate].
Qed.

Lemma getQoS_pure (params : Map) (w : W) :
  calls (getQoS p params w) = [] /\
  worldOf (getQoS p params w) = w /\
  forall params', result (getQoS p params w) = Ok params' -> sameInputs params params'.
Proof.
  unfold getQoS.
  destruct (asString (params !! "qos")) as [v|];
    [|split; [|split]; try reflexivity; intros ? [= <-]; apply sameInputs_refl].
  destruct (nonEmpty v);
    [|split; [|split]; try reflexivity; intros ? [= <-]; apply sameInputs_refl].
  destruct (ExtractQoSParameters (product p) v) as [e|qos];
    [split; [|split]; try reflexivity; discriminate|].
  destruct (ValidateQoSParameters (product p) qos) as [e|validatedQos];
    [split; [|split]; try reflexivity; discriminate|].
  split; [|split]; try reflexivity. intros ? [= <-]. same_insert.
Qed.

Lemma getWorkLoadIDByName_calls (app : string) (w : W) :
  calls (getWorkLoadIDByName p Local app w)
  = [OnStr Local (GetApplicationTypeByName app)].
Proof.
  unfold getWorkLoadIDByName. rewrite calls_bind, callStr_calls.
  destruct (callStr p Local (GetApplicationTypeByName app) w) as [[[id|e|] w1] t1];
    unfold result, worldOf; simpl; try reflexivity.
  destruct (nonEmpty id); reflexivity.
Qed.

Lemma setWorkLoadID_spec (params : Map) (w : W) :
  (asString (params !! "applicationtype") = None /\
   setWorkLoadID p Local params w = (Ok params, w, [])) \/
  (exists app,
      asString (params !! "applicationtype") = Some app /\
      calls (setWorkLoadID p Local params w)
      = [OnStr Local (GetApplicationTypeByName app)] /\
      forall params', result (setWorkLoadID p Local params w) = Ok params' ->
                      sameInputs params params').
Proof.
  unfold setWorkLoadID.
  destruct (asString (params !! "applicationtype")) as [app|]; [|left; split; reflexivity].
  right. exists app. split; [reflexivity|].
  rewrite calls_bind, result_bind, getWorkLoadIDByName_calls.
  destruct (getWorkLoadIDByName p Local app w) as [[[id|e|] w1] t1];
    unfold result, worldOf; simpl; split; try reflexivity; try discriminate.
  intros ? [= <-]. same_insert.
Qed.

(** The traces [preCreate] can leave: nothing, the lookup of the storage
    pool, or that lookup followed by the lookup of the application type. *)
Definition preCreateCalls (params : Map) (t : list Call) : Prop :=
  t = [] \/
  exists poolName,
    asString (params !! "storagepool") = Some poolName /\
    (t = [OnObj Local (GetPoolByName poolName)] \/
     exists app,
       asString (params !! "applicationtype") = Some app /\
       t = [OnObj Local (GetPoolByName poolName);
            OnStr Local (GetApplicationTypeByName app)]).

Lemma preCreate_spec (params : Map) (w : W) :
  preCreateCalls params (calls (preCreate p params w)) /\
  forall params', result (preCreate p params w) = Ok params' ->
                  sameInputs params params'.
Proof.
  unfold preCreate, commonPreCreate. cbn [runAnalyzers]. rewrite !bind_assoc.
  (* getAllocType *)
  destruct (getAllocType_run params w) as [a Ha].
  rewrite (bind_ok _ _ _ _ _ _ Ha). cbn beta.
  rewrite calls_prepend, result_prepend. cbn [app].
  assert (S1 : sameInputs params (<["alloctype" := VInt a]> params)) by same_insert.
  set (params1 := <["alloctype" := VInt a]> params) in *. clearbody params1.
  (* getCloneSpeed *)
  rewrite !bind_assoc.
  destruct (getCloneSpeed_pure params1 w) as [C2 S2].
  run_step (getCloneSpeed params1 w); unfold calls, result in C2, S2; cbn in C2, S2;
    subst; try (split; [left; reflexivity|discriminate]).
  specialize (S2 _ eq_refl).
  pose proof (sameInputs_trans _ _ _ S1 S2) as S12. clear S1 S2. cbn [app].
  (* getPoolID *)
  rewrite !bind_assoc.
  destruct (getPoolID_spec a0 w0) as [[C3 E3]|(poolName & P3 & C3 & S3)].
  { run_step (getPoolID p a0 w0); unfold calls, result in C3, E3; cbn in C3, E3;
      subst; try discriminate.
    split; [left; reflexivity|discriminate]. }
  assert (Hpool : asString (params !! "storagepool") = Some poolName).
  { destruct S12 as (_ & _ & <- & _). exact P3. }
  assert (Hone : preCreateCalls params [OnObj Local (GetPoolByName poolName)]).
  { right. exists poolName. split; [exact Hpool|left; reflexivity]. }
  run_step (getPoolID p a0 w0); unfold calls, result in C3, S3; cbn in C3, S3;
    subst; try (split; [exact Hone|discriminate]).
  specialize (S3 _ eq_refl).
  pose proof (sameInputs_trans _ _ _ S12 S3) as S13. clear S12 S3.
  (* getQoS *)
  rewrite !bind_assoc.
  destruct (getQoS_pure a1 w1) as (C4 & _ & S4).
  run_step (getQoS p a1 w1); unfold calls, result in C4, S4; cbn in C4, S4;
    subst; try (split; [exact Hone|discriminate]).
  specialize (S4 _ eq_refl).
  pose proof (sameInputs_trans _ _ _ S13 S4) as S14. clear S13 S4.
  rewrite bind_ret. cbn [app].
  (* params["name"].(string) *)
  destruct (asString (a2 !! "name")) as [name|]; cbn [must];
    [rewrite bind_ret|split; [exact Hone|discriminate]].
  (* setWorkLoadID *)
  match goal with
  | |- context [setWorkLoadID p Local ?m _] =>
      assert (S5 : sameInputs params m);
      [ eapply sameInputs_trans; [exact S14|];
        eapply sameInputs_trans; [apply (sameInputs_insert _ "name"); discriminate|];
        repeat (destruct (asString (_ !! _)));
        try (apply sameInputs_insert; discriminate); apply sameInputs_refl
      | set (params5 := m) in * ]
  end.
  clearbody params5.
  destruct (setWorkLoadID_spec params5 w2) as [[A6 R6]|(app & A6 & C6 & S6)].
  - rewrite R6. cbn [calls result snd fst app]. split; [exact Hone|].
    intros ? [= <-]. exact S5.
  - rewrite C6. split.
    + right. exists poolName. split; [exact Hpool|]. right. exists app.
      split; [|reflexivity]. destruct S5 as (_ & _ & _ & <-). exact A6.
    + intros params' Hok. eapply sameInputs_trans; [exact S5|]. apply S6. exact Hok.
Qed.

(** C1, as the code has it.  With both [replication=true] and
    [hypermetro=true], [Create] never returns a volume: it fails with the
    error of the mirror conflict once the normalization of [preCreate] has
    passed, and with the failure of the normalization otherwise.  The
    failure comes after [preCreate], so the array may have been called by
    then, but only through the lookups of the storage pool and of the
    application type: no method that changes the array is called. *)
Theorem Create_mirror_conflict (params : Map) (w : W) :
  asBool (params !! "replication") = Some true ->
  asBool (params !! "hypermetro") = Some true ->
  (forall vol, result (Create p params w) <> Ok vol) /\
  (forall params', result (preCreate p params w) = Ok params' ->
     result (Create p params w) = Err (errorsNew mirrorConflictMsg)) /\
  calls (Create p params w) = calls (preCreate p params w) /\
  preCreateCalls params (calls (Create p params w)) /\
  Forall (fun c => isRead c = true) (calls (Create p params w)).
Proof.
  intros Hrep Hmetro.
  destruct (preCreate_spec params w) as [Hcalls Hsame].
  assert (Hrun : result (Create p params w)
                 = match result (preCreate p params w) with
                   | Ok _ => Err (errorsNew mirrorConflictMsg)
                   | Err e => Err e
                   | Panic => Panic
                   end /\
                 calls (Create p params w) = calls (preCreate p params w)).
  { unfold Create. rewrite result_bind, calls_bind.
    destruct (preCreate p params w) as [[[params'|e|] w1] t1];
      unfold result, worldOf, calls in *; cbn [fst snd] in *;
      rewrite ?app_nil_r; try (split; reflexivity).
    destruct (Hsame params' eq_refl) as (-> & -> & _).
    rewrite Hrep, Hmetro. cbn. rewrite app_nil_r. split; reflexivity. }
  destruct Hrun as [Hres Htrace].
  split; [|split; [|split; [exact Htrace|split]]].
  - intros vol. rewrite Hres. destruct (result (preCreate p params w)); discriminate.
  - intros params' Hok. rewrite Hres, Hok. reflexivity.
  - rewrite Htrace. exact Hcalls.
  - rewrite Htrace.
    destruct Hcalls as [->|(poolName & _ & [->|(app & _ & ->)])];
      repeat constructor.
Qed.

(** *** C2: the order of a clone to a larger LUN *)







(** *** C6: what CreateSnapshot returns *)

(** The map [getSnapshotReturnInfo] builds. *)
Definition snapshotInfo (timestamp : string) (snapshotSize : Z) (parentID : string)
  : Map :=
  <["CreationTime" := VInt64 (ParseInt timestamp).1]>
  (<["SizeBytes" := VInt64 (mul64 snapshotSize 512)]>
   (<["ParentID" := VStr parentID]> ∅)).

Lemma getSnapshotReturnInfo_run (snapshot : Obj) (snapshotSize : Z)
  (timestamp parentID : string) (w : W) :
  asString (snapshot !! "TIMESTAMP") = Some timestamp ->
  asString (snapshot !! "PARENTID") = Some parentID ->
  getSnapshotReturnInfo snapshot snapshotSize w
  = (Ok (snapshotInfo timestamp snapshotSize parentID), w, []).
Proof.
  intros Hts Hpid. unfold getSnapshotReturnInfo.
  rewrite Hts. cbn [must]. rewrite bind_ret, Hpid. cbn [must]. rewrite bind_ret.
  reflexivity.
Qed.

Lemma getSnapshotReturnInfo_inv (snapshot : Obj) (snapshotSize : Z) (r : Map)
  (w w' : W) (t : list Call) :
  getSnapshotReturnInfo snapshot snapshotSize w = (Ok r, w', t) ->
  exists timestamp parentID,
    asString (snapshot !! "TIMESTAMP") = Some timestamp /\
    asString (snapshot !! "PARENTID") = Some parentID /\
    r = snapshotInfo timestamp snapshotSize parentID.
Proof.
  unfold getSnapshotReturnInfo.
  destruct (asString (snapshot !! "TIMESTAMP")) as [timestamp|]; [|discriminate].
  destruct (asString (snapshot !! "PARENTID")) as [parentID|] eqn:Hpid.
  - cbn [must]. rewrite !bind_ret. intros Hr. apply ret_inv in Hr as (-> & _ & _).
    exists timestamp, parentID. auto.
  - cbn [must]. rewrite bind_ret. discriminate.
Qed.

(** A successful [createSnapshot] step reports the [USERCAPACITY] of the
    snapshot the array created. *)
Lemma createSnapshot_inv (params taskResult delta : Map) (w w' : W) (t : list Call) :
  createSnapshot p params taskResult w = (Ok delta, w', t) ->
  exists lunID snapshotName created capacity w0,
    asString (params !! "lunID") = Some lunID /\
    asString (params !! "snapshotName") = Some snapshotName /\
    (askObj (cli p) (CreateLunSnapshot snapshotName lunID) w0).1 = inr (Some created) /\
    asString (created !! "USERCAPACITY") = Some capacity /\
    delta !! "snapshotSize" = Some (VStr capacity).
Proof.
  unfold createSnapshot. intros Hrun.
  apply bind_inv_ok in Hrun as (lunID & w1 & t1 & t1' & H1 & Hrun & ->).
  apply must_inv_ok in H1 as (HlunID & -> & ->).
  apply bind_inv_ok in Hrun as (snapshotName & w2 & t2 & t2' & H2 & Hrun & ->).
  apply must_inv_ok in H2 as (Hname & -> & ->).
  apply bind_inv_ok in Hrun as (created & w3 & t3 & t3' & H3 & Hrun & ->).
  apply callObj_inv in H3 as [Hcreate ->].
  apply bind_inv_ok in Hrun as ([] & w4 & t4 & t4' & _ & Hrun & ->).
  apply bind_inv_ok in Hrun as (snapshotId & w5 & t5 & t5' & H5 & Hrun & ->).
  apply must_inv_ok in H5 as (Hid & -> & ->).
  apply bind_inv_ok in Hrun as (capacity & w6 & t6 & t6' & H6 & Hrun & ->).
  apply must_inv_ok in H6 as (Hcap & -> & ->).
  apply ret_inv in Hrun as (-> & _ & _).
  destruct created as [created|]; [|discriminate].
  exists lunID, snapshotName, created, capacity, w. repeat split; try assumption.
  rewrite Hcreate. reflexivity.
Qed.

Lemma activateSnapshot_inv (params taskResult delta : Map) (w w' : W) (t : list Call) :
  activateSnapshot p params taskResult w = (Ok delta, w', t) -> delta = ∅.
Proof.
  unfold activateSnapshot. intros Hrun.
  apply bind_inv_ok in Hrun as (id & w1 & t1 & t1' & _ & Hrun & ->).
  apply bind_inv_ok in Hrun as ([] & w2 & t2 & t2' & _ & Hrun & ->).
  apply ret_inv in Hrun as (-> & _ & _). reflexivity.
Qed.

Lemma keeping_inv (f : Map -> Map -> M W Call Map) (params taskResult : Map)
  (r : Map * Map) (w w' : W) (t : list Call) :
  keeping f params taskResult w = (Ok r, w', t) ->
  r.1 = params /\ f params taskResult w = (Ok r.2, w', t).
Proof.
  unfold keeping. intros Hrun.
  apply bind_inv_ok in Hrun as (d & w1 & t1 & t1' & Hf & Hrun & ->).
  apply ret_inv in Hrun as (-> & -> & ->). rewrite app_nil_r. auto.
Qed.

(** C6.  When a snapshot of the requested name exists and its [PARENTID] is
    the ID of the parent LUN, [CreateSnapshot] returns its attributes after
    the two lookups, creating nothing; when it exists with another parent,
    [CreateSnapshot] fails; and every successful result is the map
    [{CreationTime, SizeBytes, ParentID}] with the [TIMESTAMP] of the
    snapshot the array reports under that name read as a number, its
    [PARENTID], and 512 times the [USERCAPACITY] of the snapshot (the
    existing one, or the one the array just created), in int64 arithmetic. *)
Theorem CreateSnapshot_spec (lunName snapshotName : string) (w : W) :
  (forall lun lunId snapshot w1 w2,
      askObj (cli p) (GetLunByName lunName) w = (inr (Some lun), w1) ->
      asString (lun !! "ID") = Some lunId ->
      askObj (cli p) (GetLunSnapshotByName snapshotName) w1
      = (inr (Some snapshot), w2) ->
      (forall timestamp capacity,
          asString (snapshot !! "PARENTID") = Some lunId ->
          asString (snapshot !! "USERCAPACITY") = Some capacity ->
          asString (snapshot !! "TIMESTAMP") = Some timestamp ->
          CreateSnapshot p lunName snapshotName w
          = (Ok (snapshotInfo timestamp (ParseInt capacity).1 lunId), w2,
             [OnObj Local (GetLunByName lunName);
              OnObj Local (GetLunSnapshotByName snapshotName)])) /\
      (forall parent,
          asString (snapshot !! "PARENTID") = Some parent ->
          parent <> lunId ->
          CreateSnapshot p lunName snapshotName w
          = (Err (errorsNew (snapshotConflictMsg lunName snapshotName)), w2,
             [OnObj Local (GetLunByName lunName);
              OnObj Local (GetLunSnapshotByName snapshotName)]))) /\
  (forall r,
      result (CreateSnapshot p lunName snapshotName w) = Ok r ->
      exists snapshot sized timestamp capacity parent,
        asString (snapshot !! "TIMESTAMP") = Some timestamp /\
        asString (snapshot !! "PARENTID") = Some parent /\
        asString (sized !! "USERCAPACITY") = Some capacity /\
        r = snapshotInfo timestamp (ParseInt capacity).1 parent /\
        r !! "SizeBytes" = Some (VInt64 (wrap64 ((ParseInt capacity).1 * 512))) /\
        (exists w0, (askObj (cli p) (GetLunSnapshotByName snapshotName) w0).1
                    = inr (Some snapshot)) /\
        (sized = snapshot \/
         exists lunId w0, (askObj (cli p) (CreateLunSnapshot snapshotName lunId) w0).1
                          = inr (Some sized))).
Proof.
  split.
  - intros lun lunId snapshot w1 w2 Hlun Hid Hsnap.
    assert (Hstart : CreateSnapshot p lunName snapshotName w
                     = prepend [OnObj Local (GetLunByName lunName)]
                         (prepend [OnObj Local (GetLunSnapshotByName snapshotName)]
                            ((snapshotParentId <- must (asString (snapshot !! "PARENTID")) ;;
                              if negb (bool_decide (snapshotParentId = lunId))
                              then throw (errorsNew (snapshotConflictMsg lunName snapshotName))
                              else
                                capacity <- must (asString (snapshot !! "USERCAPACITY")) ;;
                                getSnapshotReturnInfo snapshot (ParseInt capacity).1)%go w2))).
    { unfold CreateSnapshot.
      rewrite (bind_ok _ _ _ _ _ _ (callObj_run _ _ _ _ Hlun)).
      rewrite Hid. cbn [must]. rewrite bind_ret.
      rewrite (bind_ok _ _ _ _ _ _ (callObj_run _ _ _ _ Hsnap)). reflexivity. }
    rewrite Hstart. split.
    + intros timestamp capacity Hpid Hcap Hts.
      rewrite Hpid. cbn [must]. rewrite bind_ret.
      rewrite bool_decide_eq_true_2 by reflexivity. cbn [negb].
      rewrite Hcap. cbn [must]. rewrite bind_ret.
      rewrite (getSnapshotReturnInfo_run _ _ _ _ _ Hts Hpid). reflexivity.
    + intros parent Hpid Hne.
      rewrite Hpid. cbn [must]. rewrite bind_ret.
      rewrite bool_decide_eq_false_2 by exact Hne. reflexivity.
  - intros r Hok.
    destruct (CreateSnapshot p lunName snapshotName w) as [[r0 w'] t] eqn:Hrun.
    unfold result in Hok. cbn in Hok. subst r0.
    unfold CreateSnapshot in Hrun.
    apply bind_inv_ok in Hrun as (lun & w1 & t1 & t1' & Hlun & Hrun & ->).
    destruct lun as [lun|]; [|discriminate].
    apply bind_inv_ok in Hrun as (lunId & w2 & t2 & t2' & H2 & Hrun & ->).
    apply must_inv_ok in H2 as (HlunId & -> & ->).
    apply bind_inv_ok in Hrun as (snapshot & w3 & t3 & t3' & Hsnap & Hrun & ->).
    apply callObj_inv in Hsnap as [Hsnap _].
    destruct snapshot as [snapshot|].
    + apply bind_inv_ok in Hrun as (parent & w4 & t4 & t4' & H4 & Hrun & ->).
      apply must_inv_ok in H4 as (Hparent & -> & ->).
      destruct (negb _); [discriminate|].
      apply bind_inv_ok in Hrun as (capacity & w5 & t5 & t5' & H5 & Hrun & ->).
      apply must_inv_ok in H5 as (Hcap & -> & ->).
      apply getSnapshotReturnInfo_inv in Hrun as (timestamp & parentID & Hts & Hpid & ->).
      exists snapshot, snapshot, timestamp, capacity, parentID.
      repeat split; try assumption.
      * exists w1. rewrite Hsnap. reflexivity.
      * left. reflexivity.
    + apply bind_inv_ok in Hrun as (ran & w4 & t4 & t4' & Hflow & Hrun & ->).
      destruct ran as [[flow params'] [err|result]].
      { apply bind_inv_ok in Hrun as (? & ? & ? & ? & _ & Hk & _). discriminate. }
      apply bind_inv_ok in Hrun as (snapshot & w5 & t5 & t5' & Hsnap2 & Hrun & ->).
      apply callObj_inv in Hsnap2 as [Hsnap2 _].
      apply bind_inv_ok in Hrun as (capacity & w6 & t6 & t6' & H6 & Hrun & ->).
      apply must_inv_ok in H6 as (Hsize & -> & ->).
      apply getSnapshotReturnInfo_inv in Hrun as (timestamp & parentID & Hts & Hpid & ->).
      destruct snapshot as [snapshot|]; [|discriminate].
      (* the flow: Create-Snapshot, then Active-Snapshot *)
      unfold Run, AddTask, NewTaskFlow in Hflow. cbn [tasks flowResult app] in Hflow.
      apply bind_inv_ok in Hflow as (ranTasks & w7 & t7 & t7' & Htasks & Hflow & ->).
      destruct ranTasks as [[[ts ps] res] e].
      apply ret_inv in Hflow as (Hflow & _ & _).
      injection Hflow as _ _ Hres.
      destruct e as [e|]; [discriminate|]. injection Hres as <-.
      cbn [runTasks taskRun taskName] in Htasks.
      apply bind_inv_ok in Htasks as (r1 & w8 & t8 & t8' & Hfirst & Htasks & ->).
      destruct r1 as [err|[params1 delta1]].
      { apply ret_inv in Htasks as (Hbad & _ & _). discriminate. }
      apply attempt_inv in Hfirst. apply keeping_inv in Hfirst as [_ Hfirst].
      cbn [snd] in Hfirst.
      apply createSnapshot_inv in Hfirst
        as (lunID & name & created & cap & w0 & _ & Hname & Hcreate & Hcap & Hdelta).
      rewrite lookup_insert_ne in Hname by discriminate.
      rewrite lookup_insert_eq in Hname. injection Hname as <-.
      apply bind_inv_ok in Htasks as (r2 & w9 & t9 & t9' & Hsecond & Htasks & ->).
      destruct r2 as [[[ts2 ps2] res2] e2].
      apply ret_inv in Htasks as (Hres & _ & _). injection Hres as _ _ <- <-.
      apply bind_inv_ok in Hsecond as (r3 & w10 & t10 & t10' & Hact & Hsecond & ->).
      destruct r3 as [err|[params2 delta2]].
      { apply ret_inv in Hsecond as (Hbad & _ & _). discriminate. }
      apply attempt_inv in Hact. apply keeping_inv in Hact as [_ Hact].
      cbn [snd] in Hact. apply activateSnapshot_inv in Hact as ->.
      apply bind_inv_ok in Hsecond as (r4 & w11 & t11 & t11' & Hnil & Hsecond & ->).
      apply ret_inv in Hnil as (-> & _ & _).
      apply ret_inv in Hsecond as (Hres & _ & _). injection Hres as _ _ ->.
      rewrite (left_id_L ∅ (∪)), (right_id_L ∅ (∪)) in Hsize.
      rewrite Hdelta in Hsize. cbn in Hsize. injection Hsize as <-.
      exists snapshot, created, timestamp, cap, parentID.
      repeat split; try assumption.
      * exists w4. rewrite Hsnap2. reflexivity.
      * right. exists lunID, w0. exact Hcreate.
Qed.

End Calls.

(** *** The claims on the sample array *)

Import SampleArray.

Lemma wait_predicates_on_nil_witness :
  result (lunCopyFinished dorado "7" emptyArray) = Ok true /\
  result (hyperMetroSyncFinished dorado "7" emptyArray)
  = Err (errorsNew "Something wrong with hypermetro pair 7") /\
  result (snapshotReady dorado "7" emptyArray)
  = Err (errorsNew "Something wrong with snapshot 7").
Proof.
  destruct (wait_predicates_on_nil dorado "7" emptyArray emptyArray)
    as (_ & Hcopy & Hmetro & Hsnap).
  rewrite (Hcopy eq_refl), (Hmetro eq_refl), (Hsnap eq_refl).
  repeat split.
Defined.

(** On the sample array no hypermetro pair exists: the fetch returns nil and
    the predicate of the hypermetro wait does not report success. *)
Lemma hyperMetro_wait_nil_is_error :
  askObj (cli dorado) (GetHyperMetroPair "7") emptyArray = (inr None, emptyArray) /\
  result (hyperMetroSyncFinished dorado "7" emptyArray) <> Ok true /\
  (forall done, result (hyperMetroSyncFinished dorado "7" emptyArray) <> Ok done).
Proof.
  split; [reflexivity|]. split; vm_compute; intros; discriminate.
Qed.

Lemma Expand_rejects_not_larger_witness :
  result (Expand dorado "s0" GiB arrayWithS0)
  = Ok (false, Some (errorsNew (expandTooSmallMsg "s0" GiB GiB))).
Proof.
  rewrite (Expand_rejects_not_larger dorado "s0" "1073741824" GiB
             (newLun "s0" GiB) arrayWithS0 arrayWithS0).
  - reflexivity.
  - vm_compute. reflexivity.
  - vm_compute. reflexivity.
  - vm_compute. discriminate.
Defined.

Definition cloneParams (speed : string) : Map :=
  <["name" := VStr "v2"]>
  (<["storagepool" := VStr "P1"]>
   (<["capacity" := VInt64 (2 * GiB)]>
    (<["clonefrom" := VStr "s0"]>
     (<["clonespeed" := VStr speed]> ∅)))).

Lemma getCloneSpeed_spec_witness :
  Create dorado (cloneParams "5") arrayWithS0
  = (Err (errorsNew "error config 5 for clonespeed"), arrayWithS0, []).
Proof.
  refine (proj2 (proj2 (proj1 (proj2 (getCloneSpeed_spec dorado (cloneParams "5")
                                        arrayWithS0) eq_refl)
                          "5" eq_refl ltac:(discriminate)) _)).
  intros n [= <-]. vm_compute. intros [_ Hle]. apply Hle. reflexivity.
Defined.

Example getCloneSpeed_plus_two :
  result (getCloneSpeed (cloneParams "+2") arrayWithS0)
  = Ok (<["clonespeed" := VInt 2]> (cloneParams "+2")).
Proof. vm_compute. reflexivity. Qed.

(** The name of the method of a call, to read traces. *)
Definition methodOf (c : Call) : string :=
  match c with
  | OnObj _ r =>
      match r with
      | GetPoolByName _ => "GetPoolByName"
      | GetLunByName _ => "GetLunByName"
      | GetLunByID _ => "GetLunByID"
      | CreateLun _ => "CreateLun"
      | GetLunSnapshotByName _ => "GetLunSnapshotByName"
      | CreateLunSnapshot _ _ => "CreateLunSnapshot"
      | SmartXCreateLunSnapshot _ _ => "smartx.CreateLunSnapshot"
      | CreateClonePair _ _ _ => "CreateClonePair"
      | GetClonePairInfo _ => "GetClonePairInfo"
      | GetLunCopyByName _ => "GetLunCopyByName"
      | GetLunCopyByID _ => "GetLunCopyByID"
      | CreateLunCopy _ _ _ _ => "CreateLunCopy"
      | GetHyperMetroPairByLocalObjID _ => "GetHyperMetroPairByLocalObjID"
      | GetHyperMetroPair _ => "GetHyperMetroPair"
      | CreateHyperMetroPair _ => "CreateHyperMetroPair"
      | GetHyperMetroDomainByName _ => "GetHyperMetroDomainByName"
      | CreateReplicationPair _ => "CreateReplicationPair"
      | GetRemoteDeviceBySN _ => "GetRemoteDeviceBySN"
      | GetSystem => "GetSystem"
      end
  | OnErr _ r =>
      match r with
      | DeleteLun _ => "DeleteLun"
      | ExtendLun _ _ => "ExtendLun"
      | ActivateLunSnapshot _ => "ActivateLunSnapshot"
      | DeactivateLunSnapshot _ => "DeactivateLunSnapshot"
      | DeleteLunSnapshot _ => "DeleteLunSnapshot"
      | SmartXDeleteLunSnapshot _ => "smartx.DeleteLunSnapshot"
      | SyncClonePair _ => "SyncClonePair"
      | DeleteClonePair _ => "DeleteClonePair"
      | StartLunCopy _ => "StartLunCopy"
      | StopLunCopy _ => "StopLunCopy"
      | DeleteLunCopy _ => "DeleteLunCopy"
      | SyncHyperMetroPair _ => "SyncHyperMetroPair"
      | StopHyperMetroPair _ => "StopHyperMetroPair"
      | DeleteHyperMetroPair _ _ => "DeleteHyperMetroPair"
      | SyncReplicationPair _ => "SyncReplicationPair"
      | SplitReplicationPair _ => "SplitReplicationPair"
      | DeleteReplicationPair _ => "DeleteReplicationPair"
      | SmartXDeleteQos _ _ _ _ => "smartx.DeleteQos"
      end
  | OnStr _ r =>
      match r with
      | GetApplicationTypeByName _ => "GetApplicationTypeByName"
      | SmartXCreateQos _ _ _ _ => "smartx.CreateQos"
      end
  | OnList _ r =>
      match r with GetReplicationPairByResID _ _ => "GetReplicationPairByResID" end
  end.

(** The third scenario of the specification: both mirrors requested. *)
Definition conflictParams : Map :=
  <["replication" := VBool true]>
  (<["hypermetro" := VBool true]>
   (<["name" := VStr "v1"]>
    (<["storagepool" := VStr "P1"]>
     (<["capacity" := VInt64 GiB]> ∅)))).

Lemma Create_mirror_conflict_witness :
  result (Create dorado conflictParams emptyArray) = Err (errorsNew mirrorConflictMsg).
Proof.
  assert (Hrep : asBool (conflictParams !! "replication") = Some true)
    by (vm_compute; reflexivity).
  assert (Hmetro : asBool (conflictParams !! "hypermetro") = Some true)
    by (vm_compute; reflexivity).
  assert (Hpre : isOk (result (preCreate dorado conflictParams emptyArray)) = true)
    by (vm_compute; reflexivity).
  apply GoFacts.isOk_true in Hpre as [params' Hpre].
  destruct (Create_mirror_conflict dorado conflictParams emptyArray Hrep Hmetro)
    as (_ & Herr & _).
  exact (Herr params' Hpre).
Defined.

(** With both mirrors requested the failure comes after the lookup of the
    storage pool: the array has been called. *)
Lemma Create_conflict_calls_the_array :
  asBool (conflictParams !! "replication") = Some true /\
  asBool (conflictParams !! "hypermetro") = Some true /\
  calls (Create dorado conflictParams emptyArray) = [OnObj Local (GetPoolByName "P1")] /\
  calls (Create dorado conflictParams emptyArray) <> [].
Proof.
  split; [vm_compute; reflexivity|]. split; [vm_compute; reflexivity|].
  split; [vm_compute; reflexivity|]. vm_compute. discriminate.
Qed.




(** An array that holds [s0] and its snapshot [snap1]. *)
Definition arrayWithSnap : array :=
  {| luns := {[ "s0" := newLun "s0" GiB ]};
     snapshots := {[ "snap1" := newSnapshot "snap1" "s0" ]} |}.

Lemma CreateSnapshot_spec_witness :
  CreateSnapshot dorado "s0" "snap1" arrayWithSnap
  = (Ok (snapshotInfo "1700000000" 2097152 "s0"), arrayWithSnap,
     [OnObj Local (GetLunByName "s0"); OnObj Local (GetLunSnapshotByName "snap1")]).
Proof.
  assert (Hlun : askObj (cli dorado) (GetLunByName "s0") arrayWithSnap
                 = (inr (Some (newLun "s0" GiB)), arrayWithSnap))
    by (vm_compute; reflexivity).
  assert (Hid : asString (newLun "s0" GiB !! "ID") = Some "s0")
    by (vm_compute; reflexivity).
  assert (Hsnap : askObj (cli dorado) (GetLunSnapshotByName "snap1") arrayWithSnap
                  = (inr (Some (newSnapshot "snap1" "s0")), arrayWithSnap))
    by (vm_compute; reflexivity).
  assert (Hpid : asString (newSnapshot "snap1" "s0" !! "PARENTID") = Some "s0")
    by (vm_compute; reflexivity).
  assert (Hcap : asString (newSnapshot "snap1" "s0" !! "USERCAPACITY") = Some "2097152")
    by (vm_compute; reflexivity).
  assert (Hts : asString (newSnapshot "snap1" "s0" !! "TIMESTAMP") = Some "1700000000")
    by (vm_compute; reflexivity).
  destruct (CreateSnapshot_spec dorado "s0" "snap1" arrayWithSnap) as [Hexists _].
  destruct (Hexists _ _ _ _ _ Hlun Hid Hsnap) as [Hsame _].
  exact (Hsame "1700000000" "2097152" Hpid Hcap Hts).
Defined.

(** A snapshot of 2097152 sectors is reported as 1 GiB. *)
Example snapshotInfo_size :
  snapshotInfo "1700000000" 2097152 "s0" !! "SizeBytes" = Some (VInt64 GiB).
Proof. vm_compute. reflexivity. Qed.

(** A snapshot that does not exist yet is created, waited for and activated,
    and its attributes are read back. *)
Example CreateSnapshot_creates :
  map methodOf (calls (CreateSnapshot dorado "s0" "snap2" arrayWithSnap))
  = ["GetLunByName"; "GetLunSnapshotByName"; "CreateLunSnapshot";
     "GetLunSnapshotByName"; "ActivateLunSnapshot"; "GetLunSnapshotByName"] /\
  result (CreateSnapshot dorado "s0" "snap2" arrayWithSnap)
  = Ok (snapshotInfo "1700000000" 2097152 "s0").
Proof. split; vm_compute; reflexivity. Qed.

End VolumeSpec.

(** ** What a computation may call *)

Module Traces.

Import MonadFacts.

Section Only.

Context {W E : Type}.
Variable P : E -> Prop.

(** Every call the computation makes, in whatever world it starts and
    however it ends, satisfies [P]. *)
Definition only {A} (m : M W E A) : Prop := forall w, Forall P (calls (m w)).

Lemma only_ret {A} (a : A) : only (ret a).
Proof. intros w. constructor. Qed.

Lemma only_throw {A} (e : error) : only (@throw W E A e).
Proof. intros w. constructor. Qed.

Lemma only_panic {A} : only (@panic W E A).
Proof. intros w. constructor. Qed.

Lemma only_must {A} (o : option A) : only (must o).
Proof. destruct o; [apply only_ret|apply only_panic]. Qed.

Lemma only_bind {A B} (m : M W E A) (f : A -> M W E B) :
  only m -> (forall a, only (f a)) -> only (bind m f).
Proof.
  intros Hm Hf w. rewrite calls_bind. apply Forall_app. split; [apply Hm|].
  destruct (result (m w)); [apply Hf|constructor|constructor].
Qed.

Lemma only_attempt {A} (m : M W E A) : only m -> only (attempt m).
Proof. intros Hm w. rewrite calls_attempt. apply Hm. Qed.

Lemma only_ignore {A} (m : M W E A) : only m -> only (ignore m).
Proof. intros Hm w. rewrite calls_ignore. apply Hm. Qed.

Lemma only_perform {R} (ev : E) (f : W -> R * W) : P ev -> only (perform ev f).
Proof.
  intros Hev w. unfold perform, calls. destruct (f w). repeat constructor. exact Hev.
Qed.

Lemma only_liftErr {A} (m : M W E (error + A)) : only m -> only (liftErr m).
Proof.
  intros Hm. apply only_bind; [exact Hm|].
  intros [e|a]; [apply only_throw|apply only_ret].
Qed.

Lemma only_liftErr0 (m : M W E (option error)) : only m -> only (liftErr0 m).
Proof.
  intros Hm. apply only_bind; [exact Hm|].
  intros [e|]; [apply only_throw|apply only_ret].
Qed.

End Only.

(** A weaker requirement on the calls is met as well. *)
Lemma only_weaken {W E A} (P Q : E -> Prop) (m : M W E A) :
  (forall c, P c -> Q c) -> only P m -> only Q m.
Proof. intros HPQ Hm w. eapply Forall_impl; [apply Hm|exact HPQ]. Qed.

End Traces.

(** ** The task-flow engine, step by step *)

Module FlowFacts.

Import Volume MonadFacts.

Section Engine.

Context {W : Type} `{Env}.

Lemma keeping_run (f : Map -> Map -> M W Call Map) (params taskResult d : Map)
  (w w' : W) (t : list Call) :
  f params taskResult w = (Ok d, w', t) ->
  keeping f params taskResult w = (Ok (params, d), w', t).
Proof.
  intros Hf. unfold keeping. rewrite (bind_ok _ _ _ _ _ _ Hf).
  unfold prepend, ret. rewrite app_nil_r. reflexivity.
Qed.

Lemma keeping_fail (f : Map -> Map -> M W Call Map) (params taskResult : Map)
  (e : error) (w w' : W) (t : list Call) :
  f params taskResult w = (Err e, w', t) ->
  keeping f params taskResult w = (Err e, w', t).
Proof. intros Hf. unfold keeping. apply bind_err, Hf. Qed.

Lemma runTasks_nil (params taskResult : Map) (w : W) :
  runTasks (W := W) [] params taskResult w = (Ok ([], params, taskResult, None), w, []).
Proof. reflexivity. Qed.

(** A step that fails stops the flow: the steps after it are not run. *)
Lemma runTasks_fail (task : @Task W) (rest : list Task) (params taskResult : Map)
  (e : error) (w w' : W) (t : list Call) :
  taskRun task params taskResult w = (Err e, w', t) ->
  runTasks (task :: rest) params taskResult w
  = (Ok (task :: rest, params, taskResult, Some (TaskFailed (taskName task) e)), w', t).
Proof.
  intros Htask. cbn [runTasks].
  rewrite (bind_ok _ _ _ _ _ _ (attempt_err _ _ _ _ _ Htask)).
  unfold prepend, ret. rewrite app_nil_r. reflexivity.
Qed.

(** A step that succeeds hands its parameters and its delta, merged over
    the accumulated result, to the steps after it. *)
Lemma runTasks_step (task : @Task W) (rest rest' : list Task)
  (params params' delta taskResult ps res : Map) (e : option error)
  (w w1 w2 : W) (t1 t2 : list Call) :
  taskRun task params taskResult w = (Ok (params', delta), w1, t1) ->
  runTasks rest params' (delta ∪ taskResult) w1 = (Ok (rest', ps, res, e), w2, t2) ->
  runTasks (task :: rest) params taskResult w
  = (Ok (markFinished task :: rest', ps, res, e), w2, t1 ++ t2).
Proof.
  intros Htask Hrest. cbn [runTasks].
  rewrite (bind_ok _ _ _ _ _ _ (attempt_ok _ _ _ _ _ Htask)).
  cbn beta iota. rewrite (bind_ok _ _ _ _ _ _ Hrest).
  unfold prepend, ret. rewrite app_nil_r. reflexivity.
Qed.

Lemma Run_of (flow : @TaskFlow W) (params ps res : Map) (ts : list Task)
  (e : option error) (w w' : W) (t : list Call) :
  runTasks (tasks flow) params (flowResult flow) w = (Ok (ts, ps, res, e), w', t) ->
  Run flow params w
  = (Ok ({| flowName := flowName flow; tasks := ts; flowResult := res |}, ps,
         match e with Some err => inl err | None => inr res end), w', t).
Proof.
  intros Hrun. unfold Run. rewrite (bind_ok _ _ _ _ _ _ Hrun).
  unfold prepend, ret. rewrite app_nil_r. reflexivity.
Qed.




End Engine.

End FlowFacts.

(** ** Package volume: what the operations may call *)

Module VolumeCalls.

Import Volume MonadFacts Traces.

Section Allowed.

Context {W : Type} `{Env}.
Variable p : SAN W.

(** The calls an operation is allowed to make. *)
Variable ok : Call -> bool.

Definition allowed (c : Call) : Prop := ok c = true.

Lemma only_callObj (t : Tgt) (r : ObjReq) :
  ok (OnObj t r) = true -> only allowed (callObj p t r).
Proof.
  intros Hok. unfold callObj. destruct (clientOf p t); [|apply only_panic].
  apply only_liftErr, only_perform. exact Hok.
Qed.

Lemma only_callErr (t : Tgt) (r : ErrReq) :
  ok (OnErr t r) = true -> only allowed (callErr p t r).
Proof.
  intros Hok. unfold callErr. destruct (clientOf p t); [|apply only_panic].
  apply only_liftErr0, only_perform. exact Hok.
Qed.

Lemma only_callStr (t : Tgt) (r : StrReq) :
  ok (OnStr t r) = true -> only allowed (callStr p t r).
Proof.
  intros Hok. unfold callStr. destruct (clientOf p t); [|apply only_panic].
  apply only_liftErr, only_perform. exact Hok.
Qed.

Lemma only_callList (t : Tgt) (r : ListReq) :
  ok (OnList t r) = true -> only allowed (callList p t r).
Proof.
  intros Hok. unfold callList. destruct (clientOf p t); [|apply only_panic].
  apply only_liftErr, only_perform. exact Hok.
Qed.

Lemma only_waitLoop (f : M W Call bool) (polls : nat) :
  only allowed f -> only allowed (waitLoop polls f).
Proof.
  intros Hf. induction polls as [|n IH]; cbn [waitLoop]; [apply only_throw|].
  apply only_bind; [exact Hf|]. intros [|]; [apply only_ret|exact IH].
Qed.

(** *** The task-flow engine *)

Definition taskOnly (task : @Task W) : Prop :=
  forall params taskResult, only allowed (taskRun task params taskResult).

Definition revertOnly (task : @Task W) : Prop :=
  match taskWith task with
  | Some revert => forall taskResult, only allowed (revert taskResult)
  | None => True
  end.

Lemma only_runTasks (todo : list (@Task W)) :
  Forall taskOnly todo ->
  forall params taskResult, only allowed (runTasks todo params taskResult).
Proof.
  induction 1 as [|task rest Htask _ IH]; intros params taskResult;
    cbn [runTasks]; [apply only_ret|].
  apply only_bind; [apply only_attempt, Htask|].
  intros [err|[params' delta]]; [apply only_ret|].
  apply only_bind; [apply IH|]. intros [[[rest' ps] res] e]. apply only_ret.
Qed.

Lemma only_Run (flow : @TaskFlow W) (params : Map) :
  Forall taskOnly (tasks flow) -> only allowed (Run flow params).
Proof.
  intros Hflow. unfold Run. apply only_bind; [apply only_runTasks, Hflow|].
  intros [[[ts ps] res] e]. apply only_ret.
Qed.

Lemma only_revertTasks (reversed : list (@Task W)) (taskResult : Map) :
  Forall revertOnly reversed -> only allowed (revertTasks reversed taskResult).
Proof.
  induction 1 as [|task rest Htask _ IH]; cbn [revertTasks]; [apply only_ret|].
  apply only_bind; [|intros _; exact IH].
  destruct (finish task); [|apply only_ret].
  unfold revertOnly in Htask. destruct (taskWith task); [|apply only_ret].
  apply only_ignore, Htask.
Qed.

Lemma only_Revert (flow : @TaskFlow W) :
  Forall revertOnly (tasks flow) -> only allowed (Revert flow).
Proof.
  intros Hflow. unfold Revert. apply only_revertTasks.
  apply Forall_rev. exact Hflow.
Qed.

(** The steps of a flow keep their reverts while the flow runs. *)
Lemma runTasks_reverts (todo : list (@Task W)) :
  Forall revertOnly todo ->
  forall params taskResult w ts ps res e w' t,
    runTasks todo params taskResult w = (Ok (ts, ps, res, e), w', t) ->
    Forall revertOnly ts.
Proof.
  induction 1 as [|task rest Htask Hrest IH]; intros params taskResult w ts ps res e w' t;
    cbn [runTasks].
  - intros Hrun. apply ret_inv in Hrun as (Heq & _ & _). injection Heq as -> _ _ _.
    constructor.
  - intros Hrun.
    apply bind_inv_ok in Hrun as (r & w1 & t1 & t2 & _ & Hrun & _).
    destruct r as [err|[params' delta]].
    + apply ret_inv in Hrun as (Heq & _ & _). injection Heq as -> _ _ _.
      constructor; assumption.
    + apply bind_inv_ok in Hrun as ([[[rest' ps'] res'] e'] & w2 & t3 & t4 & Hrec & Hrun & _).
      apply ret_inv in Hrun as (Heq & _ & _). injection Heq as -> _ _ _.
      constructor; [exact Htask|]. eapply IH. exact Hrec.
Qed.

Lemma Run_reverts (flow : @TaskFlow W) (params : Map) (w w' : W) (flow' : @TaskFlow W)
  (params' : Map) (res : error + Map) (t : list Call) :
  Forall revertOnly (tasks flow) ->
  Run flow params w = (Ok (flow', params', res), w', t) ->
  Forall revertOnly (tasks flow').
Proof.
  intros Hflow Hrun. unfold Run in Hrun.
  apply bind_inv_ok in Hrun as ([[[ts ps] r] e] & w1 & t1 & t2 & Htasks & Hrun & _).
  apply ret_inv in Hrun as (Heq & _ & _). injection Heq as -> _ _.
  cbn [tasks]. eapply runTasks_reverts; eassumption.
Qed.

(** A flow that is run and, if it fails, reverted. *)
Lemma only_Run_then {A} (flow : @TaskFlow W) (params : Map)
  (k : @TaskFlow W * Map * (error + Map) -> M W Call A) :
  Forall taskOnly (tasks flow) ->
  (forall r, Forall revertOnly (tasks r.1.1) -> only allowed (k r)) ->
  Forall revertOnly (tasks flow) ->
  only allowed (bind (Run flow params) k).
Proof.
  intros Hrun Hk Hrev w. rewrite calls_bind. apply Forall_app.
  split; [apply only_Run, Hrun|].
  destruct (Run flow params w) as [[[[[flow' params'] res]|e|] w1] t1] eqn:Hflow;
    unfold result, worldOf; cbn [fst snd]; try constructor.
  apply Hk. cbn [fst]. eapply Run_reverts; eassumption.
Qed.

End Allowed.

(** One step of a proof that a computation makes allowed calls only. *)
Ltac only_step :=
  match goal with
  | |- only _ (bind _ _) => apply only_bind; [|intros]
  | |- only _ (ret _) => apply only_ret
  | |- only _ (throw _) => apply only_throw
  | |- only _ panic => apply only_panic
  | |- only _ (must _) => apply only_must
  | |- only _ (attempt _) => apply only_attempt
  | |- only _ (ignore _) => apply only_ignore
  | |- only _ (callObj _ _ _) => apply only_callObj; reflexivity
  | |- only _ (callErr _ _ _) => apply only_callErr; reflexivity
  | |- only _ (callStr _ _ _) => apply only_callStr; reflexivity
  | |- only _ (callList _ _ _) => apply only_callList; reflexivity
  | |- only _ (waitLoop _ _) => apply only_waitLoop
  | |- only _ (match ?x with _ => _ end) => destruct x
  end.

Ltac only_all := repeat only_step.

End VolumeCalls.

(** ** Package volume: what Delete, Expand and the snapshot operations never do *)

Module VolumeNever.

Import Volume MonadFacts Traces VolumeCalls.

(** Lookups, and the methods that stop, split or delete an object. *)
Definition lookupOrRemoval (c : Call) : bool :=
  isRead c ||
  match c with
  | OnErr _ r =>
      match r with
      | DeleteLun _ | DeleteLunSnapshot _ | SmartXDeleteLunSnapshot _
      | DeleteClonePair _ | StopLunCopy _ | DeleteLunCopy _
      | StopHyperMetroPair _ | DeleteHyperMetroPair _ _
      | SplitReplicationPair _ | DeleteReplicationPair _
      | SmartXDeleteQos _ _ _ _ => true
      | _ => false
      end
  | _ => false
  end.

(** Lookups, and the methods Expand works with: extend a LUN, suspend and
    resume a hypermetro pair, split and resume a replication pair. *)
Definition lookupOrResize (c : Call) : bool :=
  isRead c ||
  match c with
  | OnErr _ r =>
      match r with
      | ExtendLun _ _ | StopHyperMetroPair _ | SyncHyperMetroPair _
      | SplitReplicationPair _ | SyncReplicationPair _ => true
      | _ => false
      end
  | _ => false
  end.

(** The snapshot methods of the local array, and the lookup of the parent
    LUN. *)
Definition snapshotCall (c : Call) : bool :=
  match c with
  | OnObj Local r =>
      match r with
      | GetLunByName _ | GetLunSnapshotByName _ | CreateLunSnapshot _ _ => true
      | _ => false
      end
  | OnErr Local r =>
      match r with
      | ActivateLunSnapshot _ | DeactivateLunSnapshot _ | DeleteLunSnapshot _ => true
      | _ => false
      end
  | _ => false
  end.

(** The calls that bring a new object into being. *)
Definition creates (c : Call) : bool :=
  match c with
  | OnObj _ r =>
      match r with
      | CreateLun _ | CreateLunSnapshot _ _ | SmartXCreateLunSnapshot _ _
      | CreateClonePair _ _ _ | CreateLunCopy _ _ _ _ | CreateHyperMetroPair _
      | CreateReplicationPair _ => true
      | _ => false
      end
  | OnStr _ r => match r with SmartXCreateQos _ _ _ _ => true | _ => false end
  | _ => false
  end.

Section Never.

Context {W : Type} `{Env}.
Variable p : SAN W.

Lemma only_deleteReplicationPairs (pairs : list Obj) :
  only (allowed lookupOrRemoval) (deleteReplicationPairs p pairs).
Proof.
  induction pairs as [|pairObj rest IH]; cbn [deleteReplicationPairs]; [apply only_ret|].
  only_all. exact IH.
Qed.

Lemma only_deleteLun (name : string) (cli : Tgt) :
  only (allowed lookupOrRemoval) (deleteLun p name cli).
Proof. unfold deleteLun. only_all. Qed.

Lemma only_deleteLunCopy (lunCopyName : string) (isDeleteSnapshot : bool) :
  only (allowed lookupOrRemoval) (deleteLunCopy p lunCopyName isDeleteSnapshot).
Proof. unfold deleteLunCopy. only_all. Qed.

Lemma only_getLunCopyOfLunID (ok : Call -> bool) (lunID : string) :
  (forall c, isRead c = true -> ok c = true) ->
  only (allowed ok) (getLunCopyOfLunID p lunID).
Proof.
  intros Hread. unfold getLunCopyOfLunID.
  apply only_bind; [apply only_callObj, Hread; reflexivity|]. intros lun.
  repeat (only_step; try (apply only_callObj, Hread; reflexivity)).
Qed.

(** X1.  [Delete] only looks objects up and stops, splits or deletes them,
    on whichever array: it never creates, extends, starts or synchronizes
    anything, whatever flags the LUN carries and however the array
    answers. *)
Theorem Delete_only_removes (name : string) (w : W) :
  Forall (fun c => lookupOrRemoval c = true) (calls (Delete p name w)).
Proof.
  revert w. change (only (allowed lookupOrRemoval) (Delete p name)).
  unfold Delete. apply only_bind; [only_all|]. intros [lun|]; [|apply only_ret].
  apply only_bind; [apply only_must|]. intros rssStr.
  apply only_bind; [apply only_must|]. intros lunID.
  apply only_bind; [|intros r; only_all].
  apply only_Run.
  repeat match goal with
         | |- context [rssFlag ?a ?b] => destruct (rssFlag a b)
         end;
    cbn [tasks AddTask NewTaskFlow app];
    repeat (apply Forall_cons_2); try apply Forall_nil_2;
    intros params taskResult; cbn [taskRun]; unfold keeping;
    (only_step; [|only_all]);
    unfold deleteHyperMetro, deleteHyperMetroRemoteLun, deleteReplicationPair,
      deleteReplicationRemoteLun, deleteLocalLunCopy, deleteLocalHyperCopy,
      deleteLocalLun;
    repeat first
      [ apply only_deleteLun
      | apply only_deleteLunCopy
      | apply only_deleteReplicationPairs
      | apply only_getLunCopyOfLunID; intros c Hc; unfold lookupOrRemoval; rewrite Hc;
        reflexivity
      | only_step ].
Qed.

Lemma only_splitReplicationPairs (pairs : list Obj) (acc : list string) :
  only (allowed lookupOrResize) (splitReplicationPairs p pairs acc).
Proof.
  revert acc. induction pairs as [|pairObj rest IH]; intros acc;
    cbn [splitReplicationPairs]; [apply only_ret|].
  only_all; apply IH.
Qed.

Lemma only_syncReplicationPairs (ids : list string) :
  only (allowed lookupOrResize) (syncReplicationPairs p ids).
Proof.
  induction ids as [|pairID rest IH]; cbn [syncReplicationPairs]; [apply only_ret|].
  only_all. exact IH.
Qed.

(** X2.  [Expand] only looks objects up, extends LUNs, and suspends and
    resumes mirror pairs: it never creates and never deletes an object on
    any array, whatever flags the LUN carries and however the array
    answers. *)
Theorem Expand_never_creates_or_deletes (name : string) (newSize : Z) (w : W) :
  Forall (fun c => lookupOrResize c = true) (calls (Expand p name newSize w)).
Proof.
  revert w. change (only (allowed lookupOrResize) (Expand p name newSize)).
  unfold Expand. apply only_bind; [only_all|].
  intros [err|[lun|]]; [apply only_ret|apply only_bind|apply only_ret].
  { apply only_must. }
  intros capacity. destruct (_ <=? _)%Z; [apply only_ret|].
  apply only_bind; [apply only_must|]. intros rssStr.
  apply only_bind; [apply only_must|]. intros lunID.
  apply only_bind; [apply only_must|]. intros localParentName.
  apply only_bind; [|intros r; only_all].
  apply only_Run.
  repeat match goal with
         | |- context [rssFlag ?a ?b] => destruct (rssFlag a b)
         end;
    cbn [tasks AddTask NewTaskFlow app];
    repeat (apply Forall_cons_2); try apply Forall_nil_2;
    intros params taskResult; cbn [taskRun]; unfold keeping;
    (only_step; [|only_all]);
    unfold preExpandCheckCapacity, preExpandHyperMetroCheckRemoteCapacity,
      preExpandReplicationCheckRemoteCapacity, preExpandCheckRemoteCapacity,
      suspendHyperMetro, expandHyperMetroRemoteLun, splitReplication,
      expandReplicationRemoteLun, expandLocalLun, syncHyperMetro, syncReplication,
      parseOrFail;
    repeat first
      [ apply only_splitReplicationPairs
      | apply only_syncReplicationPairs
      | only_step ].
Qed.

(** X3.  [DeleteSnapshot] calls nothing but the snapshot lookup, the
    deactivation and the deletion of a snapshot, all on the local array. *)
Theorem DeleteSnapshot_only_snapshot_calls (snapshotName : string) (w : W) :
  Forall (fun c => snapshotCall c = true) (calls (DeleteSnapshot p snapshotName w)).
Proof.
  revert w. change (only (allowed snapshotCall) (DeleteSnapshot p snapshotName)).
  unfold DeleteSnapshot. apply only_bind; [only_all|].
  intros [snapshot|]; [|apply only_ret].
  apply only_bind; [apply only_must|]. intros snapshotId.
  apply only_bind; [|intros r; only_all].
  apply only_Run. cbn [tasks AddTask NewTaskFlow app].
  repeat (apply Forall_cons_2); try apply Forall_nil_2;
    intros params taskResult; cbn [taskRun];
    unfold keeping, deactivateSnapshot, deleteSnapshot; only_all.
Qed.

(** X4.  [CreateSnapshot], whether it succeeds, fails or reverts, calls
    nothing but the lookup of the parent LUN and the snapshot methods of the
    local array (lookup, create, activate, and delete when it reverts): it
    never changes a LUN. *)
Theorem CreateSnapshot_only_snapshot_calls (lunName snapshotName : string) (w : W) :
  Forall (fun c => snapshotCall c = true)
         (calls (CreateSnapshot p lunName snapshotName w)).
Proof.
  revert w. change (only (allowed snapshotCall) (CreateSnapshot p lunName snapshotName)).
  unfold CreateSnapshot. apply only_bind; [only_all|].
  intros [lun|]; [|apply only_throw].
  apply only_bind; [apply only_must|]. intros lunId.
  apply only_bind; [only_all|].
  intros [snapshot|].
  { unfold getSnapshotReturnInfo. only_all. }
  apply only_Run_then.
  - cbn [tasks AddTask NewTaskFlow app].
    repeat (apply Forall_cons_2); try apply Forall_nil_2;
      intros params taskResult; cbn [taskRun];
      unfold keeping, createSnapshot, activateSnapshot, waitSnapshotReady, WaitUntil,
        snapshotReady;
      only_all.
  - intros [[flow params'] [err|result]] Hrev; cbn [fst] in Hrev.
    + apply only_bind; [apply only_Revert, Hrev|]. intros _. apply only_throw.
    + unfold getSnapshotReturnInfo. only_all.
  - cbn [tasks AddTask NewTaskFlow app].
    repeat (apply Forall_cons_2); try apply Forall_nil_2; unfold revertOnly;
      cbn [taskWith]; try exact I.
    intros taskResult. unfold revertSnapshot. only_all.
Qed.

(** No call of the trace brings a new object into being. *)
Definition createsNothing (c : Call) : bool := negb (creates c).

Lemma only_clonePairFinished (clonePairID : string) :
  only (allowed createsNothing) (clonePairFinished p clonePairID).
Proof. unfold clonePairFinished. only_all. Qed.

Lemma only_lunCopyFinished (lunCopyName : string) :
  only (allowed createsNothing) (lunCopyFinished p lunCopyName).
Proof. unfold lunCopyFinished. only_all. Qed.

(** What [createLocalLun] may call for a LUN that exists: lookups, and the
    deletion of the clone-pair that carries the ID of the LUN. *)
Definition waitsFor (lun : Obj) (c : Call) : bool :=
  isRead c ||
  match c with
  | OnErr Local (DeleteClonePair clonePairID) =>
      bool_decide (asString (lun !! "ID") = Some clonePairID)
  | _ => false
  end.

Lemma waitsFor_read (lun : Obj) (c : Call) : isRead c = true -> waitsFor lun c = true.
Proof. intros Hc. unfold waitsFor. rewrite Hc. reflexivity. Qed.

(** X5.  Read-then-create: when the array already reports a LUN of the
    requested name, [createLocalLun] creates nothing (no LUN, clone-pair,
    luncopy, snapshot or QoS policy).  Every call it makes is a lookup, the
    polls of the clone job among them, but for one: on the newer family the
    wait ends with the deletion of the clone-pair that carries the ID of the
    LUN. *)
Theorem createLocalLun_existing_creates_nothing (params taskResult : Map)
  (name : string) (lun : Obj) (w w1 : W) :
  asString (params !! "name") = Some name ->
  askObj (cli p) (GetLunByName name) w = (inr (Some lun), w1) ->
  Forall (fun c => creates c = false /\
                   (isRead c = true \/
                    exists id, asString (lun !! "ID") = Some id /\
                               c = OnErr Local (DeleteClonePair id)))
         (calls (createLocalLun p params taskResult w)).
Proof.
  intros Hname Hget.
  assert (Hweak : forall c, allowed (waitsFor lun) c ->
                            creates c = false /\
                            (isRead c = true \/
                             exists id, asString (lun !! "ID") = Some id /\
                                        c = OnErr Local (DeleteClonePair id))).
  { intros c Hc. unfold allowed, waitsFor in Hc.
    destruct (isRead c) eqn:Hread.
    - split; [|left; reflexivity].
      destruct c as [t []|t []|t []|t []]; try discriminate; reflexivity.
    - cbn [orb] in Hc. destruct c as [t r|t r|t r|t r]; try discriminate.
      destruct t; try discriminate. destruct r; try discriminate.
      apply bool_decide_eq_true_1 in Hc. split; [reflexivity|].
      right. exists clonePairID. split; [exact Hc|reflexivity]. }
  eapply Forall_impl; [|exact Hweak].
  unfold createLocalLun. rewrite Hname. cbn [must]. rewrite bind_ret.
  rewrite (bind_ok _ _ _ _ _ _ (VolumeSpec.callObj_run _ _ _ _ _ Hget)).
  rewrite calls_prepend. apply Forall_app. split; [repeat constructor|].
  cbn beta.
  apply only_bind; [|intros [params0 lun0]; only_all].
  apply only_bind; [|intros; apply only_ret].
  unfold waitCloneFinish.
  destruct (asString (lun !! "ID")) as [id|] eqn:Hid; cbn [must];
    [|intros w0; rewrite bind_panic0; constructor].
  intros w0. rewrite bind_ret. revert w0.
  change (only (allowed (waitsFor lun))
            (if bool_decide (product p = "DoradoV6")
             then waitClonePairFinish p id
             else lunCopyName <- getLunCopyOfLunID p id ;;
                  if (0 <? String.length lunCopyName)%nat
                  then waitLunCopyFinish p lunCopyName
                  else ret tt)%go).
  unfold waitClonePairFinish, waitLunCopyFinish, WaitUntil, clonePairFinished,
    lunCopyFinished.
  repeat first
    [ apply only_getLunCopyOfLunID; intros c Hc; apply waitsFor_read; exact Hc
    | apply only_callErr; unfold waitsFor; cbn [isRead orb];
      apply bool_decide_eq_true_2; exact Hid
    | only_step ].
Qed.

End Never.

End VolumeNever.

(** ** Package volume: deleting twice *)

Module VolumeDelete.

Import Volume MonadFacts FlowFacts Traces VolumeCalls VolumeSpec.




Section Twice.

Context {W : Type} `{Env}.
Variable p : SAN W.





End Twice.

Import SampleArray.


(** *** A mirrored volume and a plug-in without the remote client *)








End VolumeDelete.

(** ** Package volume: parameters, checks and compensation *)

Module VolumeFlows.

Import Volume MonadFacts VolumeSpec FlowFacts.

(** The IDs of the replication pairs that [splitReplication] splits: those
    whose running status is normal or synchronizing. *)
Definition activePairIDs `{Env} (pairs : list Obj) : list string :=
  omap (fun pairObj : Obj =>
          match asString (pairObj !! "ID"), asString (pairObj !! "RUNNINGSTATUS") with
          | Some pairID, Some runningStatus =>
              if bool_decide (runningStatus = replicationPairRunningStatusNormal)
                 || bool_decide (runningStatus = replicationPairRunningStatusSync)
              then Some pairID else None
          | _, _ => None
          end) pairs.

Section Flows.

Context {W : Type} `{Env}.
Variable p : SAN W.

(** X6.  A create without a storage pool ([storagepool] missing, not a
    string, or empty) fails before any call of the array; unless the clone
    speed is rejected first, the error says that the pool must be given. *)
Theorem Create_without_pool (params : Map) (w : W) :
  asString (params !! "storagepool") = None \/
  asString (params !! "storagepool") = Some "" ->
  (exists e, Create p params w = (Err e, w, [])) /\
  (hasCloneSource params = false ->
   Create p params w
   = (Err (errorsNew "must specify storage pool to create volume"), w, [])).
Proof.
  intros Hpool.
  assert (Hget : forall ps : Map,
             ps !! "storagepool" = params !! "storagepool" ->
             getPoolID p ps w
             = (Err (errorsNew "must specify storage pool to create volume"), w, [])).
  { intros ps Hps. unfold getPoolID. rewrite Hps.
    destruct Hpool as [-> | ->]; reflexivity. }
  unfold Create, preCreate, commonPreCreate. cbn [runAnalyzers]. rewrite !bind_assoc.
  destruct (getAllocType_run params w) as [a Ha].
  rewrite (bind_ok _ _ _ _ _ _ Ha). cbn beta. rewrite !bind_assoc.
  destruct (getCloneSpeed_pure (<["alloctype" := VInt a]> params) w) as [Hc Hs].
  destruct (getCloneSpeed (<["alloctype" := VInt a]> params) w)
    as [[[params2|e|] w2] t2] eqn:Hspeed.
  - unfold calls, result in Hc, Hs. cbn in Hc, Hs. subst t2.
    destruct (Hs _ eq_refl) as (_ & _ & Hsame & _).
    assert (Hw : w2 = w).
    { revert Hspeed. unfold getCloneSpeed.
      repeat match goal with
             | |- context [match ?x with _ => _ end] => destruct x
             end; cbn; intros [= _ <-]; reflexivity. }
    subst w2.
    rewrite (bind_ok _ _ _ _ _ _ Hspeed). cbn beta. rewrite !bind_assoc.
    rewrite (bind_err _ _ _ _ _ _ (Hget params2 ltac:(
      rewrite Hsame; apply lookup_insert_ne; discriminate))).
    split; [eexists; reflexivity|intros _; reflexivity].
  - assert (Hw : w2 = w /\ t2 = []).
    { unfold calls in Hc. cbn in Hc. split; [|exact Hc].
      revert Hspeed. unfold getCloneSpeed.
      repeat match goal with
             | |- context [match ?x with _ => _ end] => destruct x
             end; cbn; intros [= _ <-]; reflexivity. }
    destruct Hw as [-> ->].
    rewrite (bind_err _ _ _ _ _ _ Hspeed). split; [eexists; reflexivity|].
    intros Hsrc. exfalso. revert Hspeed. unfold getCloneSpeed.
    fold (hasCloneSource (<["alloctype" := VInt a]> params)).
    rewrite hasCloneSource_alloctype, Hsrc. discriminate.
  - exfalso. revert Hspeed. unfold getCloneSpeed.
    repeat match goal with
           | |- context [match ?x with _ => _ end] => destruct x
           end; discriminate.
Qed.

(** X7.  [getRemoteDeviceID] returns an ID only for a remote device that the
    array reports as healthy and linked up; the single call it makes is the
    lookup of the device by serial number. *)
Theorem getRemoteDeviceID_sound (deviceSN id : string) (w w' : W) (t : list Call) :
  getRemoteDeviceID p deviceSN w = (Ok id, w', t) ->
  exists remoteDevice,
    askObj (cli p) (GetRemoteDeviceBySN deviceSN) w = (inr (Some remoteDevice), w') /\
    remoteDevice !! "HEALTHSTATUS" = Some (VStr remoteDeviceHealthStatus) /\
    remoteDevice !! "RUNNINGSTATUS" = Some (VStr remoteDeviceRunningStatusLinkUp) /\
    remoteDevice !! "ID" = Some (VStr id) /\
    t = [OnObj Local (GetRemoteDeviceBySN deviceSN)].
Proof.
  unfold getRemoteDeviceID. intros Hrun.
  apply bind_inv_ok in Hrun as (dev & w1 & t1 & t2 & Hget & Hrun & ->).
  apply callObj_inv in Hget as [Hget ->].
  destruct dev as [dev|]; [|discriminate].
  destruct (isStr (dev !! "HEALTHSTATUS") remoteDeviceHealthStatus) eqn:Hh;
    [|discriminate].
  destruct (isStr (dev !! "RUNNINGSTATUS") remoteDeviceRunningStatusLinkUp) eqn:Hr;
    [|discriminate].
  cbn [negb orb] in Hrun. apply must_inv_ok in Hrun as (Hid & -> & ->).
  exists dev. split; [exact Hget|].
  assert (Hstr : forall (v : option Value) s, isStr v s = true -> v = Some (VStr s)).
  { intros v s0. destruct v as [[s1| | | | | | |]|]; cbn; try discriminate.
    intros Hd. apply bool_decide_eq_true_1 in Hd. subst. reflexivity. }
  repeat split; try (apply Hstr; assumption).
  destruct (dev !! "ID") as [[]|]; try discriminate. cbn in Hid. congruence.
Qed.

(** X8.  When [splitReplicationPairs] succeeds it has split exactly the
    pairs whose status is normal or synchronizing, in the order the array
    listed them, and it returns exactly their IDs, which are the pairs
    [syncReplication] resumes after the extension. *)
Theorem splitReplicationPairs_splits_active (pairs : list Obj) (acc ids : list string)
  (w w' : W) (t : list Call) :
  splitReplicationPairs p pairs acc w = (Ok ids, w', t) ->
  ids = acc ++ activePairIDs pairs /\
  t = map (fun id => OnErr Local (SplitReplicationPair id)) (activePairIDs pairs).
Proof.
  revert acc w t. induction pairs as [|pairObj rest IH]; intros acc w t;
    cbn [splitReplicationPairs activePairIDs omap list_omap].
  - intros Hrun. apply ret_inv in Hrun as (-> & _ & ->).
    rewrite app_nil_r. split; reflexivity.
  - intros Hrun.
    apply bind_inv_ok in Hrun as (pairID & w1 & t1 & t2 & Hid & Hrun & ->).
    apply must_inv_ok in Hid as (Hid & -> & ->).
    apply bind_inv_ok in Hrun as (status & w2 & t3 & t4 & Hst & Hrun & ->).
    apply must_inv_ok in Hst as (Hst & -> & ->).
    rewrite Hid, Hst.
    destruct (bool_decide (status = replicationPairRunningStatusNormal));
      destruct (bool_decide (status = replicationPairRunningStatusSync));
      cbn [negb andb orb] in Hrun |- *;
      try (apply bind_inv_ok in Hrun as ([] & w3 & t5 & t6 & Hsplit & Hrun & ->);
           apply callErr_inv in Hsplit as [_ ->];
           apply IH in Hrun as [-> ->];
           rewrite <- app_assoc; split; reflexivity).
    apply IH in Hrun as [-> ->]. split; reflexivity.
Qed.

(** X9.  A clone to a capacity smaller than that of the source LUN is
    rejected right after the lookup of the source, on either array family:
    nothing has been created or looked up besides. *)
Theorem clone_rejects_smaller (params taskResult : Map) (cloneFrom capacity : string)
  (srcLun : Obj) (srcCapacity requested : Z) (w w1 : W) :
  asString (params !! "clonefrom") = Some cloneFrom ->
  asInt64 (params !! "capacity") = Some requested ->
  askObj (cli p) (GetLunByName cloneFrom) w = (inr (Some srcLun), w1) ->
  asString (srcLun !! "CAPACITY") = Some capacity ->
  ParseInt capacity = (srcCapacity, None) ->
  (requested < srcCapacity)%Z ->
  clone p params taskResult w
  = (Err (errorsNew ("Clone LUN capacity must be >= src " +:+ cloneFrom)), w1,
     [OnObj Local (GetLunByName cloneFrom)]).
Proof.
  intros Hfrom Hreq Hsrc Hcap Hparse Hlt.
  unfold clone, clonePair, lunCopy.
  destruct (bool_decide (product p = "DoradoV6"));
    rewrite Hfrom; cbn [must]; rewrite bind_ret;
    rewrite (bind_ok _ _ _ _ _ _ (callObj_run _ _ _ _ _ Hsrc));
    rewrite Hcap; cbn [must]; rewrite bind_ret;
    unfold parseOrFail; rewrite Hparse, bind_ret, Hreq; cbn [must];
    rewrite bind_ret;
    (destruct (Z.ltb_spec requested srcCapacity); [reflexivity|lia]).
Qed.

(** A call meets a requirement that the request it carries meets. *)
Lemma only_callObj_if (P : Call -> Prop) (t : Tgt) (r : ObjReq) :
  P (OnObj t r) -> Traces.only P (callObj p t r).
Proof.
  intros HP. unfold callObj. destruct (clientOf p t); [|apply Traces.only_panic].
  apply Traces.only_liftErr, Traces.only_perform. exact HP.
Qed.

Lemma only_callErr_if (P : Call -> Prop) (t : Tgt) (r : ErrReq) :
  P (OnErr t r) -> Traces.only P (callErr p t r).
Proof.
  intros HP. unfold callErr. destruct (clientOf p t); [|apply Traces.only_panic].
  apply Traces.only_liftErr0, Traces.only_perform. exact HP.
Qed.

Lemma callErr_fail (r : ErrReq) (e : error) (w w1 : W) :
  askErr (cli p) r w = (Some e, w1) ->
  callErr p Local r w = (Err e, w1, [OnErr Local r]).
Proof.
  intros Hr. unfold callErr, liftErr0, perform, bind, throw. simpl. rewrite Hr.
  reflexivity.
Qed.

(** A dropped call leaves the world the client leaves. *)
Lemma ignore_callErr (r : ErrReq) (w : W) :
  ignore (callErr p Local r) w
  = (Ok tt, (askErr (cli p) r w).2, [OnErr Local r]).
Proof.
  unfold ignore, callErr, liftErr0, perform, bind, throw, ret. simpl.
  destruct (askErr (cli p) r w) as [[e|] w1]; reflexivity.
Qed.

(** X10.  When the clone-pair cannot be created, [clonePair] deletes the
    destination LUN before it returns the error, and it does so also for a
    destination that existed before the call. *)
Theorem clonePair_failure_deletes_destination (params : Map)
  (cloneFrom capacity name srcID dstID : string) (srcLun dstLun : Obj)
  (srcCapacity requested speed : Z) (e : error) (w w1 w2 w3 : W) :
  asString (params !! "clonefrom") = Some cloneFrom ->
  asInt64 (params !! "capacity") = Some requested ->
  asString (params !! "name") = Some name ->
  asInt (params !! "clonespeed") = Some speed ->
  askObj (cli p) (GetLunByName cloneFrom) w = (inr (Some srcLun), w1) ->
  asString (srcLun !! "CAPACITY") = Some capacity ->
  ParseInt capacity = (srcCapacity, None) ->
  (srcCapacity <= requested)%Z ->
  askObj (cli p) (GetLunByName name) w1 = (inr (Some dstLun), w2) ->
  asString (srcLun !! "ID") = Some srcID ->
  asString (dstLun !! "ID") = Some dstID ->
  askObj (cli p) (CreateClonePair srcID dstID speed) w2 = (inl e, w3) ->
  clonePair p params w
  = (Err e, (askErr (cli p) (DeleteLun dstID) w3).2,
     [OnObj Local (GetLunByName cloneFrom); OnObj Local (GetLunByName name);
      OnObj Local (CreateClonePair srcID dstID speed);
      OnErr Local (DeleteLun dstID)]).
Proof.
  intros Hfrom Hreq Hname Hspeed Hsrc Hcap Hparse Hle Hdst HsrcID HdstID Hpair.
  unfold clonePair. rewrite Hfrom. cbn [must]. rewrite bind_ret.
  rewrite (bind_ok _ _ _ _ _ _ (callObj_run _ _ _ _ _ Hsrc)).
  rewrite Hcap. cbn [must]. rewrite bind_ret.
  unfold parseOrFail. rewrite Hparse, bind_ret, Hreq. cbn [must]. rewrite bind_ret.
  destruct (Z.ltb_spec requested srcCapacity); [lia|].
  rewrite Hname. cbn [must]. rewrite bind_ret.
  rewrite (bind_ok _ _ _ _ _ _ (callObj_run _ _ _ _ _ Hdst)).
  rewrite bind_ret, HsrcID. cbn [must]. rewrite bind_ret.
  change (objOf (Some dstLun)) with dstLun. rewrite HdstID. cbn [must]. rewrite bind_ret.
  rewrite Hspeed. cbn [must]. rewrite bind_ret.
  assert (Hcreate : createClonePair p
                      {| srcLunID := srcID; dstLunID := dstID;
                         cloneLunCapacity := requested; srcLunCapacity := srcCapacity;
                         cloneSpeed := speed |} w2
                    = (Err e, w3, [OnObj Local (CreateClonePair srcID dstID speed)])).
  { unfold createClonePair. cbn [srcLunID dstLunID cloneSpeed].
    rewrite (bind_err _ _ _ _ _ _ (callObj_fail _ _ _ _ _ Hpair)). reflexivity. }
  rewrite (bind_ok _ _ _ _ _ _ (attempt_err _ _ _ _ _ Hcreate)).
  cbn beta iota.
  rewrite (bind_ok _ _ _ _ _ _ (ignore_callErr (DeleteLun dstID) w3)).
  reflexivity.
Qed.

(** X11.  Every replication pair [createReplicationPair] asks the array to
    create is asynchronous ([REPLICATIONMODEL] 2), waits after the
    synchronization begins ([SYNCHRONIZETYPE] 2), runs at the highest speed
    ([SPEED] 4) and carries the resource type the earlier steps recorded. *)
Theorem createReplicationPair_payload (params taskResult data : Map) (w : W) :
  In (OnObj Local (CreateReplicationPair data))
     (calls (createReplicationPair p params taskResult w)) ->
  data !! "REPLICATIONMODEL" = Some (VInt 2) /\
  data !! "SYNCHRONIZETYPE" = Some (VInt 2) /\
  data !! "SPEED" = Some (VInt 4) /\
  asInt (data !! "LOCALRESTYPE") = asInt (taskResult !! "resType").
Proof.
  intros Hin. unfold createReplicationPair in Hin.
  destruct (asInt (taskResult !! "resType")) as [resType|] eqn:Hres; cbn [must] in Hin;
    [rewrite bind_ret in Hin|destruct Hin].
  set (P := fun c : Call =>
              forall d, c = OnObj Local (CreateReplicationPair d) ->
                        d !! "REPLICATIONMODEL" = Some (VInt 2) /\
                        d !! "SYNCHRONIZETYPE" = Some (VInt 2) /\
                        d !! "SPEED" = Some (VInt 4) /\
                        asInt (d !! "LOCALRESTYPE") = Some resType).
  match type of Hin with
  | In _ (calls (?m w)) => assert (Hall : Traces.only P m)
  end.
  { apply Traces.only_bind; [apply Traces.only_must|intros dev].
    apply Traces.only_bind.
    { destruct (_ =? _)%Z;
        repeat (apply Traces.only_bind; [apply Traces.only_must|intros ?]);
        apply Traces.only_ret. }
    intros ids. cbv zeta.
    apply Traces.only_bind.
    { apply only_callObj_if. intros d Hd. injection Hd as <-.
      destruct (params !! "replicationSyncPeriod"), (taskResult !! "vStorePairID");
        rewrite ?(lookup_insert_ne (M := gmap string)) by discriminate;
        (split; [|split; [|split]]);
        repeat (first [ rewrite lookup_insert_eq; reflexivity
                      | rewrite lookup_insert_ne by discriminate ]). }
    intros pairObj.
    apply Traces.only_bind; [apply Traces.only_must|intros pairID].
    assert (Herr : forall r, Traces.only P (callErr p Local r)).
    { intros r. apply only_callErr_if. intros d Hd. discriminate. }
    apply Traces.only_bind; [apply Traces.only_attempt, Herr|].
    intros [err|u]; [|apply Traces.only_ret].
    apply Traces.only_bind; [apply Traces.only_ignore, Herr|].
    intros _. apply Traces.only_throw. }
  specialize (Hall w). rewrite List.Forall_forall in Hall.
  exact (Hall _ Hin data eq_refl).
Qed.

(** X12.  A replication pair whose first synchronization cannot be started
    is deleted again before the error is returned. *)
Theorem createReplicationPair_sync_failure (params taskResult : Map) (w : W)
  (err : error) (t : list Call) (w' : W) :
  createReplicationPair p params taskResult w = (Err err, w', t) ->
  forall pairID,
    In (OnErr Local (SyncReplicationPair pairID)) t ->
    t !! (length t - 1)%nat = Some (OnErr Local (DeleteReplicationPair pairID)).
Proof.
  unfold createReplicationPair. intros Hrun pairID Hin.
  destruct (asInt (taskResult !! "resType")) as [resType|]; cbn [must] in Hrun;
    [rewrite bind_ret in Hrun|discriminate].
  destruct (asString (taskResult !! "remoteDeviceID")) as [dev|]; cbn [must] in Hrun;
    [rewrite bind_ret in Hrun|discriminate].
  match type of Hrun with
  | bind ?m _ _ = _ =>
      assert (Hids : (exists ids, m w = (Ok ids, w, [])) \/ m w = (Panic, w, []))
  end.
  { destruct (_ =? _)%Z;
      repeat (match goal with
              | |- context [must ?o] => destruct o; cbn [must]
              end; rewrite ?bind_ret; try (left; eexists; reflexivity);
              try (right; reflexivity)). }
  destruct Hids as [[ids Hids]|Hids];
    [rewrite (bind_ok _ _ _ _ _ _ Hids) in Hrun
    |rewrite (bind_panic _ _ _ _ _ Hids) in Hrun; discriminate].
  cbv zeta in Hrun.
  match type of Hrun with
  | context [CreateReplicationPair ?d] => set (data := d) in Hrun
  end.
  destruct (askObj (cli p) (CreateReplicationPair data) w) as [[e|pairObj] w1] eqn:Hcreate.
  { rewrite (bind_err _ _ _ _ _ _ (callObj_fail _ _ _ _ _ Hcreate)) in Hrun.
    injection Hrun as _ _ <-. destruct Hin as [Hin|[]]. discriminate. }
  rewrite (bind_ok _ _ _ _ _ _ (callObj_run _ _ _ _ _ Hcreate)) in Hrun.
  destruct (asString (objOf pairObj !! "ID")) as [id|]; cbn [must] in Hrun;
    [rewrite bind_ret in Hrun|discriminate].
  destruct (askErr (cli p) (SyncReplicationPair id) w1) as [[e|] w2] eqn:Hsync.
  - rewrite (bind_ok _ _ _ _ _ _ (attempt_err _ _ _ _ _ (callErr_fail _ _ _ _ Hsync)))
      in Hrun.
    rewrite (bind_ok _ _ _ _ _ _ (ignore_callErr (DeleteReplicationPair id) w2)) in Hrun.
    injection Hrun as _ _ <-.
    destruct Hin as [Hin|[Hin|[Hin|[]]]]; try discriminate.
    injection Hin as <-. reflexivity.
  - rewrite (bind_ok _ _ _ _ _ _ (attempt_ok _ _ _ _ _ (callErr_run _ _ _ _ Hsync)))
      in Hrun.
    discriminate.
Qed.

(** Calls on whichever array has a client. *)
Lemma callObj_at (t : Tgt) (c : Client W) (r : ObjReq) (o : option Obj) (w w1 : W) :
  clientOf p t = Some c ->
  askObj c r w = (inr o, w1) ->
  callObj p t r w = (Ok o, w1, [OnObj t r]).
Proof.
  intros Hc Hr. unfold callObj, liftErr, perform, bind, ret. rewrite Hc, Hr.
  reflexivity.
Qed.

Lemma callErr_at (t : Tgt) (c : Client W) (r : ErrReq) (w : W) :
  clientOf p t = Some c ->
  callErr p t r w
  = (match (askErr c r w).1 with Some e => Err e | None => Ok tt end,
     (askErr c r w).2, [OnErr t r]).
Proof.
  intros Hc. unfold callErr, liftErr0, perform, bind, ret, throw. rewrite Hc.
  destruct (askErr c r w) as [[e|] w1]; reflexivity.
Qed.

(** X13.  [deleteLun], on the local array or on a remote one that has a
    client, looks the LUN up first.  A LUN the array does not report is a
    success without further calls.  A LUN that carries a QoS policy is
    removed from it before it is deleted, and when that removal fails the
    LUN is not deleted. *)
Theorem deleteLun_guards (name : string) (t : Tgt) (c : Client W) (w w1 : W) :
  clientOf p t = Some c ->
  (askObj c (GetLunByName name) w = (inr None, w1) ->
   deleteLun p name t w = (Ok tt, w1, [OnObj t (GetLunByName name)])) /\
  (forall lun lunID qosID,
      askObj c (GetLunByName name) w = (inr (Some lun), w1) ->
      asString (lun !! "ID") = Some lunID ->
      asString (lun !! "IOCLASSID") = Some qosID ->
      qosID <> "" ->
      (forall e w2,
          askErr c (SmartXDeleteQos qosID lunID "lun" "") w1 = (Some e, w2) ->
          deleteLun p name t w
          = (Err e, w2, [OnObj t (GetLunByName name);
                         OnErr t (SmartXDeleteQos qosID lunID "lun" "")])) /\
      (forall w2,
          askErr c (SmartXDeleteQos qosID lunID "lun" "") w1 = (None, w2) ->
          calls (deleteLun p name t w)
          = [OnObj t (GetLunByName name);
             OnErr t (SmartXDeleteQos qosID lunID "lun" "");
             OnErr t (DeleteLun lunID)])).
Proof.
  intros Hc. split.
  - intros Hget. unfold deleteLun.
    rewrite (bind_ok _ _ _ _ _ _ (callObj_at _ _ _ _ _ _ Hc Hget)). reflexivity.
  - intros lun lunID qosID Hget Hid Hqos Hne.
    assert (Hstart : deleteLun p name t w
                     = prepend [OnObj t (GetLunByName name)]
                         ((callErr p t (SmartXDeleteQos qosID lunID "lun" "") ;;;
                           callErr p t (DeleteLun lunID))%go w1)).
    { unfold deleteLun.
      rewrite (bind_ok _ _ _ _ _ _ (callObj_at _ _ _ _ _ _ Hc Hget)).
      rewrite Hid. cbn [must]. rewrite bind_ret, Hqos. cbn [default].
      unfold nonEmpty. rewrite bool_decide_eq_false_2 by exact Hne. reflexivity. }
    rewrite Hstart. split.
    + intros e w2 Hdel.
      assert (Hrun : callErr p t (SmartXDeleteQos qosID lunID "lun" "") w1
                     = (Err e, w2, [OnErr t (SmartXDeleteQos qosID lunID "lun" "")])).
      { rewrite (callErr_at _ _ _ _ Hc), Hdel. reflexivity. }
      rewrite (bind_err _ _ _ _ _ _ Hrun). reflexivity.
    + intros w2 Hdel.
      assert (Hrun : callErr p t (SmartXDeleteQos qosID lunID "lun" "") w1
                     = (Ok tt, w2, [OnErr t (SmartXDeleteQos qosID lunID "lun" "")])).
      { rewrite (callErr_at _ _ _ _ Hc), Hdel. reflexivity. }
      rewrite (bind_ok _ _ _ _ _ _ Hrun).
      rewrite !calls_prepend, (callErr_at _ _ _ _ Hc). reflexivity.
Qed.

(** X14.  [DeleteSnapshot] looks the snapshot up first.  A snapshot the
    array does not report is a success without further calls.  A snapshot
    that exists is deactivated and then deleted; when the deactivation fails
    the snapshot is not deleted and the error names the failed step. *)
Theorem DeleteSnapshot_sequence (snapshotName : string) (w w1 : W) :
  (askObj (cli p) (GetLunSnapshotByName snapshotName) w = (inr None, w1) ->
   DeleteSnapshot p snapshotName w
   = (Ok tt, w1, [OnObj Local (GetLunSnapshotByName snapshotName)])) /\
  (forall snapshot id,
      askObj (cli p) (GetLunSnapshotByName snapshotName) w = (inr (Some snapshot), w1) ->
      asString (snapshot !! "ID") = Some id ->
      (forall e w2,
          askErr (cli p) (DeactivateLunSnapshot id) w1 = (Some e, w2) ->
          DeleteSnapshot p snapshotName w
          = (Err (TaskFailed "Deactivate-Snapshot" e), w2,
             [OnObj Local (GetLunSnapshotByName snapshotName);
              OnErr Local (DeactivateLunSnapshot id)])) /\
      (forall w2,
          askErr (cli p) (DeactivateLunSnapshot id) w1 = (None, w2) ->
          calls (DeleteSnapshot p snapshotName w)
          = [OnObj Local (GetLunSnapshotByName snapshotName);
             OnErr Local (DeactivateLunSnapshot id);
             OnErr Local (DeleteLunSnapshot id)] /\
          (forall w3, askErr (cli p) (DeleteLunSnapshot id) w2 = (None, w3) ->
                      result (DeleteSnapshot p snapshotName w) = Ok tt))).
Proof.
  split.
  - intros Hget. unfold DeleteSnapshot.
    rewrite (bind_ok _ _ _ _ _ _ (callObj_run _ _ _ _ _ Hget)). reflexivity.
  - intros snapshot id Hget Hid.
    set (params := <["snapshotId" := VStr id]> (∅ : Map)).
    set (deactivate := {| taskName := "Deactivate-Snapshot";
                          taskRun := keeping (deactivateSnapshot p);
                          taskWith := None; finish := false |} : @Task W).
    set (delete := {| taskName := "Delete-Snapshot";
                      taskRun := keeping (deleteSnapshot p);
                      taskWith := None; finish := false |} : @Task W).
    set (flow := {| flowName := "Delete-LUN-Snapshot"; tasks := [deactivate; delete];
                    flowResult := ∅ |} : @TaskFlow W).
    assert (Hstart : DeleteSnapshot p snapshotName w
                     = prepend [OnObj Local (GetLunSnapshotByName snapshotName)]
                         ((r <- Run flow params ;;
                           match r.2 with
                           | inl err => throw err
                           | inr _ => ret tt
                           end)%go w1)).
    { unfold DeleteSnapshot.
      rewrite (bind_ok _ _ _ _ _ _ (callObj_run _ _ _ _ _ Hget)).
      cbv zeta. rewrite Hid. cbn [must]. rewrite bind_ret. reflexivity. }
    rewrite Hstart. clear Hstart.
    assert (Hparam : asString (params !! "snapshotId") = Some id).
    { unfold params. rewrite lookup_insert_eq. reflexivity. }
    split.
    + intros e w2 Hde.
      assert (Htask : taskRun deactivate params ∅ w1
                      = (Err e, w2, [OnErr Local (DeactivateLunSnapshot id)])).
      { cbn [taskRun deactivate]. apply keeping_fail. unfold deactivateSnapshot.
        rewrite Hparam. cbn [must]. rewrite bind_ret.
        rewrite (bind_err _ _ _ _ _ _ (callErr_fail _ _ _ _ Hde)). reflexivity. }
      rewrite (bind_ok _ _ _ _ _ _
                 (Run_of flow params _ _ _ _ _ _ _ (runTasks_fail _ _ _ _ _ _ _ _ Htask))).
      reflexivity.
    + intros w2 Hde.
      assert (Htask : taskRun deactivate params ∅ w1
                      = (Ok (params, ∅), w2, [OnErr Local (DeactivateLunSnapshot id)])).
      { cbn [taskRun deactivate]. apply keeping_run. unfold deactivateSnapshot.
        rewrite Hparam. cbn [must]. rewrite bind_ret.
        rewrite (bind_ok _ _ _ _ _ _ (callErr_run _ _ _ _ Hde)). reflexivity. }
      destruct (askErr (cli p) (DeleteLunSnapshot id) w2) as [[e|] w3] eqn:Hdel.
      * assert (Htask2 : taskRun delete params (∅ ∪ ∅) w2
                         = (Err e, w3, [OnErr Local (DeleteLunSnapshot id)])).
        { cbn [taskRun delete]. apply keeping_fail. unfold deleteSnapshot.
          rewrite Hparam. cbn [must]. rewrite bind_ret.
          rewrite (bind_err _ _ _ _ _ _ (callErr_fail _ _ _ _ Hdel)). reflexivity. }
        rewrite (bind_ok _ _ _ _ _ _
                   (Run_of flow params _ _ _ _ _ _ _
                      (runTasks_step _ _ _ _ _ _ _ _ _ _ _ _ _ _ _ Htask
                         (runTasks_fail _ _ _ _ _ _ _ _ Htask2)))).
        split; [reflexivity|]. intros w4 Hw4. discriminate.
      * assert (Htask2 : taskRun delete params (∅ ∪ ∅) w2
                         = (Ok (params, ∅), w3, [OnErr Local (DeleteLunSnapshot id)])).
        { cbn [taskRun delete]. apply keeping_run. unfold deleteSnapshot.
          rewrite Hparam. cbn [must]. rewrite bind_ret.
          rewrite (bind_ok _ _ _ _ _ _ (callErr_run _ _ _ _ Hdel)). reflexivity. }
        rewrite (bind_ok _ _ _ _ _ _
                   (Run_of flow params _ _ _ _ _ _ _
                      (runTasks_step _ _ _ _ _ _ _ _ _ _ _ _ _ _ _ Htask
                         (runTasks_step _ _ _ _ _ _ _ _ _ _ _ _ _ _ _ Htask2
                            (runTasks_nil _ _ _))))).
        split; [reflexivity|]. intros w4 Hw4. reflexivity.
Qed.

End Flows.

End VolumeFlows.

(** ** Package volume: what the parameter analyzers write *)

Module VolumeParams.

Import Volume MonadFacts VolumeSpec.

(** The second map differs from the first at most at the keys [ks]. *)
Definition writesOnly (ks : list string) (params params' : Map) : Prop :=
  forall k, ~ In k ks -> params' !! k = params !! k.

Lemma writesOnly_refl (ks : list string) (params : Map) : writesOnly ks params params.
Proof. intros k _. reflexivity. Qed.

Lemma writesOnly_insert (ks : list string) (k : string) (v : Value) (params : Map) :
  In k ks -> writesOnly ks params (<[k := v]> params).
Proof.
  intros Hk k' Hk'. apply lookup_insert_ne. intros ->. exact (Hk' Hk).
Qed.

Lemma writesOnly_trans (ks : list string) (a b c : Map) :
  writesOnly ks a b -> writesOnly ks b c -> writesOnly ks a c.
Proof. intros Hab Hbc k Hk. rewrite (Hbc k Hk). exact (Hab k Hk). Qed.

Lemma writesOnly_incl (ks ks' : list string) (a b : Map) :
  incl ks ks' -> writesOnly ks a b -> writesOnly ks' a b.
Proof. intros Hincl Hab k Hk. apply Hab. intros Hin. exact (Hk (Hincl _ Hin)). Qed.

Section Analyzers.

Context {W : Type} `{Env}.
Variable p : SAN W.

Lemma getAllocType_writes (params params' : Map) (w w' : W) (t : list Call) :
  getAllocType params w = (Ok params', w', t) ->
  params' = <["alloctype" := VInt (if isStr (params !! "alloctype") "thick"
                                   then 0 else 1)]> params.
Proof.
  unfold getAllocType. destruct (isStr _ _); intros Hrun;
    apply ret_inv in Hrun as (-> & _ & _); reflexivity.
Qed.

Lemma getCloneSpeed_writes (params params' : Map) (w w' : W) (t : list Call) :
  getCloneSpeed params w = (Ok params', w', t) ->
  writesOnly ["clonespeed"] params params'.
Proof.
  unfold getCloneSpeed.
  destruct (negb _);
    [intros Hrun; apply ret_inv in Hrun as (-> & _ & _); apply writesOnly_refl|].
  assert (Hins : forall v, ret (<["clonespeed" := v]> params) w = (Ok params', w', t) ->
                           writesOnly ["clonespeed"] params params').
  { intros v Hrun. apply ret_inv in Hrun as (-> & _ & _).
    apply writesOnly_insert. left. reflexivity. }
  destruct (asString (params !! "clonespeed")) as [v|]; [|apply Hins].
  destruct (nonEmpty v); [|apply Hins].
  destruct (Atoi v) as [speed err].
  destruct (_ || _); [discriminate|apply Hins].
Qed.

Lemma getPoolID_writes (params params' : Map) (w w' : W) (t : list Call) :
  getPoolID p params w = (Ok params', w', t) ->
  exists poolID, params' = <["poolID" := VStr poolID]> params.
Proof.
  unfold getPoolID.
  destruct (asString (params !! "storagepool")) as [poolName|]; [|discriminate].
  destruct (nonEmpty poolName); [|discriminate].
  intros Hrun. apply bind_inv_ok in Hrun as (pool & w1 & t1 & t2 & _ & Hrun & _).
  destruct pool as [pool|]; [|discriminate].
  apply bind_inv_ok in Hrun as (poolID & w2 & t3 & t4 & _ & Hrun & _).
  apply ret_inv in Hrun as (-> & _ & _). exists poolID. reflexivity.
Qed.

Lemma getQoS_writes (params params' : Map) (w w' : W) (t : list Call) :
  getQoS p params w = (Ok params', w', t) ->
  writesOnly ["qos"] params params'.
Proof.
  unfold getQoS.
  assert (Hsame : ret params w = (Ok params', w', t) -> writesOnly ["qos"] params params').
  { intros Hrun. apply ret_inv in Hrun as (-> & _ & _). apply writesOnly_refl. }
  destruct (asString (params !! "qos")) as [v|]; [|exact Hsame].
  destruct (nonEmpty v); [|exact Hsame].
  destruct (ExtractQoSParameters (product p) v) as [e|qos]; [discriminate|].
  destruct (ValidateQoSParameters (product p) qos) as [e|validatedQos]; [discriminate|].
  intros Hrun. apply ret_inv in Hrun as (-> & _ & _).
  apply writesOnly_insert. left. reflexivity.
Qed.

Lemma setWorkLoadID_writes (cli : Tgt) (params params' : Map) (w w' : W)
  (t : list Call) :
  setWorkLoadID p cli params w = (Ok params', w', t) ->
  writesOnly ["workloadTypeID"] params params'.
Proof.
  unfold setWorkLoadID.
  destruct (asString (params !! "applicationtype")) as [app|].
  - intros Hrun. apply bind_inv_ok in Hrun as (id & w1 & t1 & t2 & _ & Hrun & _).
    apply ret_inv in Hrun as (-> & _ & _). apply writesOnly_insert. left. reflexivity.
  - intros Hrun. apply ret_inv in Hrun as (-> & _ & _). apply writesOnly_refl.
Qed.

(** The four analyzers, one after the other. *)
Lemma commonPreCreate_inv (params params' : Map) (w w' : W) (t : list Call) :
  commonPreCreate p params w = (Ok params', w', t) ->
  exists (p2 : Map) (poolID : string),
    writesOnly ["clonespeed"]
      (<["alloctype" := VInt (if isStr (params !! "alloctype") "thick"
                              then 0 else 1)]> params) p2 /\
    writesOnly ["qos"] (<["poolID" := VStr poolID]> p2) params'.
Proof.
  unfold commonPreCreate. cbn [runAnalyzers]. intros Hrun.
  apply bind_inv_ok in Hrun as (p1 & w1 & t1 & t1' & H1 & Hrun & _).
  apply bind_inv_ok in Hrun as (p2 & w2 & t2 & t2' & H2 & Hrun & _).
  apply bind_inv_ok in Hrun as (p3 & w3 & t3 & t3' & H3 & Hrun & _).
  apply bind_inv_ok in Hrun as (p4 & w4 & t4 & t4' & H4 & Hrun & _).
  apply ret_inv in Hrun as (-> & _ & _).
  apply getAllocType_writes in H1. apply getCloneSpeed_writes in H2.
  apply getPoolID_writes in H3 as [poolID H3]. apply getQoS_writes in H4.
  subst p1 p3. exists p2, poolID. split; assumption.
Qed.

(** What [preCreate] relies on: the keys it reads after [commonPreCreate]
    are not among those the analyzers write. *)
Lemma commonPreCreate_keeps (params params' : Map) (w w' : W) (t : list Call) (k : string) :
  commonPreCreate p params w = (Ok params', w', t) ->
  ~ In k ["alloctype"; "clonespeed"; "poolID"; "qos"] ->
  params' !! k = params !! k.
Proof.
  intros Hrun Hk. apply commonPreCreate_inv in Hrun as (p2 & poolID & H2 & H4).
  rewrite (H4 k), lookup_insert_ne, (H2 k), lookup_insert_ne;
    first [reflexivity | intros ->; apply Hk; cbn; tauto
          | intros Hin; apply Hk; cbn in Hin |- *; tauto].
Qed.

(** X15.  The analyzers of [commonPreCreate] write four keys and leave every
    other parameter alone: [alloctype] becomes 0 for [thick] and 1 for
    anything else, [poolID] is the ID the array reports for the pool, and
    [clonespeed] and [qos] may be rewritten. *)
Theorem commonPreCreate_writes (params params' : Map) (w w' : W) (t : list Call) :
  commonPreCreate p params w = (Ok params', w', t) ->
  writesOnly ["alloctype"; "clonespeed"; "poolID"; "qos"] params params' /\
  params' !! "alloctype"
  = Some (VInt (if isStr (params !! "alloctype") "thick" then 0 else 1)) /\
  exists poolID, params' !! "poolID" = Some (VStr poolID).
Proof.
  intros Hrun.
  split; [intros k Hk; exact (commonPreCreate_keeps _ _ _ _ _ k Hrun Hk)|].
  apply commonPreCreate_inv in Hrun as (p2 & poolID & H2 & H4).
  split.
  - rewrite (H4 "alloctype"), lookup_insert_ne, (H2 "alloctype"), lookup_insert_eq;
      first [reflexivity | discriminate | intros [Heq|[]]; discriminate].
  - exists poolID.
    rewrite (H4 "poolID"), lookup_insert_eq;
      first [reflexivity | intros [Heq|[]]; discriminate].
Qed.

(** X16.  [preCreate] resolves the source of a volume by precedence.  A
    [sourcevolumename] wins: [clonefrom] becomes its LUN name and
    [fromSnapshot] is not touched.  Otherwise a [sourcesnapshotname] sets
    [fromSnapshot] to its snapshot name, and then a [clonefrom] that was
    passed as well stays as it was given.  The volume name is replaced by its
    LUN name in every case. *)
Theorem preCreate_source_precedence (params params' : Map) (w w' : W) (t : list Call) :
  preCreate p params w = (Ok params', w', t) ->
  (exists name, asString (params !! "name") = Some name /\
                params' !! "name" = Some (VStr (GetLunName name))) /\
  (forall v, asString (params !! "sourcevolumename") = Some v ->
             params' !! "clonefrom" = Some (VStr (GetLunName v)) /\
             params' !! "fromSnapshot" = params !! "fromSnapshot") /\
  (forall v, asString (params !! "sourcevolumename") = None ->
             asString (params !! "sourcesnapshotname") = Some v ->
             params' !! "fromSnapshot" = Some (VStr (GetSnapshotName v)) /\
             params' !! "clonefrom" = params !! "clonefrom").
Proof.
  unfold preCreate. intros Hrun.
  apply bind_inv_ok in Hrun as (p1 & w1 & t1 & t1' & Hcommon & Hrun & _).
  apply bind_inv_ok in Hrun as (name & w2 & t2 & t2' & Hname & Hset & _).
  apply must_inv_ok in Hname as (Hname & _ & _).
  pose proof (fun k => commonPreCreate_keeps _ _ _ _ _ k Hcommon) as Hkeep.
  apply setWorkLoadID_writes in Hset.
  assert (Hk : forall k, In k ["name"; "sourcevolumename"; "sourcesnapshotname";
                               "clonefrom"; "fromSnapshot"] ->
                         p1 !! k = params !! k).
  { intros k Hin. apply Hkeep. cbn in Hin |- *.
    intros Hbad. repeat destruct Hin as [<-|Hin]; try destruct Hin;
      repeat destruct Hbad as [Hbad|Hbad]; try discriminate; try destruct Hbad. }
  rewrite !(lookup_insert_ne (M := gmap string) _ "name") in Hset by discriminate.
  rewrite !Hk in Hset by (cbn; tauto). rewrite Hk in Hname by (cbn; tauto).
  assert (Hw : forall k, k <> "workloadTypeID" -> ~ In k ["workloadTypeID"]).
  { intros k Hne [Heq|[]]. congruence. }
  assert (Gname := Hset "name" (Hw "name" ltac:(discriminate))).
  assert (Gclone := Hset "clonefrom" (Hw "clonefrom" ltac:(discriminate))).
  assert (Gsnap := Hset "fromSnapshot" (Hw "fromSnapshot" ltac:(discriminate))).
  clear Hset Hw.
  split; [|split].
  - exists name. split; [exact Hname|]. rewrite Gname.
    destruct (asString (params !! "sourcevolumename"));
      [|destruct (asString (params !! "sourcesnapshotname"));
        [|destruct (asString (params !! "clonefrom"))]];
      rewrite ?(lookup_insert_ne (M := gmap string) _ "clonefrom") by discriminate;
      rewrite ?(lookup_insert_ne (M := gmap string) _ "fromSnapshot") by discriminate;
      apply lookup_insert_eq.
  - intros v Hv. rewrite Hv in Gclone, Gsnap. split.
    + rewrite Gclone. apply lookup_insert_eq.
    + rewrite Gsnap, !lookup_insert_ne by discriminate. apply Hk. cbn. tauto.
  - intros v Hnone Hv. rewrite Hnone, Hv in Gclone, Gsnap. split.
    + rewrite Gsnap. apply lookup_insert_eq.
    + rewrite Gclone, !lookup_insert_ne by discriminate. apply Hk. cbn. tauto.
Qed.

End Analyzers.

End VolumeParams.

(** ** Package nfs: parsing, formatting and mounting *)

Module NfsFlows.

Import Nfs MonadFacts NfsSpec.

(** The command [isDevFormat] runs. *)
Definition blkidCmd (sourcePath : string) : string :=
  "blkid -o udev " +:+ sourcePath +:+ " | grep ID_FS_UUID | cut -d = -f2".

(** The command [formatDisk] runs. *)
Definition mkfsCmd (sourcePath fsType : string) : string :=
  "mkfs -t " +:+ fsType +:+ " -F " +:+ sourcePath.

(** The command [mountUnix] runs. *)
Definition mountCmd (sourcePath targetPath flags : string) : string :=
  if nonEmpty flags
  then "mount " +:+ sourcePath +:+ " " +:+ targetPath +:+ " -o " +:+ flags
  else "mount " +:+ sourcePath +:+ " " +:+ targetPath.

(** Whether a call runs [mkfs]. *)
Definition isMkfs (c : SysCall) : bool :=
  match c with
  | Exec cmd => String.prefix "mkfs " cmd
  | _ => false
  end.

(** What the read of [/proc/mounts] must have given for [mountUnix] to go on
    to the mount: an error, or a table in which the target is absent or
    mounted from the requested source. *)
Definition noConflict (sourcePath targetPath : string) (r : error + string) : Prop :=
  match r with
  | inl _ => True
  | inr data => forall value, parseMounts data !! targetPath = Some value ->
                              value = sourcePath
  end.

(** [parseNFSInfo] asserts no type: every read is a checked one. *)
Lemma parseNFSInfo_returns (connectionProperties : Map) :
  parseNFSInfo connectionProperties <> Panic.
Proof.
  unfold parseNFSInfo.
  repeat match goal with
         | |- context [match asString ?x with _ => _ end] => destruct (asString x)
         | |- context [if nonEmpty ?x then _ else _] => destruct (nonEmpty x)
         end; discriminate.
Qed.

(** X17.  A connection info that [parseNFSInfo] accepts has a source type, a
    source path and a target path that are the non-empty strings of the
    request, a file system type that is never empty ([ext4] unless the
    request names one), and the mount flags of the request or none.
    [parseNFSInfo] never panics. *)
Theorem parseNFSInfo_fields (connectionProperties : Map) :
  parseNFSInfo connectionProperties <> Panic /\
  forall conn, parseNFSInfo connectionProperties = Ok conn ->
    asString (connectionProperties !! "srcType") = Some (srcType conn) /\
    srcType conn <> "" /\
    asString (connectionProperties !! "sourcePath") = Some (sourcePath conn) /\
    sourcePath conn <> "" /\
    asString (connectionProperties !! "targetPath") = Some (targetPath conn) /\
    targetPath conn <> "" /\
    fsType conn <> "" /\
    (fsType conn = "ext4" \/
     asString (connectionProperties !! "fsType") = Some (fsType conn)) /\
    mntFlags conn = default "" (asString (connectionProperties !! "mountFlags")).
Proof.
  unfold parseNFSInfo, nonEmpty.
  destruct (asString (connectionProperties !! "srcType")) as [st|];
    [|split; [discriminate|intros conn; discriminate]].
  case_bool_decide as Hst; cbn [negb]; [split; [discriminate|intros conn; discriminate]|].
  destruct (asString (connectionProperties !! "sourcePath")) as [sp|];
    [|split; [discriminate|intros conn; discriminate]].
  case_bool_decide as Hsp; cbn [negb]; [split; [discriminate|intros conn; discriminate]|].
  destruct (asString (connectionProperties !! "targetPath")) as [tp|];
    [|split; [discriminate|intros conn; discriminate]].
  case_bool_decide as Htp; cbn [negb]; [split; [discriminate|intros conn; discriminate]|].
  split; [discriminate|]. intros conn [= <-]. cbn.
  repeat (split; [first [reflexivity | assumption]|]).
  destruct (asString (connectionProperties !! "fsType")) as [ft|]; cbn [default].
  - case_bool_decide as Hft; cbn [negb].
    + split; [discriminate|]. split; [left|]; reflexivity.
    + split; [exact Hft|]. split; [right|]; reflexivity.
  - rewrite bool_decide_eq_true_2 by reflexivity. cbn [negb].
    split; [discriminate|]. split; [left|]; reflexivity.
Qed.

Section Host.

Context {W : Type}.
Variable os : OS W.

(** X18.  A request that [parseNFSInfo] rejects, or whose source type is
    neither [block] nor [fs], fails without a single call to the host. *)
Theorem tryConnectVolume_invalid_is_untouched (connMap : Map) (w : W) :
  (forall conn, parseNFSInfo connMap = Ok conn ->
                srcType conn <> "block" /\ srcType conn <> "fs") ->
  exists e, tryConnectVolume os connMap w = (Err e, w, []).
Proof.
  intros Hbad. unfold tryConnectVolume.
  pose proof (parseNFSInfo_returns connMap) as Hpanic.
  destruct (parseNFSInfo connMap) as [conn|e|]; [| |congruence].
  - destruct (Hbad conn eq_refl) as [Hblock Hfs].
    rewrite !bool_decide_eq_false_2 by assumption. eexists. reflexivity.
  - eexists. reflexivity.
Qed.

Lemma only_ExecShellCmd (P : SysCall -> Prop) (cmd : string) :
  P (Exec cmd) -> Traces.only P (ExecShellCmd os cmd).
Proof. intros HP. apply Traces.only_perform. exact HP. Qed.

(** [mountUnix] never runs [mkfs]. *)
Lemma mountUnix_no_mkfs (sourcePath targetPath flags : string) :
  Traces.only (fun c => isMkfs c = false) (mountUnix os sourcePath targetPath flags).
Proof.
  unfold mountUnix, preMount, readMountPoints.
  repeat first
    [ apply Traces.only_ret | apply Traces.only_throw
    | apply Traces.only_perform; reflexivity
    | apply Traces.only_attempt | apply Traces.only_liftErr
    | apply Traces.only_bind; [|intros ?]
    | match goal with
      | |- Traces.only _ (match ?x with _ => _ end) => destruct x
      | |- Traces.only _ (if ?x then _ else _) => destruct x
      end ].
Qed.

(** X19.  [mountDisk] asks [blkid] first and formats only a device for which
    [blkid] succeeds with an empty answer.  If [blkid] fails, nothing else
    is run; if it names a file system, no [mkfs] is ever run; if its answer
    is empty, [mkfs] is the very next call, it is run once, and when it
    fails nothing is mounted. *)
Theorem mountDisk_formats_blank_only (sourcePath targetPath fsType flags : string)
  (output : string) (err : option error) (w w1 : W) :
  utilsExecShellCmd os (blkidCmd sourcePath) w = ((output, err), w1) ->
  (forall e, err = Some e ->
     mountDisk os sourcePath targetPath fsType flags w
     = (Err e, w1, [Exec (blkidCmd sourcePath)])) /\
  (err = None -> output <> "" ->
     Forall (fun c => isMkfs c = false)
       (calls (mountDisk os sourcePath targetPath fsType flags w))) /\
  (err = None -> output = "" ->
     exists rest,
       calls (mountDisk os sourcePath targetPath fsType flags w)
       = Exec (blkidCmd sourcePath) :: Exec (mkfsCmd sourcePath fsType) :: rest /\
       Forall (fun c => isMkfs c = false) rest /\
       (forall e, (utilsExecShellCmd os (mkfsCmd sourcePath fsType) w1).1.2 = Some e ->
                  rest = [] /\
                  result (mountDisk os sourcePath targetPath fsType flags w) = Err e)).
Proof.
  intros Hblkid.
  assert (Hfmt : isDevFormat os sourcePath w
                 = match err with
                   | Some e => (Err e, w1, [Exec (blkidCmd sourcePath)])
                   | None => (Ok (nonEmpty output), w1, [Exec (blkidCmd sourcePath)])
                   end).
  { unfold isDevFormat. fold (blkidCmd sourcePath).
    rewrite (bind_ok _ _ _ _ _ _ (ExecShellCmd_run os _ w)), Hblkid.
    destruct err; reflexivity. }
  split; [|split].
  - intros e ->. unfold mountDisk. rewrite (bind_err _ _ _ _ _ _ Hfmt). reflexivity.
  - intros -> Hout. unfold mountDisk. rewrite (bind_ok _ _ _ _ _ _ Hfmt).
    unfold nonEmpty. rewrite bool_decide_eq_false_2 by exact Hout. cbn [negb].
    rewrite calls_prepend. constructor; [reflexivity|].
    apply (Traces.only_bind (fun c => isMkfs c = false));
      [apply mountUnix_no_mkfs|intros _].
    apply Traces.only_liftErr0, Traces.only_perform. reflexivity.
  - intros -> ->. unfold mountDisk. rewrite (bind_ok _ _ _ _ _ _ Hfmt).
    cbn [nonEmpty negb bool_decide decide_rel]. 
    unfold nonEmpty. rewrite bool_decide_eq_true_2 by reflexivity. cbn [negb].
    unfold formatDisk. fold (mkfsCmd sourcePath fsType). rewrite bind_assoc.
    rewrite (bind_ok _ _ _ _ _ _ (ExecShellCmd_run os _ w1)).
    destruct (utilsExecShellCmd os (mkfsCmd sourcePath fsType) w1) as [[out' [e|]] w2];
      cbn [fst snd].
    + exists []. rewrite bind_throw. split; [reflexivity|]. split; [constructor|].
      intros e' [= <-]. split; reflexivity.
    + rewrite bind_ret.
      exists (calls (mountUnix os sourcePath targetPath flags w2)).
      rewrite !calls_prepend. split; [reflexivity|].
      split; [apply mountUnix_no_mkfs|discriminate].
Qed.

(** X20.  Once [preMount] has passed, [mountUnix] reads [/proc/mounts] and
    then runs exactly one [mount] command, with [-o] and the flags when
    there are flags, unless the table maps the target to another source.
    In particular a table that cannot be read does not stop the mount, and
    a target already mounted from the requested source is mounted again.
    The result of [mountUnix] is that of the command. *)
Theorem mountUnix_mounts_once (sourcePath targetPath flags : string)
  (r : error + string) (w w1 w2 : W) (t1 : list SysCall) :
  preMount os sourcePath targetPath w = (Ok tt, w1, t1) ->
  ioutilReadFile os "/proc/mounts" w1 = (r, w2) ->
  noConflict sourcePath targetPath r ->
  mountUnix os sourcePath targetPath flags w
  = (match (utilsExecShellCmd os (mountCmd sourcePath targetPath flags) w2).1.2 with
     | Some e => Err e
     | None => Ok tt
     end,
     (utilsExecShellCmd os (mountCmd sourcePath targetPath flags) w2).2,
     t1 ++ [ReadFile "/proc/mounts"; Exec (mountCmd sourcePath targetPath flags)]).
Proof.
  intros Hpre Hread Hok. unfold mountUnix. rewrite (bind_ok _ _ _ _ _ _ Hpre).
  assert (Hrun : exists r',
             attempt (readMountPoints os) w1 = (Ok r', w2, [ReadFile "/proc/mounts"]) /\
             match match r' with inr m => m | inl _ => ∅ end !! targetPath with
             | Some value => negb (bool_decide (value = sourcePath))
             | None => false
             end = false).
  { destruct r as [e|data].
    - exists (inl e). split; [|reflexivity].
      apply attempt_err. unfold readMountPoints, liftErr.
      rewrite bind_assoc. unfold perform at 1. unfold bind at 1. rewrite Hread.
      reflexivity.
    - exists (inr (parseMounts data)).
      split; [apply attempt_ok, readMountPoints_run, Hread|].
      unfold noConflict in Hok.
      destruct (parseMounts data !! targetPath) as [value|] eqn:Hlook; [|reflexivity].
      rewrite (Hok value eq_refl), bool_decide_eq_true_2 by reflexivity. reflexivity. }
  destruct Hrun as (r' & Hrun & Hfree).
  rewrite (bind_ok _ _ _ _ _ _ Hrun). cbv zeta. rewrite Hfree.
  assert (Hcmd : (if nonEmpty flags
                  then ExecShellCmd os ("mount " +:+ sourcePath +:+ " " +:+ targetPath
                                        +:+ " -o " +:+ flags)
                  else ExecShellCmd os ("mount " +:+ sourcePath +:+ " " +:+ targetPath))
                 = ExecShellCmd os (mountCmd sourcePath targetPath flags)).
  { unfold mountCmd. destruct (nonEmpty flags); reflexivity. }
  rewrite Hcmd, (bind_ok _ _ _ _ _ _ (ExecShellCmd_run os _ w2)).
  destruct (utilsExecShellCmd os (mountCmd sourcePath targetPath flags) w2)
    as [[out [e|]] w3]; unfold prepend, throw, ret; cbn; rewrite <- ?app_assoc;
    reflexivity.
Qed.

End Host.

End NfsFlows.

(** ** Package nfs: a target that is mounted from elsewhere *)

Module NfsConflict.

Import Nfs MonadFacts NfsSpec NfsFlows.

Section Host.

Context {W : Type}.
Variable os : OS W.

(** The table read from [/proc/mounts] in world [w] maps the target to a
    source other than the requested one. *)
Definition conflictAt (sourcePath targetPath : string) (w : W) : Prop :=
  exists data value,
    (ioutilReadFile os "/proc/mounts" w).1 = inr data /\
    parseMounts data !! targetPath = Some value /\
    value <> sourcePath.

(** Where [tryConnectVolume] stands when it calls [mountUnix]: the world
    then, or else the error with which it returned before.  A share is
    mounted at once; for a block device [mountDisk] runs [blkid] first, and
    [mkfs] if the device is blank. *)
Definition mountStart (conn : connectorInfo) (w : W) : error + W :=
  if bool_decide (srcType conn = "block") then
    let '((output, err), w1) := utilsExecShellCmd os (blkidCmd (sourcePath conn)) w in
    match err with
    | Some e => inl e
    | None =>
        if nonEmpty output then inr w1
        else
          let '((_, err), w2) :=
            utilsExecShellCmd os (mkfsCmd (sourcePath conn) (fsType conn)) w1 in
          match err with
          | Some e => inl e
          | None => inr w2
          end
    end
  else if bool_decide (srcType conn = "fs") then inr w
  else inl (errorsNew "volume device not found").

(** The result of [mountUnix] under a conflict: the error of [preMount] if
    it has one, else the mount conflict. *)
Definition refusal (sourcePath targetPath : string) (w : W) : outcome unit :=
  match result (preMount os sourcePath targetPath w) with
  | Ok _ => Err (errorsNew (mountConflictMsg sourcePath targetPath))
  | r => r
  end.

Lemma mountUnix_refuses (sourcePath targetPath flags : string) (w : W) :
  conflictAt sourcePath targetPath (worldOf (preMount os sourcePath targetPath w)) ->
  noExec (calls (mountUnix os sourcePath targetPath flags w)) /\
  result (mountUnix os sourcePath targetPath flags w) = refusal sourcePath targetPath w.
Proof.
  intros Hconflict. unfold refusal.
  pose proof (preMount_noExec os sourcePath targetPath w) as Hpre.
  destruct (preMount os sourcePath targetPath w) as [[[[]|e|] w1] t1] eqn:Hrun;
    unfold worldOf, calls, result in *; cbn [fst snd] in *.
  - destruct Hconflict as (data & value & Hread & Hlook & Hne).
    destruct (ioutilReadFile os "/proc/mounts" w1) as [r w2] eqn:Hfile.
    cbn [fst] in Hread. subst r.
    rewrite (mountUnix_conflict os _ _ flags _ _ _ _ _ _ Hrun Hfile Hlook Hne).
    cbn [fst snd]. split; [|reflexivity].
    intros cmd Hin. apply in_app_or in Hin as [Hin|[Hin|[]]]; [|discriminate].
    exact (Hpre cmd Hin).
  - unfold mountUnix. rewrite (bind_err _ _ _ _ _ _ Hrun). cbn [fst snd].
    split; [exact Hpre|reflexivity].
  - unfold mountUnix. rewrite (bind_panic _ _ _ _ _ Hrun). cbn [fst snd].
    split; [exact Hpre|reflexivity].
Qed.

Lemma refusal_not_ok (sourcePath targetPath : string) (w : W) :
  isOk (refusal sourcePath targetPath w) = false.
Proof. unfold refusal. destruct (result _); reflexivity. Qed.

Lemma prepend_prepend {A} (t1 t2 : list SysCall) (x : outcome A * W * list SysCall) :
  prepend t1 (prepend t2 x) = prepend (t1 ++ t2) x.
Proof. destruct x as [[r w] t]. unfold prepend. rewrite app_assoc. reflexivity. Qed.

(** A computation that does not end well is not continued. *)
Lemma bind_stops {A B} (m : M W SysCall A) (k : A -> M W SysCall B) (w : W) :
  isOk (result (m w)) = false ->
  calls (bind m k w) = calls (m w) /\
  match result (m w) with
  | Ok _ => True
  | Err e => result (bind m k w) = Err e
  | Panic => result (bind m k w) = Panic
  end.
Proof.
  unfold bind, result, calls. destruct (m w) as [[[a|e|] w1] t1]; cbn [fst snd isOk];
    [discriminate|split; reflexivity|split; reflexivity].
Qed.

(** C8, as the code has it.  When the table that [mountUnix] reads from
    [/proc/mounts] maps the target path to a source other than the requested
    one, [mountUnix] runs no command at all and fails: with the error of
    [preMount] if the source path is missing or the target path cannot be
    created, and with the mount conflict otherwise.  Attach
    ([tryConnectVolume]) of a share is that [mountUnix].  Attach of a block
    device runs [blkid] first, and [mkfs] on a blank device; when one of
    them fails Attach returns its error, and otherwise it reaches
    [mountUnix], in the world they leave, with the same outcome.  In every
    case Attach fails and never runs [mount]. *)
Theorem mount_conflict_never_mounts (sourcePath targetPath flags : string) :
  (forall w,
      conflictAt sourcePath targetPath (worldOf (preMount os sourcePath targetPath w)) ->
      noExec (calls (mountUnix os sourcePath targetPath flags w)) /\
      result (mountUnix os sourcePath targetPath flags w)
      = match result (preMount os sourcePath targetPath w) with
        | Ok _ => Err (errorsNew (mountConflictMsg sourcePath targetPath))
        | r => r
        end) /\
  (forall connMap conn w,
      parseNFSInfo connMap = Ok conn ->
      Nfs.sourcePath conn = sourcePath ->
      Nfs.targetPath conn = targetPath ->
      mntFlags conn = flags ->
      match mountStart conn w with
      | inl e =>
          result (tryConnectVolume os connMap w) = Err e /\
          noMount (calls (tryConnectVolume os connMap w))
      | inr w0 =>
          conflictAt sourcePath targetPath
            (worldOf (preMount os sourcePath targetPath w0)) ->
          result (tryConnectVolume os connMap w)
          = match result (preMount os sourcePath targetPath w0) with
            | Ok _ => Err (errorsNew (mountConflictMsg sourcePath targetPath))
            | r => r
            end /\
          noMount (calls (tryConnectVolume os connMap w))
      end).
Proof.
  split; [intros w; apply mountUnix_refuses|].
  intros connMap conn w Hparse <- <- <-.
  unfold tryConnectVolume, mountStart. rewrite Hparse.
  assert (Hunix : forall w0,
             conflictAt (Nfs.sourcePath conn) (Nfs.targetPath conn)
               (worldOf (preMount os (Nfs.sourcePath conn) (Nfs.targetPath conn) w0)) ->
             forall (probes : list SysCall) (k : unit -> M W SysCall unit),
               noMount probes ->
               result (prepend probes
                         (bind (mountUnix os (Nfs.sourcePath conn) (Nfs.targetPath conn)
                                  (mntFlags conn)) k w0))
               = refusal (Nfs.sourcePath conn) (Nfs.targetPath conn) w0 /\
               noMount (calls (prepend probes
                                 (bind (mountUnix os (Nfs.sourcePath conn)
                                          (Nfs.targetPath conn) (mntFlags conn)) k w0)))).
  { intros w0 Hconflict probes k Hprobes.
    destruct (mountUnix_refuses _ _ (mntFlags conn) w0 Hconflict) as [Hno Hres].
    pose proof (refusal_not_ok (Nfs.sourcePath conn) (Nfs.targetPath conn) w0) as Hnot.
    rewrite <- Hres in Hnot |- *.
    destruct (bind_stops _ k w0 Hnot) as [Hcalls Hstop].
    rewrite result_prepend, calls_prepend, Hcalls. split.
    - destruct (result (mountUnix _ _ _ _ w0)); [discriminate|exact Hstop|exact Hstop].
    - intros cmd Hin. apply in_app_or in Hin as [Hin|Hin]; [exact (Hprobes cmd Hin)|].
      destruct (Hno cmd Hin). }
  assert (Hbare : forall w0,
             mountUnix os (Nfs.sourcePath conn) (Nfs.targetPath conn) (mntFlags conn) w0
             = prepend [] (bind (mountUnix os (Nfs.sourcePath conn) (Nfs.targetPath conn)
                                   (mntFlags conn)) ret w0)).
  { intros w0. unfold prepend, bind, ret.
    destruct (mountUnix _ _ _ _ w0) as [[[[]|e|] w1] t1]; cbn [app];
      rewrite ?app_nil_r; reflexivity. }
  case_bool_decide as Hblock.
  - unfold mountDisk, isDevFormat. fold (blkidCmd (Nfs.sourcePath conn)).
    rewrite bind_assoc, (bind_ok _ _ _ _ _ _ (ExecShellCmd_run os _ w)).
    destruct (utilsExecShellCmd os (blkidCmd (Nfs.sourcePath conn)) w)
      as [[output [e|]] w1]; cbn [fst snd].
    { rewrite bind_throw. split; [reflexivity|].
      intros cmd [[= <-]|[]]. reflexivity. }
    rewrite bind_ret. destruct (nonEmpty output); cbn [negb].
    + intros Hconflict. apply (Hunix w1 Hconflict).
      intros cmd [[= <-]|[]]. reflexivity.
    + unfold formatDisk. fold (mkfsCmd (Nfs.sourcePath conn) (fsType conn)).
      rewrite bind_assoc, (bind_ok _ _ _ _ _ _ (ExecShellCmd_run os _ w1)).
      destruct (utilsExecShellCmd os (mkfsCmd (Nfs.sourcePath conn) (fsType conn)) w1)
        as [[output' [e|]] w2]; cbn [fst snd].
      { rewrite bind_throw. split; [reflexivity|].
        intros cmd [[= <-]|[[= <-]|[]]]; reflexivity. }
      rewrite bind_ret. intros Hconflict.
      rewrite (Hbare w2), !prepend_prepend. cbn [app].
      apply (Hunix w2 Hconflict).
      intros cmd [[= <-]|[[= <-]|[]]]; reflexivity.
  - case_bool_decide as Hfs.
    + intros Hconflict. unfold mountFS. rewrite (Hbare w).
      apply (Hunix w Hconflict). intros cmd [].
    + split; [reflexivity|]. intros cmd [].
Qed.

End Host.

(** The sixth scenario of the specification: [/proc/mounts] already holds
    [/dev/sdb /data], and [/dev/sdc] is to be attached on [/data]. *)
Definition attachSdc : Map :=
  <["srcType" := VStr "block"]>
  (<["sourcePath" := VStr "/dev/sdc"]>
   (<["targetPath" := VStr "/data"]>
    (<["fsType" := VStr "ext4"]> ∅))).

Definition sdcInfo : connectorInfo :=
  {| srcType := "block"; sourcePath := "/dev/sdc"; targetPath := "/data";
     fsType := "ext4"; mntFlags := "" |}.

Lemma mount_conflict_never_mounts_witness :
  result (tryConnectVolume (Sample.hostOS conflictHost) attachSdc [])
  = Err (errorsNew (mountConflictMsg "/dev/sdc" "/data")) /\
  noMount (calls (tryConnectVolume (Sample.hostOS conflictHost) attachSdc [])) /\
  result (mountUnix (Sample.hostOS conflictHost) "/dev/sdc" "/data" "" [])
  = Err (errorsNew (mountConflictMsg "/dev/sdc" "/data")) /\
  noExec (calls (mountUnix (Sample.hostOS conflictHost) "/dev/sdc" "/data" "" [])).
Proof.
  assert (Hparse : parseNFSInfo attachSdc = Ok sdcInfo) by (vm_compute; reflexivity).
  assert (Hstart : mountStart (Sample.hostOS conflictHost) sdcInfo []
                   = inr [blkidCmd "/dev/sdc"; mkfsCmd "/dev/sdc" "ext4"])
    by (vm_compute; reflexivity).
  assert (Hpre : forall w, result (preMount (Sample.hostOS conflictHost)
                                     "/dev/sdc" "/data" w) = Ok tt)
    by (intros w; reflexivity).
  assert (Htable : parseMounts sdbOnData !! "/data" = Some "/dev/sdb")
    by (vm_compute; reflexivity).
  assert (Hconflict : forall w,
             conflictAt (Sample.hostOS conflictHost) "/dev/sdc" "/data"
               (worldOf (preMount (Sample.hostOS conflictHost) "/dev/sdc" "/data" w))).
  { intros w. exists sdbOnData, "/dev/sdb".
    split; [reflexivity|]. split; [exact Htable|discriminate]. }
  pose proof (proj2 (mount_conflict_never_mounts (Sample.hostOS conflictHost)
                       "/dev/sdc" "/data" "")
                attachSdc sdcInfo [] Hparse eq_refl eq_refl eq_refl) as Hattach.
  rewrite Hstart, Hpre in Hattach.
  destruct (Hattach (Hconflict _)) as [Hres Hno].
  destruct (proj1 (mount_conflict_never_mounts (Sample.hostOS conflictHost)
                     "/dev/sdc" "/data" "") [] (Hconflict [])) as [Hexec Hunix].
  rewrite Hpre in Hunix.
  split; [exact Hres|]. split; [exact Hno|]. split; [exact Hunix|exact Hexec].
Defined.

(** The same host, except that [blkid] fails on [/dev/sdc]. *)
Definition blkidFails : Sample.host :=
  {| Sample.missing := []; Sample.procMounts := sdbOnData;
     Sample.failing := [(blkidCmd "/dev/sdc", "")] |}.

(** The target is mounted from another source and every check of [preMount]
    would pass, yet Attach fails with the error of [blkid], which it runs
    before it looks at the mount table, not with the mount conflict. *)
Lemma Attach_conflict_other_error :
  parseMounts sdbOnData !! "/data" = Some "/dev/sdb" /\
  "/dev/sdb" <> "/dev/sdc" /\
  (forall w, ioutilReadFile (Sample.hostOS blkidFails) "/proc/mounts" w
             = (inr sdbOnData, w)) /\
  (forall w, result (preMount (Sample.hostOS blkidFails) "/dev/sdc" "/data" w) = Ok tt) /\
  tryConnectVolume (Sample.hostOS blkidFails) attachSdc []
  = (Err (errorsNew "exit status 32"), [blkidCmd "/dev/sdc"],
     [Exec (blkidCmd "/dev/sdc")]) /\
  result (tryConnectVolume (Sample.hostOS blkidFails) attachSdc [])
  <> Err (errorsNew (mountConflictMsg "/dev/sdc" "/data")).
Proof.
  split; [vm_compute; reflexivity|]. split; [discriminate|].
  split; [intros w; reflexivity|]. split; [intros w; reflexivity|].
  split; [vm_compute; reflexivity|]. vm_compute. discriminate.
Qed.

(** On the host of the scenario the device is blank, and Attach formats it
    before it finds the conflict. *)
Example Attach_formats_before_conflict :
  calls (tryConnectVolume (Sample.hostOS conflictHost) attachSdc [])
  = [Exec (blkidCmd "/dev/sdc"); Exec (mkfsCmd "/dev/sdc" "ext4");
     Stat "/dev/sdc"; Stat "/data"; ReadFile "/proc/mounts"].
Proof. vm_compute. reflexivity. Qed.

End NfsConflict.

(** ** Package volume: the steps of Delete, Create and Expand *)

Module VolumeSteps.

Import Volume MonadFacts VolumeSpec FlowFacts VolumeFlows.

(** The IDs of the pairs of a list. *)
Definition pairIDs (pairs : list Obj) : list string :=
  omap (fun pairObj : Obj => asString (pairObj !! "ID")) pairs.

(** The IDs of the replication pairs a trace deletes, in order. *)
Definition deletedPairs (t : list Call) : list string :=
  omap (fun c => match c with
                 | OnErr Local (DeleteReplicationPair pairID) => Some pairID
                 | _ => None
                 end) t.

Section Steps.

Context {W : Type} `{Env}.
Variable p : SAN W.

Lemma deletedPairs_app (t1 t2 : list Call) :
  deletedPairs (t1 ++ t2) = deletedPairs t1 ++ deletedPairs t2.
Proof. apply omap_app. Qed.

(** X21.  When [deleteReplicationPairs] succeeds it has deleted every pair
    of the list, each once and in the order of the list, whether or not the
    splits it tried before succeeded. *)
Theorem deleteReplicationPairs_deletes_all (pairs : list Obj) (w w' : W)
  (t : list Call) :
  deleteReplicationPairs p pairs w = (Ok tt, w', t) ->
  deletedPairs t = pairIDs pairs /\ length (pairIDs pairs) = length pairs.
Proof.
  revert w t. induction pairs as [|pairObj rest IH]; intros w t;
    cbn [deleteReplicationPairs].
  - intros Hrun. apply ret_inv in Hrun as (_ & _ & ->). split; reflexivity.
  - intros Hrun.
    apply bind_inv_ok in Hrun as (pairID & w1 & t1 & t2 & Hid & Hrun & ->).
    apply must_inv_ok in Hid as (Hid & -> & ->).
    apply bind_inv_ok in Hrun as (status & w2 & t3 & t4 & Hst & Hrun & ->).
    apply must_inv_ok in Hst as (Hst & -> & ->).
    apply bind_inv_ok in Hrun as ([] & w3 & t5 & t6 & Hsplit & Hrun & ->).
    apply bind_inv_ok in Hrun as ([] & w4 & t7 & t8 & Hdel & Hrun & ->).
    apply callErr_inv in Hdel as [_ ->].
    apply IH in Hrun as [Hrest Hlen].
    assert (Ht5 : deletedPairs t5 = []).
    { destruct (_ || _).
      - apply ignore_inv in Hsplit as [_ <-]. rewrite callErr_calls. reflexivity.
      - apply ret_inv in Hsplit as (_ & _ & ->). reflexivity. }
    cbn [app]. rewrite deletedPairs_app, Ht5. cbn [app].
    unfold pairIDs in *. cbn [omap list_omap deletedPairs]. rewrite Hid.
    fold (deletedPairs t8). rewrite Hrest. cbn [length]. rewrite Hlen.
    split; reflexivity.
Qed.

(** X22.  For a LUN that already carries a QoS policy [createLocalQoS]
    creates none and records the policy it found; the revert of the step
    then removes that policy from the LUN, although the policy was there
    before the create. *)
Theorem createLocalQoS_reuses_policy (params taskResult : Map) (qos : gmap string Z)
  (lunID qosID : string) (lun : option Obj) (w w1 : W) :
  asQos (params !! "qos") = Some qos ->
  asString (taskResult !! "localLunID") = Some lunID ->
  askObj (cli p) (GetLunByID lunID) w = (inr lun, w1) ->
  asString (objOf lun !! "IOCLASSID") = Some qosID ->
  qosID <> "" ->
  createLocalQoS p params taskResult w
  = (Ok (<["localQosID" := VStr qosID]> ∅), w1, [OnObj Local (GetLunByID lunID)]) /\
  forall w2,
    calls (revertLocalQoS p (<["localQosID" := VStr qosID]> ∅ ∪ taskResult) w2)
    = [OnErr Local (SmartXDeleteQos qosID lunID "lun" "")].
Proof.
  intros Hqos Hlun Hget Hclass Hne. split.
  - unfold createLocalQoS. rewrite Hqos, Hlun. cbn [must]. rewrite bind_ret.
    rewrite (bind_ok _ _ _ _ _ _ (callObj_run _ _ _ _ _ Hget)).
    rewrite Hclass. cbn [default]. unfold nonEmpty.
    rewrite bool_decide_eq_false_2 by exact Hne. cbn [negb]. rewrite bind_ret.
    reflexivity.
  - intros w2. unfold revertLocalQoS.
    assert (Hid : asString ((<["localQosID" := VStr qosID]> ∅ ∪ taskResult : Map)
                            !! "localLunID") = Some lunID).
    { rewrite lookup_union_r; [exact Hlun|].
      rewrite lookup_insert_ne by discriminate. apply lookup_empty. }
    assert (Hq : asString ((<["localQosID" := VStr qosID]> ∅ ∪ taskResult : Map)
                           !! "localQosID") = Some qosID).
    { rewrite (lookup_union_Some_l _ _ "localQosID" (VStr qosID))
        by apply lookup_insert_eq.
      reflexivity. }
    rewrite Hid, Hq. apply callErr_calls.
Qed.

(** X23.  Expanding a LUN that takes part in no HyperMetro pair and no
    remote replication looks the LUN up, checks that its storage pool
    exists, and extends the LUN to the new size, in this order.  When the
    array does not report the pool the LUN is not extended.  The boolean
    returned is whether the LUN is exposed to an initiator, also when the
    extension fails. *)
Theorem Expand_plain_lun (name : string) (newSize : Z) (lun : Obj)
  (capacity rssStr lunID parent : string) (w w1 : W) :
  askObj (cli p) (GetLunByName (GetLunName name)) w = (inr (Some lun), w1) ->
  asString (lun !! "CAPACITY") = Some capacity ->
  ((ParseInt capacity).1 < newSize)%Z ->
  asString (lun !! "HASRSSOBJECT") = Some rssStr ->
  rssFlag (jsonStringMap rssStr) "HyperMetro" = false ->
  rssFlag (jsonStringMap rssStr) "RemoteReplication" = false ->
  asString (lun !! "ID") = Some lunID ->
  asString (lun !! "PARENTNAME") = Some parent ->
  (forall w2,
      askObj (cli p) (GetPoolByName parent) w1 = (inr None, w2) ->
      calls (Expand p name newSize w)
      = [OnObj Local (GetLunByName (GetLunName name));
         OnObj Local (GetPoolByName parent)] /\
      exists e, result (Expand p name newSize w)
                = Ok (isStr (lun !! "EXPOSEDTOINITIATOR") "true",
                      Some (TaskFailed "Expand-PreCheck-Capacity" e))) /\
  (forall pool w2,
      askObj (cli p) (GetPoolByName parent) w1 = (inr (Some pool), w2) ->
      Expand p name newSize w
      = (Ok (isStr (lun !! "EXPOSEDTOINITIATOR") "true",
             match (askErr (cli p) (ExtendLun lunID newSize) w2).1 with
             | Some e => Some (TaskFailed "Expand-Local-Lun" e)
             | None => None
             end),
         (askErr (cli p) (ExtendLun lunID newSize) w2).2,
         [OnObj Local (GetLunByName (GetLunName name));
          OnObj Local (GetPoolByName parent);
          OnErr Local (ExtendLun lunID newSize)])).
Proof.
  intros Hget Hcap Hlt Hrss Hmetro Hrepl Hid Hparent.
  set (params := <["name" := VStr name]>
                 (<["size" := VInt64 newSize]>
                  (<["expandSize" := VInt64 (sub64 newSize (ParseInt capacity).1)]>
                   (<["lunID" := VStr lunID]>
                    (<["localParentName" := VStr parent]> (∅ : Map)))))).
  set (check := {| taskName := "Expand-PreCheck-Capacity";
                   taskRun := keeping (preExpandCheckCapacity p);
                   taskWith := None; finish := false |} : @Task W).
  set (expand := {| taskName := "Expand-Local-Lun";
                    taskRun := keeping (expandLocalLun p);
                    taskWith := None; finish := false |} : @Task W).
  set (flow := {| flowName := "Expand-LUN-Volume"; tasks := [check; expand];
                  flowResult := ∅ |} : @TaskFlow W).
  assert (Hstart : Expand p name newSize w
                   = prepend [OnObj Local (GetLunByName (GetLunName name))]
                       ((r <- Run flow params ;;
                         ret (isStr (lun !! "EXPOSEDTOINITIATOR") "true",
                              match r.2 with inl err => Some err | inr _ => None end))%go
                          w1)).
  { unfold Expand. cbv zeta.
    rewrite (bind_ok _ _ _ _ _ _ (attempt_ok _ _ _ _ _ (callObj_run _ _ _ _ _ Hget))).
    cbn beta iota. rewrite Hcap. cbn [must]. rewrite bind_ret.
    destruct (Z.leb_spec newSize (ParseInt capacity).1); [lia|].
    rewrite Hrss. cbn [must]. rewrite bind_ret, Hmetro, Hrepl.
    rewrite Hid. cbn [must]. rewrite bind_ret.
    rewrite Hparent. cbn [must]. rewrite bind_ret. reflexivity. }
  rewrite Hstart. clear Hstart.
  assert (Hp : asString (params !! "localParentName") = Some parent).
  { unfold params. rewrite !lookup_insert_ne by discriminate.
    rewrite lookup_insert_eq. reflexivity. }
  assert (Hl : asString (params !! "lunID") = Some lunID).
  { unfold params. rewrite !lookup_insert_ne by discriminate.
    rewrite lookup_insert_eq. reflexivity. }
  assert (Hs : asInt64 (params !! "size") = Some newSize).
  { unfold params. rewrite !lookup_insert_ne by discriminate.
    rewrite lookup_insert_eq. reflexivity. }
  split.
  - intros w2 Hpool.
    assert (Htask : taskRun check params ∅ w1
                    = (Err (errorsNew ("Get storage pool " +:+ parent
                                       +:+ " info error: " +:+ showErr None)),
                       w2, [OnObj Local (GetPoolByName parent)])).
    { cbn [taskRun check]. apply keeping_fail. unfold preExpandCheckCapacity.
      rewrite Hp. cbn [must]. rewrite bind_ret.
      rewrite (bind_ok _ _ _ _ _ _
                 (attempt_ok _ _ _ _ _ (callObj_run _ _ _ _ _ Hpool))).
      reflexivity. }
    rewrite (bind_ok _ _ _ _ _ _
               (Run_of flow params _ _ _ _ _ _ _ (runTasks_fail _ _ _ _ _ _ _ _ Htask))).
    split; [reflexivity|]. eexists. reflexivity.
  - intros pool w2 Hpool.
    assert (Htask : taskRun check params ∅ w1
                    = (Ok (params, ∅), w2, [OnObj Local (GetPoolByName parent)])).
    { cbn [taskRun check]. apply keeping_run. unfold preExpandCheckCapacity.
      rewrite Hp. cbn [must]. rewrite bind_ret.
      rewrite (bind_ok _ _ _ _ _ _
                 (attempt_ok _ _ _ _ _ (callObj_run _ _ _ _ _ Hpool))).
      reflexivity. }
    destruct (askErr (cli p) (ExtendLun lunID newSize) w2) as [[e|] w3] eqn:Hext;
      cbn [fst snd].
    + assert (Htask2 : taskRun expand params (∅ ∪ ∅) w2
                       = (Err e, w3, [OnErr Local (ExtendLun lunID newSize)])).
      { cbn [taskRun expand]. apply keeping_fail. unfold expandLocalLun.
        rewrite Hl. cbn [must]. rewrite bind_ret, Hs. cbn [must]. rewrite bind_ret.
        rewrite (bind_err _ _ _ _ _ _ (callErr_fail _ _ _ _ _ Hext)). reflexivity. }
      rewrite (bind_ok _ _ _ _ _ _
                 (Run_of flow params _ _ _ _ _ _ _
                    (runTasks_step _ _ _ _ _ _ _ _ _ _ _ _ _ _ _ Htask
                       (runTasks_fail _ _ _ _ _ _ _ _ Htask2)))).
      reflexivity.
    + assert (Htask2 : taskRun expand params (∅ ∪ ∅) w2
                       = (Ok (params, ∅), w3, [OnErr Local (ExtendLun lunID newSize)])).
      { cbn [taskRun expand]. apply keeping_run. unfold expandLocalLun.
        rewrite Hl. cbn [must]. rewrite bind_ret, Hs. cbn [must]. rewrite bind_ret.
        rewrite (bind_ok _ _ _ _ _ _ (callErr_run _ _ _ _ Hext)). reflexivity. }
      rewrite (bind_ok _ _ _ _ _ _
                 (Run_of flow params _ _ _ _ _ _ _
                    (runTasks_step _ _ _ _ _ _ _ _ _ _ _ _ _ _ _ Htask
                       (runTasks_step _ _ _ _ _ _ _ _ _ _ _ _ _ _ _ Htask2
                          (runTasks_nil _ _ _))))).
      reflexivity.
Qed.

Lemma callList_run (r : ListReq) (l : list Obj) (w w1 : W) :
  askList (cli p) r w = (inr l, w1) ->
  callList p Local r w = (Ok l, w1, [OnList Local r]).
Proof.
  intros Hr. unfold callList, liftErr, perform, bind, ret. simpl. rewrite Hr.
  reflexivity.
Qed.

(** X24.  When the array lists no replication pair for the LUN,
    [splitReplication] succeeds with a nil result, so no
    [replicationPairIDs] are recorded; [syncReplication], run on a result
    without them, panics on its type assertion before it calls the array. *)
Theorem syncReplication_after_empty_split (params taskResult : Map) (lunID : string)
  (w w1 : W) :
  asString (params !! "lunID") = Some lunID ->
  askList (cli p) (GetReplicationPairByResID lunID 11) w = (inr [], w1) ->
  asStrs (taskResult !! "replicationPairIDs") = None ->
  splitReplication p params taskResult w
  = (Ok ∅, w1, [OnList Local (GetReplicationPairByResID lunID 11)]) /\
  forall params' w2,
    syncReplication p params' (∅ ∪ taskResult) w2 = (Panic, w2, []).
Proof.
  intros Hlun Hlist Hnone. split.
  - unfold splitReplication. rewrite Hlun. cbn [must]. rewrite bind_ret.
    rewrite (bind_ok _ _ _ _ _ _ (callList_run _ _ _ _ Hlist)). reflexivity.
  - intros params' w2. unfold syncReplication.
    rewrite (left_id_L ∅ (∪)), Hnone. reflexivity.
Qed.

(** X25.  When the array reports no HyperMetro pair for the LUN,
    [suspendHyperMetro] succeeds with a nil result, so no
    [hyperMetroPairID] is recorded; [syncHyperMetro], run on a result
    without it, panics on its type assertion before it calls the array. *)
Theorem syncHyperMetro_after_missing_pair (params taskResult : Map) (lunID : string)
  (w w1 : W) :
  asString (params !! "lunID") = Some lunID ->
  askObj (cli p) (GetHyperMetroPairByLocalObjID lunID) w = (inr None, w1) ->
  asString (taskResult !! "hyperMetroPairID") = None ->
  suspendHyperMetro p params taskResult w
  = (Ok ∅, w1, [OnObj Local (GetHyperMetroPairByLocalObjID lunID)]) /\
  forall params' w2,
    syncHyperMetro p params' (∅ ∪ taskResult) w2 = (Panic, w2, []).
Proof.
  intros Hlun Hget Hnone. split.
  - unfold suspendHyperMetro. rewrite Hlun. cbn [must]. rewrite bind_ret.
    rewrite (bind_ok _ _ _ _ _ _ (callObj_run _ _ _ _ _ Hget)). reflexivity.
  - intros params' w2. unfold syncHyperMetro.
    rewrite (left_id_L ∅ (∪)), Hnone. reflexivity.
Qed.

End Steps.

End VolumeSteps.

(** ** Scenarios *)

Module Scenarios.

Import Volume Nfs SampleArray VolumeSpec VolumeNever VolumeFlows VolumeParams
  VolumeSteps NfsSpec NfsFlows.

(** An array that answers from a script, whatever its state; its world
    counts the requests it has served. *)
Record script : Type := {
  onObj : ObjReq -> error + option Obj;
  onErr : ErrReq -> option error
}.

Definition scripted (s : script) : Client nat := {|
  askObj r n := (onObj s r, S n);
  askErr r n := (onErr s r, S n);
  askStr r n := (inr "1", S n);
  askList r n := (inr [], S n)
|}.

Definition scriptedSAN (s : script) : SAN nat := {|
  cli := scripted s;
  metroRemoteCli := None;
  replicaRemoteCli := None;
  product := "DoradoV6"
|}.

Definition busy : error := errorsNew "array busy".

(** *** An existing LUN *)

Definition s0Params : Map := <["name" := VStr "s0"]> ∅.

Lemma createLocalLun_existing_creates_nothing_witness :
  Forall (fun c => creates c = false /\
                   (isRead c = true \/
                    exists id, asString (newLun "s0" GiB !! "ID") = Some id /\
                               c = OnErr Local (DeleteClonePair id)))
         (calls (createLocalLun dorado s0Params ∅ arrayWithS0)) /\
  calls (createLocalLun dorado s0Params ∅ arrayWithS0)
  = [OnObj Local (GetLunByName "s0"); OnObj Local (GetClonePairInfo "s0");
     OnErr Local (DeleteClonePair "s0")].
Proof.
  assert (Hname : asString (s0Params !! "name") = Some "s0") by (vm_compute; reflexivity).
  assert (Hget : askObj (cli dorado) (GetLunByName "s0") arrayWithS0
                 = (inr (Some (newLun "s0" GiB)), arrayWithS0))
    by (vm_compute; reflexivity).
  split; [|vm_compute; reflexivity].
  exact (createLocalLun_existing_creates_nothing dorado s0Params ∅ "s0"
           (newLun "s0" GiB) arrayWithS0 arrayWithS0 Hname Hget).
Defined.

(** *** A create without a pool *)

Lemma Create_without_pool_witness :
  exists e, Create dorado s0Params emptyArray = (Err e, emptyArray, []).
Proof.
  assert (Hpool : asString (s0Params !! "storagepool") = None)
    by (vm_compute; reflexivity).
  exact (proj1 (Create_without_pool dorado s0Params emptyArray (or_introl Hpool))).
Defined.

(** *** A remote device *)

Definition remoteDevice1 : Obj :=
  <["ID" := VStr "dev-1"]>
  (<["HEALTHSTATUS" := VStr "1"]> (<["RUNNINGSTATUS" := VStr "10"]> ∅)).

Definition withRemoteDevice : script := {|
  onObj r := match r with
             | GetRemoteDeviceBySN sn => inr (Some remoteDevice1)
             | _ => inr None
             end;
  onErr r := None
|}.

Lemma getRemoteDeviceID_sound_witness :
  exists remoteDevice,
    askObj (cli (scriptedSAN withRemoteDevice)) (GetRemoteDeviceBySN "SN1") 0%nat
    = (inr (Some remoteDevice), 1%nat) /\
    remoteDevice !! "HEALTHSTATUS" = Some (VStr remoteDeviceHealthStatus) /\
    remoteDevice !! "RUNNINGSTATUS" = Some (VStr remoteDeviceRunningStatusLinkUp) /\
    remoteDevice !! "ID" = Some (VStr "dev-1") /\
    [OnObj Local (GetRemoteDeviceBySN "SN1")] = [OnObj Local (GetRemoteDeviceBySN "SN1")].
Proof.
  assert (Hrun : getRemoteDeviceID (scriptedSAN withRemoteDevice) "SN1" 0%nat
                 = (Ok "dev-1", 1%nat, [OnObj Local (GetRemoteDeviceBySN "SN1")]))
    by (vm_compute; reflexivity).
  exact (getRemoteDeviceID_sound (scriptedSAN withRemoteDevice) "SN1" "dev-1"
           0%nat 1%nat _ Hrun).
Defined.

(** *** Replication pairs *)

Definition pairOf (pairID runningStatus : string) : Obj :=
  <["ID" := VStr pairID]> (<["RUNNINGSTATUS" := VStr runningStatus]> ∅).

(** A normal pair, a split pair and a synchronizing pair. *)
Definition threePairs : list Obj := [pairOf "A" "1"; pairOf "B" "26"; pairOf "C" "23"].

Lemma splitReplicationPairs_splits_active_witness :
  ["A"; "C"] = [] ++ activePairIDs threePairs /\
  [OnErr Local (SplitReplicationPair "A"); OnErr Local (SplitReplicationPair "C")]
  = map (fun id => OnErr Local (SplitReplicationPair id)) (activePairIDs threePairs).
Proof.
  assert (Hrun : splitReplicationPairs dorado threePairs [] emptyArray
                 = (Ok ["A"; "C"], emptyArray,
                    [OnErr Local (SplitReplicationPair "A");
                     OnErr Local (SplitReplicationPair "C")]))
    by (vm_compute; reflexivity).
  exact (splitReplicationPairs_splits_active dorado threePairs [] ["A"; "C"]
           emptyArray emptyArray _ Hrun).
Defined.

Lemma deleteReplicationPairs_deletes_all_witness :
  deletedPairs [OnErr Local (SplitReplicationPair "A");
                OnErr Local (DeleteReplicationPair "A");
                OnErr Local (DeleteReplicationPair "B");
                OnErr Local (SplitReplicationPair "C");
                OnErr Local (DeleteReplicationPair "C")]
  = pairIDs threePairs /\
  length (pairIDs threePairs) = length threePairs.
Proof.
  assert (Hrun : deleteReplicationPairs dorado threePairs emptyArray
                 = (Ok tt, emptyArray,
                    [OnErr Local (SplitReplicationPair "A");
                     OnErr Local (DeleteReplicationPair "A");
                     OnErr Local (DeleteReplicationPair "B");
                     OnErr Local (SplitReplicationPair "C");
                     OnErr Local (DeleteReplicationPair "C")]))
    by (vm_compute; reflexivity).
  exact (deleteReplicationPairs_deletes_all dorado threePairs emptyArray emptyArray _ Hrun).
Defined.

Definition pairResult : Map :=
  <["resType" := VInt 11]>
  (<["remoteDeviceID" := VStr "dev-1"]>
   (<["localLunID" := VStr "s0"]> (<["remoteLunID" := VStr "r0"]> ∅))).

Definition pairData : Map :=
  <["LOCALRESID" := VStr "s0"]>
  (<["LOCALRESTYPE" := VInt 11]>
   (<["REMOTEDEVICEID" := VStr "dev-1"]>
    (<["REMOTERESID" := VStr "r0"]>
     (<["REPLICATIONMODEL" := VInt 2]>
      (<["SYNCHRONIZETYPE" := VInt 2]>
       (<["SPEED" := VInt 4]> ∅)))))).

Lemma createReplicationPair_payload_witness :
  pairData !! "REPLICATIONMODEL" = Some (VInt 2) /\
  pairData !! "SYNCHRONIZETYPE" = Some (VInt 2) /\
  pairData !! "SPEED" = Some (VInt 4) /\
  asInt (pairData !! "LOCALRESTYPE") = asInt (pairResult !! "resType").
Proof.
  assert (Hin : In (OnObj Local (CreateReplicationPair pairData))
                   (calls (createReplicationPair dorado ∅ pairResult emptyArray)))
    by (vm_compute; left; reflexivity).
  exact (createReplicationPair_payload dorado ∅ pairResult pairData emptyArray Hin).
Defined.

(** An array that creates the pair [p1] and cannot start its
    synchronization. *)
Definition syncFails : script := {|
  onObj r := match r with
             | CreateReplicationPair data => inr (Some (<["ID" := VStr "p1"]> ∅))
             | _ => inr None
             end;
  onErr r := match r with
             | SyncReplicationPair pairID => Some busy
             | _ => None
             end
|}.

Lemma createReplicationPair_sync_failure_witness :
  calls (createReplicationPair (scriptedSAN syncFails) ∅ pairResult 0%nat)
  !! (length (calls (createReplicationPair (scriptedSAN syncFails) ∅ pairResult 0%nat))
      - 1)%nat
  = Some (OnErr Local (DeleteReplicationPair "p1")).
Proof.
  assert (Hres : result (createReplicationPair (scriptedSAN syncFails) ∅ pairResult 0%nat)
                 = Err busy) by (vm_compute; reflexivity).
  assert (Hin : In (OnErr Local (SyncReplicationPair "p1"))
                   (calls (createReplicationPair (scriptedSAN syncFails) ∅ pairResult
                             0%nat)))
    by (vm_compute; right; left; reflexivity).
  destruct (createReplicationPair (scriptedSAN syncFails) ∅ pairResult 0%nat)
    as [[r w'] t] eqn:Hrun.
  unfold result, calls in *. cbn [fst snd] in *. subst r.
  exact (createReplicationPair_sync_failure (scriptedSAN syncFails) ∅ pairResult 0%nat
           busy t w' Hrun "p1" Hin).
Defined.

(** *** Clones *)

Definition smallClone : Map :=
  <["clonefrom" := VStr "s0"]> (<["capacity" := VInt64 1]> ∅).

Lemma clone_rejects_smaller_witness :
  clone dorado smallClone ∅ arrayWithS0
  = (Err (errorsNew ("Clone LUN capacity must be >= src " +:+ "s0")), arrayWithS0,
     [OnObj Local (GetLunByName "s0")]).
Proof.
  assert (Hfrom : asString (smallClone !! "clonefrom") = Some "s0")
    by (vm_compute; reflexivity).
  assert (Hreq : asInt64 (smallClone !! "capacity") = Some 1%Z)
    by (vm_compute; reflexivity).
  assert (Hsrc : askObj (cli dorado) (GetLunByName "s0") arrayWithS0
                 = (inr (Some (newLun "s0" GiB)), arrayWithS0))
    by (vm_compute; reflexivity).
  assert (Hcap : asString (newLun "s0" GiB !! "CAPACITY") = Some "1073741824")
    by (vm_compute; reflexivity).
  assert (Hparse : ParseInt "1073741824" = (GiB, None)) by (vm_compute; reflexivity).
  assert (Hlt : (1 < GiB)%Z) by (vm_compute; reflexivity).
  exact (clone_rejects_smaller dorado smallClone ∅ "s0" "1073741824" (newLun "s0" GiB)
           GiB 1%Z arrayWithS0 arrayWithS0 Hfrom Hreq Hsrc Hcap Hparse Hlt).
Defined.

(** An array that holds the source [s0] and the destination [v2] and cannot
    create clone pairs. *)
Definition pairFails : script := {|
  onObj r := match r with
             | GetLunByName name => inr (Some (newLun name GiB))
             | CreateClonePair src dst speed => inl busy
             | _ => inr None
             end;
  onErr r := None
|}.

Definition cloneToV2 : Map :=
  <["clonefrom" := VStr "s0"]>
  (<["capacity" := VInt64 GiB]>
   (<["name" := VStr "v2"]> (<["clonespeed" := VInt 3]> ∅))).

Lemma clonePair_failure_deletes_destination_witness :
  clonePair (scriptedSAN pairFails) cloneToV2 0%nat
  = (Err busy, (askErr (cli (scriptedSAN pairFails)) (DeleteLun "v2") 3%nat).2,
     [OnObj Local (GetLunByName "s0"); OnObj Local (GetLunByName "v2");
      OnObj Local (CreateClonePair "s0" "v2" 3);
      OnErr Local (DeleteLun "v2")]).
Proof.
  assert (Hfrom : asString (cloneToV2 !! "clonefrom") = Some "s0")
    by (vm_compute; reflexivity).
  assert (Hreq : asInt64 (cloneToV2 !! "capacity") = Some GiB)
    by (vm_compute; reflexivity).
  assert (Hname : asString (cloneToV2 !! "name") = Some "v2")
    by (vm_compute; reflexivity).
  assert (Hspeed : asInt (cloneToV2 !! "clonespeed") = Some 3%Z)
    by (vm_compute; reflexivity).
  assert (Hcap : asString (newLun "s0" GiB !! "CAPACITY") = Some "1073741824")
    by (vm_compute; reflexivity).
  assert (Hparse : ParseInt "1073741824" = (GiB, None)) by (vm_compute; reflexivity).
  assert (Hle : (GiB <= GiB)%Z) by (vm_compute; discriminate).
  assert (HsrcID : asString (newLun "s0" GiB !! "ID") = Some "s0")
    by (vm_compute; reflexivity).
  assert (HdstID : asString (newLun "v2" GiB !! "ID") = Some "v2")
    by (vm_compute; reflexivity).
  exact (clonePair_failure_deletes_destination (scriptedSAN pairFails) cloneToV2
           "s0" "1073741824" "v2" "s0" "v2" (newLun "s0" GiB) (newLun "v2" GiB)
           GiB GiB 3%Z busy 0%nat 1%nat 2%nat 3%nat
           Hfrom Hreq Hname Hspeed eq_refl Hcap Hparse Hle eq_refl HsrcID HdstID eq_refl).
Defined.

(** *** Deleting *)

(** An array with a client for the HyperMetro remote array, both answering
    from the same script. *)
Definition scriptedPair (s : script) : SAN nat := {|
  cli := scripted s;
  metroRemoteCli := Some (scripted s);
  replicaRemoteCli := None;
  product := "DoradoV6"
|}.

(** The LUN [q0], which carries the QoS policy [7]. *)
Definition q0Lun : Obj := <["IOCLASSID" := VStr "7"]> (newLun "q0" GiB).

Definition qosStuck : script := {|
  onObj r := match r with
             | GetLunByName name => inr (Some q0Lun)
             | _ => inr None
             end;
  onErr r := match r with
             | SmartXDeleteQos qosID objID objType vStoreID => Some busy
             | _ => None
             end
|}.

Definition qosFree : script := {|
  onObj r := match r with
             | GetLunByName name => inr (Some q0Lun)
             | _ => inr None
             end;
  onErr r := None
|}.

(** A LUN that is gone, on the local array; a QoS policy that cannot be
    left, on the remote array; a LUN that leaves its policy and is deleted,
    on the remote array. *)
Lemma deleteLun_guards_witness :
  deleteLun dorado "s0" Local emptyArray
  = (Ok tt, emptyArray, [OnObj Local (GetLunByName "s0")]) /\
  deleteLun (scriptedPair qosStuck) "q0" MetroRemote 0%nat
  = (Err busy, 2%nat, [OnObj MetroRemote (GetLunByName "q0");
                       OnErr MetroRemote (SmartXDeleteQos "7" "q0" "lun" "")]) /\
  calls (deleteLun (scriptedPair qosFree) "q0" MetroRemote 0%nat)
  = [OnObj MetroRemote (GetLunByName "q0");
     OnErr MetroRemote (SmartXDeleteQos "7" "q0" "lun" "");
     OnErr MetroRemote (DeleteLun "q0")].
Proof.
  assert (Hget : askObj (cli dorado) (GetLunByName "s0") emptyArray
                 = (inr None, emptyArray)) by (vm_compute; reflexivity).
  assert (Hid : asString (q0Lun !! "ID") = Some "q0") by (vm_compute; reflexivity).
  assert (Hqos : asString (q0Lun !! "IOCLASSID") = Some "7") by (vm_compute; reflexivity).
  assert (Hne : "7" <> "") by discriminate.
  split; [|split].
  - exact (proj1 (deleteLun_guards dorado "s0" Local (cli dorado) emptyArray emptyArray
                    eq_refl) Hget).
  - exact (proj1 (proj2 (deleteLun_guards (scriptedPair qosStuck) "q0" MetroRemote
                           (scripted qosStuck) 0%nat 1%nat eq_refl)
                    q0Lun "q0" "7" eq_refl Hid Hqos Hne)
             busy 2%nat eq_refl).
  - exact (proj2 (proj2 (deleteLun_guards (scriptedPair qosFree) "q0" MetroRemote
                           (scripted qosFree) 0%nat 1%nat eq_refl)
                    q0Lun "q0" "7" eq_refl Hid Hqos Hne)
             2%nat eq_refl).
Defined.

(** An array that reports the snapshot [snap1] and cannot deactivate
    it. *)
Definition snapshotStuck : script := {|
  onObj r := match r with
             | GetLunSnapshotByName name => inr (Some (newSnapshot name "s0"))
             | _ => inr None
             end;
  onErr r := match r with
             | DeactivateLunSnapshot snapshotID => Some busy
             | _ => None
             end
|}.

(** A snapshot that is gone; a snapshot that cannot be deactivated and is
    not deleted; a snapshot that is deactivated and then deleted. *)
Lemma DeleteSnapshot_sequence_witness :
  DeleteSnapshot dorado "snap0" emptyArray
  = (Ok tt, emptyArray, [OnObj Local (GetLunSnapshotByName "snap0")]) /\
  DeleteSnapshot (scriptedSAN snapshotStuck) "snap1" 0%nat
  = (Err (TaskFailed "Deactivate-Snapshot" busy), 2%nat,
     [OnObj Local (GetLunSnapshotByName "snap1");
      OnErr Local (DeactivateLunSnapshot "snap1")]) /\
  calls (DeleteSnapshot dorado "snap1" arrayWithSnap)
  = [OnObj Local (GetLunSnapshotByName "snap1");
     OnErr Local (DeactivateLunSnapshot "snap1");
     OnErr Local (DeleteLunSnapshot "snap1")] /\
  result (DeleteSnapshot dorado "snap1" arrayWithSnap) = Ok tt.
Proof.
  assert (Hget : askObj (cli dorado) (GetLunSnapshotByName "snap0") emptyArray
                 = (inr None, emptyArray)) by (vm_compute; reflexivity).
  assert (Hid : asString (newSnapshot "snap1" "s0" !! "ID") = Some "snap1")
    by (vm_compute; reflexivity).
  assert (Hsnap : askObj (cli dorado) (GetLunSnapshotByName "snap1") arrayWithSnap
                  = (inr (Some (newSnapshot "snap1" "s0")), arrayWithSnap))
    by (vm_compute; reflexivity).
  assert (Hdeact : askErr (cli dorado) (DeactivateLunSnapshot "snap1") arrayWithSnap
                   = (None, arrayWithSnap)) by (vm_compute; reflexivity).
  assert (Hdel : askErr (cli dorado) (DeleteLunSnapshot "snap1") arrayWithSnap
                 = (None, {| luns := luns arrayWithSnap; snapshots := ∅ |}))
    by (vm_compute; reflexivity).
  split; [|split].
  - exact (proj1 (DeleteSnapshot_sequence dorado "snap0" emptyArray emptyArray) Hget).
  - exact (proj1 (proj2 (DeleteSnapshot_sequence (scriptedSAN snapshotStuck) "snap1"
                           0%nat 1%nat)
                    (newSnapshot "snap1" "s0") "snap1" eq_refl Hid)
             busy 2%nat eq_refl).
  - destruct (proj2 (proj2 (DeleteSnapshot_sequence dorado "snap1" arrayWithSnap
                              arrayWithSnap)
                       (newSnapshot "snap1" "s0") "snap1" Hsnap Hid)
                arrayWithSnap Hdeact) as [Hcalls Hok].
    split; [exact Hcalls|exact (Hok _ Hdel)].
Defined.

(** *** QoS *)

(** An array whose LUN [q0] carries the QoS policy [7]. *)
Definition arrayWithQos : array :=
  {| luns := {[ "q0" := <["IOCLASSID" := VStr "7"]> (newLun "q0" GiB) ]};
     snapshots := ∅ |}.

Definition qosParams : Map := <["qos" := VQos ∅]> ∅.

Definition q0Result : Map := <["localLunID" := VStr "q0"]> ∅.

Lemma createLocalQoS_reuses_policy_witness :
  createLocalQoS dorado qosParams q0Result arrayWithQos
  = (Ok (<["localQosID" := VStr "7"]> ∅), arrayWithQos, [OnObj Local (GetLunByID "q0")]) /\
  forall w2,
    calls (revertLocalQoS dorado (<["localQosID" := VStr "7"]> ∅ ∪ q0Result) w2)
    = [OnErr Local (SmartXDeleteQos "7" "q0" "lun" "")].
Proof.
  assert (Hqos : asQos (qosParams !! "qos") = Some ∅) by (vm_compute; reflexivity).
  assert (Hlun : asString (q0Result !! "localLunID") = Some "q0")
    by (vm_compute; reflexivity).
  assert (Hget : askObj (cli dorado) (GetLunByID "q0") arrayWithQos
                 = (inr (Some (<["IOCLASSID" := VStr "7"]> (newLun "q0" GiB))),
                    arrayWithQos))
    by (vm_compute; reflexivity).
  assert (Hclass : asString (objOf (Some (<["IOCLASSID" := VStr "7"]> (newLun "q0" GiB)))
                             !! "IOCLASSID") = Some "7") by (vm_compute; reflexivity).
  assert (Hne : "7" <> "") by discriminate.
  exact (createLocalQoS_reuses_policy dorado qosParams q0Result ∅ "q0" "7" _
           arrayWithQos arrayWithQos Hqos Hlun Hget Hclass Hne).
Defined.

(** *** Expanding *)

Lemma Expand_plain_lun_witness :
  calls (Expand dorado "s0" (2 * GiB) arrayWithS0)
  = [OnObj Local (GetLunByName "s0"); OnObj Local (GetPoolByName "P1");
     OnErr Local (ExtendLun "s0" (2 * GiB))].
Proof.
  assert (Hget : askObj (cli dorado) (GetLunByName (GetLunName "s0")) arrayWithS0
                 = (inr (Some (newLun "s0" GiB)), arrayWithS0))
    by (vm_compute; reflexivity).
  assert (Hcap : asString (newLun "s0" GiB !! "CAPACITY") = Some "1073741824")
    by (vm_compute; reflexivity).
  assert (Hlt : ((ParseInt "1073741824").1 < 2 * GiB)%Z) by (vm_compute; reflexivity).
  assert (Hrss : asString (newLun "s0" GiB !! "HASRSSOBJECT") = Some "{}")
    by (vm_compute; reflexivity).
  assert (Hid : asString (newLun "s0" GiB !! "ID") = Some "s0")
    by (vm_compute; reflexivity).
  assert (Hparent : asString (newLun "s0" GiB !! "PARENTNAME") = Some "P1")
    by (vm_compute; reflexivity).
  assert (Hpool : askObj (cli dorado) (GetPoolByName "P1") arrayWithS0
                  = (inr (Some (<["ID" := VStr "0"]> (<["NAME" := VStr "P1"]> ∅))),
                     arrayWithS0))
    by (vm_compute; reflexivity).
  rewrite (proj2 (Expand_plain_lun dorado "s0" (2 * GiB) (newLun "s0" GiB)
                    "1073741824" "{}" "s0" "P1" arrayWithS0 arrayWithS0
                    Hget Hcap Hlt Hrss eq_refl eq_refl Hid Hparent) _ _ Hpool).
  reflexivity.
Defined.

(** *** Mirrors without a pair *)

Definition s0Lun : Map := <["lunID" := VStr "s0"]> ∅.

Lemma syncReplication_after_empty_split_witness :
  splitReplication dorado s0Lun ∅ arrayWithS0
  = (Ok ∅, arrayWithS0, [OnList Local (GetReplicationPairByResID "s0" 11)]) /\
  forall params' w2, syncReplication dorado params' (∅ ∪ ∅) w2 = (Panic, w2, []).
Proof.
  assert (Hlun : asString (s0Lun !! "lunID") = Some "s0") by (vm_compute; reflexivity).
  assert (Hnone : asStrs ((∅ : Map) !! "replicationPairIDs") = None)
    by (vm_compute; reflexivity).
  exact (syncReplication_after_empty_split dorado s0Lun ∅ "s0" arrayWithS0 arrayWithS0
           Hlun eq_refl Hnone).
Defined.

Lemma syncHyperMetro_after_missing_pair_witness :
  suspendHyperMetro dorado s0Lun ∅ arrayWithS0
  = (Ok ∅, arrayWithS0, [OnObj Local (GetHyperMetroPairByLocalObjID "s0")]) /\
  forall params' w2, syncHyperMetro dorado params' (∅ ∪ ∅) w2 = (Panic, w2, []).
Proof.
  assert (Hlun : asString (s0Lun !! "lunID") = Some "s0") by (vm_compute; reflexivity).
  assert (Hnone : asString ((∅ : Map) !! "hyperMetroPairID") = None)
    by (vm_compute; reflexivity).
  exact (syncHyperMetro_after_missing_pair dorado s0Lun ∅ "s0" arrayWithS0 arrayWithS0
           Hlun eq_refl Hnone).
Defined.

(** *** The parameters of a create *)

Definition fromBoth : Map :=
  <["name" := VStr "v1"]>
  (<["storagepool" := VStr "P1"]>
   (<["sourcevolumename" := VStr "s0"]>
    (<["sourcesnapshotname" := VStr "snap0"]> ∅))).

Lemma commonPreCreate_writes_witness :
  exists params',
    result (commonPreCreate dorado fromBoth emptyArray) = Ok params' /\
    writesOnly ["alloctype"; "clonespeed"; "poolID"; "qos"] fromBoth params' /\
    params' !! "alloctype" = Some (VInt 1).
Proof.
  assert (Hok : isOk (result (commonPreCreate dorado fromBoth emptyArray)) = true)
    by (vm_compute; reflexivity).
  apply GoFacts.isOk_true in Hok as [params' Hok].
  destruct (commonPreCreate dorado fromBoth emptyArray) as [[r w'] t] eqn:Hrun.
  unfold result in Hok. cbn [fst] in Hok. subst r.
  destruct (commonPreCreate_writes dorado fromBoth params' emptyArray w' t Hrun)
    as (Hkeep & Halloc & _).
  exists params'. split; [reflexivity|]. split; [exact Hkeep|exact Halloc].
Defined.

Lemma preCreate_source_precedence_witness :
  exists params',
    result (preCreate dorado fromBoth emptyArray) = Ok params' /\
    params' !! "clonefrom" = Some (VStr "s0") /\
    params' !! "fromSnapshot" = None.
Proof.
  assert (Hok : isOk (result (preCreate dorado fromBoth emptyArray)) = true)
    by (vm_compute; reflexivity).
  assert (Hsrc : asString (fromBoth !! "sourcevolumename") = Some "s0")
    by (vm_compute; reflexivity).
  assert (Hsnap : fromBoth !! "fromSnapshot" = None) by (vm_compute; reflexivity).
  apply GoFacts.isOk_true in Hok as [params' Hok].
  destruct (preCreate dorado fromBoth emptyArray) as [[r w'] t] eqn:Hrun.
  unfold result in Hok. cbn [fst] in Hok. subst r.
  destruct (preCreate_source_precedence dorado fromBoth params' emptyArray w' t Hrun)
    as (_ & Hvol & _).
  destruct (Hvol "s0" Hsrc) as [Hclone Hfrom].
  exists params'. split; [reflexivity|]. split; [exact Hclone|].
  rewrite Hfrom. exact Hsnap.
Defined.

(** *** Mounting *)

Definition fsRequest : Map :=
  <["srcType" := VStr "fs"]>
  (<["sourcePath" := VStr "10.0.0.1:/share"]>
   (<["targetPath" := VStr "/mnt/share"]> ∅)).

Definition fsInfo : connectorInfo :=
  {| srcType := "fs"; sourcePath := "10.0.0.1:/share"; targetPath := "/mnt/share";
     fsType := "ext4"; mntFlags := "" |}.

Lemma parseNFSInfo_fields_witness :
  asString (fsRequest !! "srcType") = Some (srcType fsInfo) /\
  srcType fsInfo <> "" /\
  asString (fsRequest !! "sourcePath") = Some (sourcePath fsInfo) /\
  sourcePath fsInfo <> "" /\
  asString (fsRequest !! "targetPath") = Some (targetPath fsInfo) /\
  targetPath fsInfo <> "" /\
  fsType fsInfo <> "" /\
  (fsType fsInfo = "ext4" \/ asString (fsRequest !! "fsType") = Some (fsType fsInfo)) /\
  mntFlags fsInfo = default "" (asString (fsRequest !! "mountFlags")).
Proof.
  assert (Hparse : parseNFSInfo fsRequest = Ok fsInfo) by (vm_compute; reflexivity).
  exact (proj2 (parseNFSInfo_fields fsRequest) fsInfo Hparse).
Defined.

(** A request for a source type the connector does not know. *)
Definition cifsRequest : Map := <["srcType" := VStr "cifs"]> fsRequest.

Definition plainHost : Sample.host :=
  {| Sample.missing := []; Sample.procMounts := ""; Sample.failing := [] |}.

Lemma tryConnectVolume_invalid_is_untouched_witness :
  exists e, tryConnectVolume (Sample.hostOS plainHost) cifsRequest [] = (Err e, [], []).
Proof.
  assert (Hparse : parseNFSInfo cifsRequest
                   = Ok {| srcType := "cifs"; sourcePath := "10.0.0.1:/share";
                           targetPath := "/mnt/share"; fsType := "ext4";
                           mntFlags := "" |}) by (vm_compute; reflexivity).
  apply (tryConnectVolume_invalid_is_untouched (Sample.hostOS plainHost) cifsRequest []).
  intros conn Hconn. rewrite Hparse in Hconn. injection Hconn as <-.
  split; discriminate.
Defined.

Lemma mountDisk_formats_blank_only_witness :
  exists rest,
    calls (mountDisk (Sample.hostOS plainHost) "/dev/sdb" "/mnt/disk" "ext4" "" [])
    = Exec (blkidCmd "/dev/sdb") :: Exec (mkfsCmd "/dev/sdb" "ext4") :: rest.
Proof.
  assert (Hblkid : utilsExecShellCmd (Sample.hostOS plainHost) (blkidCmd "/dev/sdb") []
                   = (("", None), [blkidCmd "/dev/sdb"])) by (vm_compute; reflexivity).
  destruct (proj2 (proj2 (mountDisk_formats_blank_only (Sample.hostOS plainHost)
                            "/dev/sdb" "/mnt/disk" "ext4" "" "" None [] _ Hblkid))
              eq_refl eq_refl) as (rest & Hcalls & _).
  exists rest. exact Hcalls.
Defined.

(** [/dev/sdb] is mounted on [/data] already, and is mounted there again. *)
Lemma mountUnix_mounts_once_witness :
  calls (mountUnix (Sample.hostOS conflictHost) "/dev/sdb" "/data" "rw" [])
  = [Stat "/dev/sdb"; Stat "/data"; ReadFile "/proc/mounts";
     Exec "mount /dev/sdb /data -o rw"].
Proof.
  assert (Hpre : preMount (Sample.hostOS conflictHost) "/dev/sdb" "/data" []
                 = (Ok tt, [], [Stat "/dev/sdb"; Stat "/data"]))
    by (vm_compute; reflexivity).
  assert (Hread : ioutilReadFile (Sample.hostOS conflictHost) "/proc/mounts" []
                  = (inr sdbOnData, [])) by (vm_compute; reflexivity).
  assert (Htable : parseMounts sdbOnData !! "/data" = Some "/dev/sdb")
    by (vm_compute; reflexivity).
  assert (Hfree : noConflict "/dev/sdb" "/data" (inr sdbOnData)).
  { intros value Hvalue. rewrite Htable in Hvalue. injection Hvalue as <-. reflexivity. }
  rewrite (mountUnix_mounts_once (Sample.hostOS conflictHost) "/dev/sdb" "/data" "rw"
             (inr sdbOnData) [] [] [] _ Hpre Hread Hfree).
  reflexivity.
Defined.

End Scenarios.
